(** * YOLO loss, box codec, gradient hooks and non-max suppression

    A shallow embedding of [yolo/losses/yolo_loss.py], of
    [YoloTask.build_losses] in [yolo/tasks/yolo.py] and of
    [yolo/ops/nms_ops.py].

    Tensors are modelled entry by entry.  A float32 entry is an extended
    real: a finite real, one of the two infinities, or NaN.  Rounding and
    overflow are not modelled, so a finite operation on finite operands is
    exact. *)

From Stdlib Require Import Reals Lra List Bool Arith Lia String.
From Stdlib Require Import Sorting.Sorted Sorting.Permutation.
Import ListNotations.

Open Scope R_scope.

(* ================================================================== *)
(** * Part I: definitions *)
(* ================================================================== *)

(** ** Float entries *)

Inductive xfloat : Type :=
| Fin (r : R)
| PInf
| NInf
| NaN.

Definition is_nan (x : xfloat) : bool :=
  match x with NaN => true | _ => false end.

Definition is_inf (x : xfloat) : bool :=
  match x with PInf | NInf => true | _ => false end.

Definition inf_of (positive : bool) : xfloat :=
  if positive then PInf else NInf.

(** An infinity times a finite factor: the sign follows the factor, and
    a zero factor gives NaN. *)
Definition inf_times (positive : bool) (r : R) : xfloat :=
  if Rlt_dec 0 r then inf_of positive
  else if Rlt_dec r 0 then inf_of (negb positive)
  else NaN.

Definition xopp (a : xfloat) : xfloat :=
  match a with
  | Fin x => Fin (- x)
  | PInf => NInf
  | NInf => PInf
  | NaN => NaN
  end.

Definition xadd (a b : xfloat) : xfloat :=
  match a, b with
  | NaN, _ | _, NaN => NaN
  | Fin x, Fin y => Fin (x + y)
  | PInf, NInf | NInf, PInf => NaN
  | PInf, _ | _, PInf => PInf
  | NInf, _ | _, NInf => NInf
  end.

Definition xsub (a b : xfloat) : xfloat := xadd a (xopp b).

Definition xmul (a b : xfloat) : xfloat :=
  match a, b with
  | NaN, _ | _, NaN => NaN
  | Fin x, Fin y => Fin (x * y)
  | PInf, Fin y => inf_times true y
  | NInf, Fin y => inf_times false y
  | Fin x, PInf => inf_times true x
  | Fin x, NInf => inf_times false x
  | PInf, PInf | NInf, NInf => PInf
  | PInf, NInf | NInf, PInf => NInf
  end.

(** Division; a finite value over zero is an infinity of the sign of the
    numerator and zero over zero is NaN (signed zeros are not modelled). *)
Definition xdiv (a b : xfloat) : xfloat :=
  match a, b with
  | NaN, _ | _, NaN => NaN
  | Fin x, Fin y =>
      if Req_dec_T y 0 then inf_times true x else Fin (x / y)
  | Fin _, (PInf | NInf) => Fin 0
  | PInf, Fin y => if Rlt_dec y 0 then NInf else PInf
  | NInf, Fin y => if Rlt_dec y 0 then PInf else NInf
  | (PInf | NInf), (PInf | NInf) => NaN
  end.

Definition xsquare (a : xfloat) : xfloat := xmul a a.

Definition xabs (a : xfloat) : xfloat :=
  match a with
  | Fin x => Fin (Rabs x)
  | PInf | NInf => PInf
  | NaN => NaN
  end.

Definition xexp (a : xfloat) : xfloat :=
  match a with
  | Fin x => Fin (exp x)
  | PInf => PInf
  | NInf => Fin 0
  | NaN => NaN
  end.

Definition xlog (a : xfloat) : xfloat :=
  match a with
  | Fin x =>
      if Rlt_dec 0 x then Fin (ln x)
      else if Rlt_dec x 0 then NaN
      else NInf
  | PInf => PInf
  | NInf => NaN
  | NaN => NaN
  end.

Definition sigmoid (x : R) : R := / (1 + exp (- x)).

(** The inverse of [sigmoid] on the open interval (0, 1). *)
Definition logit (p : R) : R := ln (p / (1 - p)).

Definition xsigmoid (a : xfloat) : xfloat :=
  match a with
  | Fin x => Fin (sigmoid x)
  | PInf => Fin 1
  | NInf => Fin 0
  | NaN => NaN
  end.

(** Comparisons; any comparison with NaN is false. *)
Definition xlt (a b : xfloat) : bool :=
  match a, b with
  | NaN, _ | _, NaN => false
  | Fin x, Fin y => if Rlt_dec x y then true else false
  | _, NInf => false
  | PInf, _ => false
  | NInf, _ => true
  | Fin _, PInf => true
  end.

Definition xgt (a b : xfloat) : bool := xlt b a.

Definition xle (a b : xfloat) : bool :=
  match a, b with
  | NaN, _ | _, NaN => false
  | Fin x, Fin y => if Rle_dec x y then true else false
  | NInf, _ => true
  | _, PInf => true
  | _, NInf => false
  | PInf, _ => false
  end.

Definition xge (a b : xfloat) : bool := xle b a.

Definition xeq (a b : xfloat) : bool :=
  match a, b with
  | Fin x, Fin y => if Req_dec_T x y then true else false
  | PInf, PInf | NInf, NInf => true
  | _, _ => false
  end.

(** [tf.minimum] and [tf.maximum]: NaN in either operand gives NaN. *)
Definition xmin (a b : xfloat) : xfloat :=
  if is_nan a || is_nan b then NaN else if xlt b a then b else a.

Definition xmax (a b : xfloat) : xfloat :=
  if is_nan a || is_nan b then NaN else if xlt a b then b else a.

(** [tf.nn.relu]. *)
Definition relu (a : xfloat) : xfloat := xmax a (Fin 0).

(** [tf.clip_by_value t lo hi] is [maximum (minimum t hi) lo]. *)
Definition clip_by_value (t lo hi : xfloat) : xfloat :=
  xmax (xmin t hi) lo.

Definition reduce_sum (l : list xfloat) : xfloat :=
  fold_right xadd (Fin 0) l.

Definition reduce_mean (l : list xfloat) : xfloat :=
  xdiv (reduce_sum l) (Fin (INR (List.length l))).

(** ** The helpers of [yolo/ops/math_ops.py] *)

Module math_ops.

(** Modelled from the spec: [yolo/ops/math_ops.py] is not among the
    sources.  "Sanitized (NaN/Inf -> 0)": an entry that is NaN or infinite
    is replaced by [val], any other entry is kept. *)
Definition rm_nan_inf (x : xfloat) (val : xfloat) : xfloat :=
  if is_nan x || is_inf x then val else x.

(** Modelled from the spec: the product used to mask a loss term by the
    true-objectness indicator; it is zero wherever the first factor is
    zero, whatever the second factor is. *)
Definition mul_no_nan (x y : xfloat) : xfloat :=
  if xeq x (Fin 0) then Fin 0 else xmul x y.

(** Modelled from the spec: "any division is safe (returns 0 instead of
    NaN/Inf when the denominator is 0)". *)
Definition divide_no_nan (a b : xfloat) : xfloat :=
  if xeq b (Fin 0) then Fin 0 else xdiv a b.

End math_ops.

(** ** The range of float32

    The tensors of the loss are float32.  A finite result whose magnitude
    reaches [2^128 - 2^103] rounds to an infinity (round to nearest, ties
    to even; the largest float32 is [2^128 - 2^104]).  The rounding of a
    result inside the range is not modelled. *)
Definition f32_overflow : R := 340282356779733661637539395458142568448.

Definition f32_range (a : xfloat) : xfloat :=
  match a with
  | Fin x =>
      if Rle_dec f32_overflow x then PInf
      else if Rle_dec x (- f32_overflow) then NInf
      else a
  | _ => a
  end.

(** The float32 product with its overflow. *)
Definition f32_mul (a b : xfloat) : xfloat := f32_range (xmul a b).

(** The float32 sigmoid at the two ends of its range: a value of at
    least [1 - 2^-25], within half a unit in the last place of 1.0,
    rounds to 1.0, and a value of at most [2^-150], half the least
    positive float32, rounds to 0.  The rounding of the values in between
    is not modelled. *)
Definition f32_sigmoid (x : R) : R :=
  let s := sigmoid x in
  if Rle_dec (1 - / 2 ^ 25) s then 1
  else if Rle_dec s (/ 2 ^ 150) then 0
  else s.

Definition xsigmoid_f32 (a : xfloat) : xfloat :=
  match a with
  | Fin x => Fin (f32_sigmoid x)
  | PInf => Fin 1
  | NInf => Fin 0
  | NaN => NaN
  end.

(** ** Gradient hooks

    A [tf.custom_gradient] function is the pair of its forward value and
    its backward function; the backward function returns one gradient per
    argument.  The forward value may be any tensor; the upstream gradient
    is the list of its entries.  The products of the box and of the class
    hook, which sanitize them, overflow as float32 products do. *)

Definition obj_gradient_trap {T : Type} (y : T) (obj_normalizer : R)
  : T * (list xfloat -> list xfloat * xfloat) :=
  let trap (dy : list xfloat) :=
    (map (fun e => xmul e (Fin obj_normalizer)) dy, Fin 0) in
  (y, trap).

Definition box_gradient_trap {T : Type} (y : T)
    (iou_normalizer : R) (max_delta : xfloat)
  : T * (list xfloat -> list xfloat * xfloat * xfloat) :=
  let trap (dy : list xfloat) :=
    let dy := map (fun e => f32_mul e (Fin iou_normalizer)) dy in
    let dy := map (fun e => math_ops.rm_nan_inf e (Fin 0)) dy in
    let delta := max_delta in
    let dy := map (fun e => clip_by_value e (xopp delta) delta) dy in
    (dy, Fin 0, Fin 0) in
  (y, trap).

Definition class_gradient_trap {T : Type} (y : T) (class_normalizer : R)
  : T * (list xfloat -> list xfloat * xfloat) :=
  let trap (dy : list xfloat) :=
    let dy := map (fun e => f32_mul e (Fin class_normalizer)) dy in
    let dy := map (fun e => math_ops.rm_nan_inf e (Fin 0)) dy in
    (dy, Fin 0) in
  (y, trap).

(** What the box hook does to one upstream entry. *)
Definition box_trap_entry_of (n : R) (delta e : xfloat) : xfloat :=
  clip_by_value (math_ops.rm_nan_inf (f32_mul e (Fin n)) (Fin 0))
                (xopp delta) delta.

(** The scaled and sanitized value of an entry: the product when it is
    finite, zero when it is NaN or an infinity, by overflow or because the
    entry is. *)
Definition scaled_sanitized (n : R) (e : xfloat) : R :=
  match f32_mul e (Fin n) with Fin p => p | _ => 0 end.

(** ** Forward-pass entries

    An entry of a forward-pass tensor carries its value and whether a
    gradient path leads from it back to the network output [y_pred]
    ([live]).  Every operation joins the paths of its operands;
    [tf.stop_gradient] and constants cut them. *)

Record tv : Type := Tv { val : xfloat; live : bool }.

Definition constant (r : R) : tv := Tv (Fin r) false.

Definition stop_gradient (a : tv) : tv := Tv (val a) false.

Definition op1 (f : xfloat -> xfloat) (a : tv) : tv :=
  Tv (f (val a)) (live a).

Definition op2 (f : xfloat -> xfloat -> xfloat) (a b : tv) : tv :=
  Tv (f (val a) (val b)) (live a || live b).

Declare Scope tv_scope.
Delimit Scope tv_scope with tv.
Bind Scope tv_scope with tv.

Notation "a + b" := (op2 xadd a b) : tv_scope.
Notation "a - b" := (op2 xsub a b) : tv_scope.
Notation "a * b" := (op2 xmul a b) : tv_scope.
Notation "a / b" := (op2 xdiv a b) : tv_scope.

Definition tsigmoid : tv -> tv := op1 xsigmoid.
Definition tsigmoid_f32 : tv -> tv := op1 xsigmoid_f32.
Definition texp : tv -> tv := op1 xexp.
Definition tlog : tv -> tv := op1 xlog.
Definition tsquare : tv -> tv := op1 xsquare.
Definition trelu : tv -> tv := op1 relu.

(** A pair of entries along the last axis ([xy] or [wh]) and a box
    [K.concatenate([xy, wh], axis=-1)]. *)
Definition vec2 : Type := (tv * tv)%type.
Definition box : Type := (vec2 * vec2)%type.

Definition vals2 (v : vec2) : xfloat * xfloat := (val (fst v), val (snd v)).
Definition vals_box (b : box) : (xfloat * xfloat) * (xfloat * xfloat) :=
  (vals2 (fst b), vals2 (snd b)).

(** ** Box codec *)

(** [get_predicted_box]: the legacy decoder, for one grid cell and one
    anchor. *)
Definition get_predicted_box (width height : tv) (unscaled_box : box)
    (anchor_grid grid_points : vec2) (scale_x_y : R)
    (iou_normalizer : R) (max_delta : xfloat) : vec2 * vec2 * box :=
  let act (e : tv) : tv :=
    (tsigmoid e * constant scale_x_y
     - constant (0.5 * (scale_x_y - 1)))%tv in
  let pred_xy := (act (fst (fst unscaled_box)), act (snd (fst unscaled_box))) in
  let pred_wh := snd unscaled_box in
  let pred_xy := fst (box_gradient_trap pred_xy iou_normalizer max_delta) in
  let pred_wh := fst (box_gradient_trap pred_wh iou_normalizer max_delta) in
  let box_xy := (fst pred_xy / width + fst grid_points,
                 snd pred_xy / height + snd grid_points)%tv in
  let box_wh := (texp (fst pred_wh) * fst anchor_grid,
                 texp (snd pred_wh) * snd anchor_grid)%tv in
  let pred_box := (box_xy, box_wh) in
  (pred_xy, pred_wh, pred_box).

(** [get_predicted_box_newcords]: the new-coordinates decoder, with the
    sigmoid over the reals.  The sigmoid of a float32 tensor reaches 1 and
    0; [get_predicted_box_newcords_f32] below has these ends. *)
Definition get_predicted_box_newcords (width height : tv)
    (unscaled_box : box) (anchor_grid grid_points : vec2) (scale_x_y : R)
    (iou_normalizer : R) (max_delta : xfloat) : vec2 * vec2 * box :=
  let act (e : tv) : tv :=
    (tsigmoid e * constant scale_x_y
     - constant (0.5 * (scale_x_y - 1)))%tv in
  let pred_xy := (act (fst (fst unscaled_box)), act (snd (fst unscaled_box))) in
  let pred_wh := (tsigmoid (fst (snd unscaled_box)),
                  tsigmoid (snd (snd unscaled_box))) in
  let pred_xy := fst (box_gradient_trap pred_xy iou_normalizer max_delta) in
  let pred_wh := fst (box_gradient_trap pred_wh iou_normalizer max_delta) in
  let box_xy := (fst pred_xy / width + fst grid_points,
                 snd pred_xy / height + snd grid_points)%tv in
  let box_wh := (constant 4 * tsquare (fst pred_wh) * fst anchor_grid,
                 constant 4 * tsquare (snd pred_wh) * snd anchor_grid)%tv in
  let pred_box := (box_xy, box_wh) in
  (pred_xy, pred_wh, pred_box).

(** [get_predicted_box_newcords] over a given sigmoid [sg]: with
    [tsigmoid] it is the decoder above, in exact arithmetic; with
    [tsigmoid_f32] it is the decoder on float32 tensors, as far as the
    ends of the range of the sigmoid go. *)
Definition get_predicted_box_newcords_with (sg : tv -> tv)
    (width height : tv) (unscaled_box : box)
    (anchor_grid grid_points : vec2) (scale_x_y : R)
    (iou_normalizer : R) (max_delta : xfloat) : vec2 * vec2 * box :=
  let act (e : tv) : tv :=
    (sg e * constant scale_x_y
     - constant (0.5 * (scale_x_y - 1)))%tv in
  let pred_xy := (act (fst (fst unscaled_box)), act (snd (fst unscaled_box))) in
  let pred_wh := (sg (fst (snd unscaled_box)),
                  sg (snd (snd unscaled_box))) in
  let pred_xy := fst (box_gradient_trap pred_xy iou_normalizer max_delta) in
  let pred_wh := fst (box_gradient_trap pred_wh iou_normalizer max_delta) in
  let box_xy := (fst pred_xy / width + fst grid_points,
                 snd pred_xy / height + snd grid_points)%tv in
  let box_wh := (constant 4 * tsquare (fst pred_wh) * fst anchor_grid,
                 constant 4 * tsquare (snd pred_wh) * snd anchor_grid)%tv in
  let pred_box := (box_xy, box_wh) in
  (pred_xy, pred_wh, pred_box).

Definition get_predicted_box_newcords_f32 :=
  get_predicted_box_newcords_with tsigmoid_f32.

(** [Yolo_Loss._scale_ground_truth_box]: the legacy encoder. *)
Definition _scale_ground_truth_box (b : box) (width height : tv)
    (anchor_grid grid_points : vec2) : vec2 * vec2 :=
  let xy := (trelu (fst (fst b) - fst grid_points),
             trelu (snd (fst b) - snd grid_points))%tv in
  let xy := (fst xy * width, snd xy * height)%tv in
  let wh := (tlog (fst (snd b) / fst anchor_grid),
             tlog (snd (snd b) / snd anchor_grid))%tv in
  let wh := (op1 (fun e => math_ops.rm_nan_inf e (Fin 0)) (fst wh),
             op1 (fun e => math_ops.rm_nan_inf e (Fin 0)) (snd wh)) in
  ((stop_gradient (fst xy), stop_gradient (snd xy)),
   (stop_gradient (fst wh), stop_gradient (snd wh))).

(** The raw box whose activations are the targets [t] of the encoder:
    its xy entries are the raw offsets that the activation
    [sigmoid(raw) * scale_x_y - 0.5 * (scale_x_y - 1)] of the decoder
    sends to the xy targets, its wh entries are the wh targets.  No
    function of the source computes it; it is what "decoding the encoded
    targets" has to feed to the decoder, whose first step is that
    activation. *)
Definition inverse_activation (scale_x_y : R) (t : tv) : tv :=
  op1 (fun e =>
         match e with
         | Fin r => Fin (logit ((r + 0.5 * (scale_x_y - 1)) / scale_x_y))
         | _ => NaN
         end) t.

Definition raw_of_targets (scale_x_y : R) (t : vec2 * vec2) : box :=
  ((inverse_activation scale_x_y (fst (fst t)),
    inverse_activation scale_x_y (snd (fst t))),
   snd t).

(** ** Python results *)

Inductive exn : Type :=
| NameError (name : string)
| TypeError (msg : string)
| ValueError (msg : string)
| KeyError (key : string)
| InvalidArgumentError (msg : string).

Inductive result (A : Type) : Type :=
| Return (a : A)
| Raise (e : exn).

Arguments Return {A} a.
Arguments Raise {A} e.

Definition bind {A B : Type} (c : result A) (k : A -> result B) : result B :=
  match c with
  | Return a => k a
  | Raise e => Raise e
  end.

Notation "x <- c ;; k" := (bind c (fun x => k))
  (at level 61, c at next level, right associativity).

(** ** Interfaces of the modules that are not among the sources *)

(** The values of a box, without the gradient flags. *)
Definition boxv : Type := ((xfloat * xfloat) * (xfloat * xfloat))%type.

(** [yolo/ops/box_ops.py].  The IoU functions take two boxes; the
    generalised ones return the pair of the IoU and the loss variant. *)
Class BoxOps : Type := {
  yxyx_to_xcycwh : boxv -> boxv;
  compute_iou : boxv -> boxv -> xfloat;
  compute_giou : boxv -> boxv -> xfloat * xfloat;
  compute_ciou : boxv -> boxv -> xfloat * xfloat
}.

(** [tensorflow.keras.losses.binary_crossentropy] on a last axis of
    length one: [from_logits], [label_smoothing], target, output. *)
Class KerasLosses : Type := {
  binary_crossentropy : bool -> R -> xfloat -> xfloat -> xfloat
}.

(** [yolo/ops/loss_utils.py]: the grid generator, its constructor
    ([masks], [anchors], [scale_anchors]) and its call ([width], [height],
    [batch_size]), which returns [grid_points], indexed by the cell, and
    [anchor_grid], indexed by the anchor. *)
Class LossUtils : Type := {
  GridGenerator_t : Type;
  GridGenerator : list nat -> list (R * R) -> R -> result GridGenerator_t;
  GridGenerator_call :
    GridGenerator_t -> nat -> nat -> nat ->
    (nat -> nat -> vec2) * (nat -> vec2)
}.

(** ** Tensor helpers *)

Definition live_box (b : box) : bool :=
  live (fst (fst b)) || live (snd (fst b)) ||
  live (fst (snd b)) || live (snd (snd b)).

Definition stop_gradient2 (v : vec2) : vec2 :=
  (stop_gradient (fst v), stop_gradient (snd v)).

Definition stop_gradient_box (b : box) : box :=
  (stop_gradient2 (fst b), stop_gradient2 (snd b)).

(** The box entries of given values, all with the same gradient flag. *)
Definition Tv_box (v : boxv) (l : bool) : box :=
  ((Tv (fst (fst v)) l, Tv (snd (fst v)) l),
   (Tv (fst (snd v)) l, Tv (snd (snd v)) l)).

(** A function of two boxes applied to tensor entries. *)
Definition box_op (f : boxv -> boxv -> xfloat) (b1 b2 : box) : tv :=
  Tv (f (vals_box b1) (vals_box b2)) (live_box b1 || live_box b2).

Definition box_op2 (f : boxv -> boxv -> xfloat * xfloat) (b1 b2 : box)
  : tv * tv :=
  (Tv (fst (f (vals_box b1) (vals_box b2))) (live_box b1 || live_box b2),
   Tv (snd (f (vals_box b1) (vals_box b2))) (live_box b1 || live_box b2)).

(** [tf.cast] of a boolean entry to a float entry. *)
Definition cast_bool (b : bool) : tv := constant (if b then 1 else 0).

Definition treduce_sum (l : list tv) : tv :=
  Tv (reduce_sum (map val l)) (existsb live l).

Definition treduce_mean (l : list tv) : tv :=
  Tv (reduce_mean (map val l)) (existsb live l).

Definition tmul_no_nan : tv -> tv -> tv := op2 math_ops.mul_no_nan.
Definition tdivide_no_nan : tv -> tv -> tv := op2 math_ops.divide_no_nan.

(** The indices of the axes 1, 2 and 3 of a tensor of shape
    [[batch, width, height, num]]. *)
Definition cells (width height num : nat) : list (nat * nat * nat) :=
  flat_map (fun i =>
    flat_map (fun j => map (fun a => (i, j, a)) (seq 0 num))
             (seq 0 height))
    (seq 0 width).

(** [tf.reduce_sum t axis=(1, 2, 3)] for one sample. *)
Definition reduce_sum_123 (width height num : nat)
    (t : nat -> nat -> nat -> tv) : tv :=
  treduce_sum (map (fun '(i, j, a) => t i j a) (cells width height num)).

(** [tf.argmax] along the last axis: the first index of a largest
    entry.  This is the tensor op on a row of at least one entry without
    NaN.  The op raises on an empty axis, where this function gives 0, and
    its index on a row with NaN is not modelled: the theorems in which the
    index matters exclude both. *)
Fixpoint argmax_from (l : list xfloat) (i best : nat) (bv : xfloat) : nat :=
  match l with
  | [] => best
  | v :: t =>
      if xlt bv v then argmax_from t (S i) i v
      else argmax_from t (S i) best bv
  end.

Definition argmax (l : list xfloat) : nat :=
  match l with
  | [] => O
  | v :: t => argmax_from t 1%nat O v
  end.

(** [tf.cast x tf.int32] truncates towards zero. *)
Definition cast_int32 (x : xfloat) : Z :=
  match x with
  | Fin r => if Rle_dec 0 r then Int_part r else (- Int_part (- r))%Z
  | _ => 0%Z
  end.

(** [tf.one_hot c depth]. *)
Definition one_hot (c : Z) (depth : nat) : list tv :=
  map (fun k => constant (if Z.eqb c (Z.of_nat k) then 1 else 0))
      (seq 0 depth).

(** [tf.math.count_nonzero]. *)
Definition count_nonzero (l : list xfloat) : nat :=
  List.length (filter (fun v => negb (xeq v (Fin 0))) l).

(** ** The loss object *)

Section YoloLoss.

Context {box_ops : BoxOps} {keras : KerasLosses} {loss_utils : LossUtils}.

Record Yolo_Loss : Type := {
  _classes : nat;
  _num : nat;
  _num_extras : nat;
  _truth_thresh : R;
  _ignore_thresh : R;
  _iou_thresh : R;
  _masks : list nat;
  _use_tie_breaker : bool;
  _loss_type : nat;
  _iou_normalizer : R;
  _cls_normalizer : R;
  _obj_normalizer : R;
  _scale_x_y : R;
  _max_delta : xfloat;
  _label_smoothing : R;
  _use_reduction_sum : bool;
  _beta_nms : R;
  _nms_kind : string;
  _new_cords : bool;
  _decode_boxes : tv -> tv -> box -> vec2 -> vec2 -> vec2 * vec2 * box;
  _anchor_generator : GridGenerator_t;
  _path_key : option string
}.

(** [Yolo_Loss.__init__].  The arguments [reduction], [name] and
    [**kwargs] are never read and are left out. *)
Definition __init__ (classes : nat) (mask : list nat)
    (anchors : list (R * R)) (scale_anchors : R) (num_extras : nat)
    (ignore_thresh truth_thresh : R) (loss_type : string)
    (iou_normalizer cls_normalizer obj_normalizer : R)
    (use_reduction_sum : bool) (iou_thresh : R) (new_cords : bool)
    (scale_x_y : R) (max_delta : xfloat) (nms_kind : string)
    (beta_nms : R) (path_key : option string) (use_tie_breaker : bool)
  : result Yolo_Loss :=
  let loss_type_ :=
    if String.eqb loss_type "giou" then 1%nat
    else if String.eqb loss_type "ciou" then 2%nat
    else 0%nat in
  let decode_boxes :=
    if negb new_cords then
      fun w h u a g => get_predicted_box w h u a g
                         scale_x_y iou_normalizer max_delta
    else
      fun w h u a g => get_predicted_box_newcords w h u a g
                         scale_x_y iou_normalizer max_delta in
  anchor_generator <- GridGenerator mask anchors scale_anchors ;;
  Return {|
    _classes := classes;
    _num := List.length mask;
    _num_extras := num_extras;
    _truth_thresh := truth_thresh;
    _ignore_thresh := ignore_thresh;
    _iou_thresh := iou_thresh;
    _masks := mask;
    _use_tie_breaker := use_tie_breaker;
    _loss_type := loss_type_;
    _iou_normalizer := iou_normalizer;
    _cls_normalizer := cls_normalizer;
    _obj_normalizer := obj_normalizer;
    _scale_x_y := scale_x_y;
    _max_delta := max_delta;
    _label_smoothing := 0;
    _use_reduction_sum := use_reduction_sum;
    _beta_nms := beta_nms;
    _nms_kind := nms_kind;
    _new_cords := new_cords;
    _decode_boxes := decode_boxes;
    _anchor_generator := anchor_generator;
    _path_key := path_key
  |}.

(** The ground-truth tensor [y_true] of shape
    [[batch, width, height, num, 7]]: per anchor the box, the objectness
    indicator, the class id and the best-anchor flag. *)
Definition true_entry : Type := (box * tv * tv * tv)%type.

Record y_true_tensor : Type := {
  y_shape : nat * nat * nat * nat;
  y_at : nat -> nat -> nat -> nat -> true_entry
}.

(** The prediction tensor [y_pred] after the reshape and the split: per
    anchor the raw box, the objectness logit and the class logits. *)
Definition pred_entry : Type := (box * tv * list tv)%type.
Definition y_pred_tensor : Type := nat -> nat -> nat -> nat -> pred_entry.

Definition stop_gradient_entry (e : true_entry) : true_entry :=
  let '(b, conf, cls, best) := e in
  (stop_gradient_box b, stop_gradient conf, stop_gradient cls,
   stop_gradient best).

(** [Yolo_Loss._get_label_attributes]. *)
Definition _get_label_attributes (self : Yolo_Loss)
    (width height batch_size : nat) (y_true : y_true_tensor)
  : (nat -> nat -> vec2) * (nat -> vec2) * y_true_tensor :=
  let '(grid_points, anchor_grid) :=
    GridGenerator_call (_anchor_generator self) width height batch_size in
  (fun i j => stop_gradient2 (grid_points i j),
   fun a => stop_gradient2 (anchor_grid a),
   {| y_shape := y_shape y_true;
      y_at := fun b i j a => stop_gradient_entry (y_at y_true b i j a) |}).

(** [Yolo_Loss.recall]; [tf.math.divide_no_nan] is the safe division. *)
Definition recall (shape : nat * nat * nat * nat)
    (pred_conf true_conf : nat -> nat -> nat -> nat -> tv) (pct : R) : tv :=
  let '(batch_size, width, height, num) := shape in
  let recall :=
    treduce_mean
      (map (fun b =>
              tdivide_no_nan
                (reduce_sum_123 width height num (fun i j a =>
                   tmul_no_nan (true_conf b i j a)
                     (cast_bool
                        (xgt (val (tsigmoid (pred_conf b i j a)))
                             (Fin pct)))))
                (reduce_sum_123 width height num (true_conf b)))
           (seq 0 batch_size)) in
  stop_gradient recall.

(** All entries of a tensor of shape [[batch, width, height, num]]. *)
Definition entries (shape : nat * nat * nat * nat)
    (t : nat -> nat -> nat -> nat -> tv) : list tv :=
  let '(batch_size, width, height, num) := shape in
  flat_map (fun b => map (fun '(i, j, a) => t b i j a)
                         (cells width height num))
           (seq 0 batch_size).

(** [Yolo_Loss.avgiou]. *)
Definition avgiou (shape : nat * nat * nat * nat)
    (iou true_conf : nat -> nat -> nat -> nat -> tv) : tv :=
  let avg_iou :=
    tdivide_no_nan
      (treduce_sum (entries shape iou))
      (constant (INR (count_nonzero (map val (entries shape true_conf))))) in
  stop_gradient avg_iou.

(** [Yolo_Loss.get_mask]; [iou] is one entry, [classes] and
    [true_classes] are its class scores and its one-hot label. *)
Definition get_mask (self : Yolo_Loss) (iou : tv)
    (classes true_classes : list tv) : tv * bool * bool :=
  let box_match := xgt (val iou) (Fin (_ignore_thresh self)) in
  let truth_alter := xgt (val iou) (Fin (_truth_thresh self)) in
  let class_match :=
    Nat.eqb (argmax (map val (map tsigmoid classes)))
            (argmax (map val true_classes)) in
  let matched_boxes := box_match && class_match in
  let unmatched_boxes := negb matched_boxes in
  let mask := cast_bool (unmatched_boxes || truth_alter) in
  let mask := op1 (fun e => math_ops.rm_nan_inf e (Fin 0)) mask in
  (stop_gradient mask, matched_boxes, truth_alter).

(** [Yolo_Loss.build_masks].  [boxes] and [classes] are the instances of
    each sample; the result is the ignore mask, indexed like the
    predictions, and the truth mask, indexed by the prediction and the
    instance. *)
Definition build_masks (self : Yolo_Loss)
    (pred_boxes : nat -> nat -> nat -> nat -> box)
    (pred_classes : nat -> nat -> nat -> nat -> list tv)
    (boxes : nat -> list box) (classes : nat -> list tv)
    (width height : nat)
  : (nat -> nat -> nat -> nat -> tv) *
    (nat -> nat -> nat -> nat -> list tv) :=
  let boxes := fun b =>
    map (fun bx => Tv_box (yxyx_to_xcycwh (vals_box bx)) (live_box bx))
        (boxes b) in
  let pred_classes_max := fun b i j a =>
    Fin (INR (argmax (map val (pred_classes b i j a)))) in
  let matched_classes := fun b i j a =>
    map (fun c => xeq (val c) (pred_classes_max b i j a)) (classes b) in
  let iou := fun b i j a =>
    map (fun bx => box_op compute_iou bx (pred_boxes b i j a)) (boxes b) in
  let iou_mask := fun b i j a =>
    map (fun u => xgt (val u) (Fin (_ignore_thresh self))) (iou b i j a) in
  let iou_mask := fun b i j a =>
    map (fun '(m, c) => m && c)
        (combine (iou_mask b i j a) (matched_classes b i j a)) in
  let iou_mask := fun b i j a => existsb (fun m => m) (iou_mask b i j a) in
  let true_mask := fun b i j a =>
    map (fun u => cast_bool (xgt (val u) (Fin (_truth_thresh self))))
        (iou b i j a) in
  let ignore_mask := fun b i j a => cast_bool (negb (iou_mask b i j a)) in
  (fun b i j a => stop_gradient (ignore_mask b i j a),
   fun b i j a => map stop_gradient (true_mask b i j a)).

(** The cell-wise tensors of [Yolo_Loss.__call__], steps 1 to 6: the
    decoded box, the class scores, the trapped objectness logit, the objectness indicator, the IoU, and the
    box, class and ignore-mask terms.  The diagnostic [print_error] calls
    only print and are left out. *)
Record cell_terms : Type := {
  c_pred_box : nat -> nat -> nat -> nat -> box;
  c_pred_class : nat -> nat -> nat -> nat -> list tv;
  c_pred_conf : nat -> nat -> nat -> nat -> tv;
  c_true_conf : nat -> nat -> nat -> nat -> tv;
  c_iou : nat -> nat -> nat -> nat -> tv;
  c_liou : nat -> nat -> nat -> nat -> tv;
  c_loss_box : nat -> nat -> nat -> nat -> tv;
  c_class_loss : nat -> nat -> nat -> nat -> tv;
  c_mask_loss : nat -> nat -> nat -> nat -> tv
}.

Definition call_cells (self : Yolo_Loss) (y_true : y_true_tensor)
    (y_pred : y_pred_tensor) (boxes : nat -> list box)
    (classes : nat -> list tv) : cell_terms :=
  (* 1. generate and store constants and format output *)
  let shape := y_shape y_true in
  let '(batch_size, width, height, num) := shape in
  let '(grid_points, anchor_grid, y_true) :=
    _get_label_attributes self width height batch_size y_true in
  let fwidth := constant (INR width) in
  let fheight := constant (INR height) in
  let pred_box := fun b i j a => fst (fst (y_pred b i j a)) in
  let pred_conf := fun b i j a => snd (fst (y_pred b i j a)) in
  let pred_class := fun b i j a => snd (y_pred b i j a) in
  let pred_class := fun b i j a =>
    fst (class_gradient_trap (map tsigmoid (pred_class b i j a))
                             (_cls_normalizer self)) in
  let pred_conf := fun b i j a =>
    fst (obj_gradient_trap (pred_conf b i j a) (_obj_normalizer self)) in
  let decoded := fun b i j a =>
    _decode_boxes self fwidth fheight (pred_box b i j a)
                  (anchor_grid a) (grid_points i j) in
  let pred_xy := fun b i j a => fst (fst (decoded b i j a)) in
  let pred_wh := fun b i j a => snd (fst (decoded b i j a)) in
  let pred_box := fun b i j a => snd (decoded b i j a) in
  (* 3. split up ground_truth into components *)
  let true_box := fun b i j a => fst (fst (fst (y_at y_true b i j a))) in
  let true_conf := fun b i j a => snd (fst (fst (y_at y_true b i j a))) in
  let true_class := fun b i j a => snd (fst (y_at y_true b i j a)) in
  let best_iou_match := fun b i j a => snd (y_at y_true b i j a) in
  let true_class := fun b i j a =>
    one_hot (cast_int32 (val (true_class b i j a)))
            (List.length (pred_class b i j a)) in
  let '(mask_loss, true_mask) :=
    build_masks self pred_box pred_class boxes classes width height in
  (* 5. apply generalized IOU or mse to the box predictions *)
  let '(iou, liou, loss_box) :=
    if Nat.eqb (_loss_type self) 1 then
      let r := fun b i j a =>
        box_op2 compute_giou (true_box b i j a) (pred_box b i j a) in
      (fun b i j a => fst (r b i j a),
       fun b i j a => snd (r b i j a),
       fun b i j a =>
         tmul_no_nan (true_conf b i j a)
                     (constant 1 - snd (r b i j a))%tv)
    else if Nat.eqb (_loss_type self) 2 then
      let r := fun b i j a =>
        box_op2 compute_ciou (true_box b i j a) (pred_box b i j a) in
      (fun b i j a => fst (r b i j a),
       fun b i j a => snd (r b i j a),
       fun b i j a =>
         tmul_no_nan (true_conf b i j a)
                     (constant 1 - snd (r b i j a))%tv)
    else
      let iou := fun b i j a =>
        box_op compute_iou (true_box b i j a) (pred_box b i j a) in
      let liou := iou in
      let scale := fun b i j a =>
        ((constant 2 - fst (snd (true_box b i j a))
                       * snd (snd (true_box b i j a)))
         * constant (_iou_normalizer self))%tv in
      let encoded := fun b i j a =>
        _scale_ground_truth_box (true_box b i j a) fwidth fheight
                                (anchor_grid a) (grid_points i j) in
      let true_xy := fun b i j a => fst (encoded b i j a) in
      let true_wh := fun b i j a => snd (encoded b i j a) in
      let loss_xy := fun b i j a =>
        treduce_sum
          [tsquare (fst (true_xy b i j a) - fst (pred_xy b i j a))%tv;
           tsquare (snd (true_xy b i j a) - snd (pred_xy b i j a))%tv] in
      let loss_wh := fun b i j a =>
        treduce_sum
          [tsquare (fst (true_wh b i j a) - fst (pred_wh b i j a))%tv;
           tsquare (snd (true_wh b i j a) - snd (pred_wh b i j a))%tv] in
      (iou, liou,
       fun b i j a =>
         tmul_no_nan (true_conf b i j a)
                     ((loss_wh b i j a + loss_xy b i j a)
                      * scale b i j a)%tv) in
  (* 6. apply binary cross entropy to class attributes *)
  let class_loss := fun b i j a =>
    treduce_sum
      (map (fun '(t, p) =>
              op2 (binary_crossentropy false (_label_smoothing self)) t p)
           (combine (true_class b i j a) (pred_class b i j a))) in
  let class_loss := fun b i j a =>
    tmul_no_nan (true_conf b i j a) (class_loss b i j a) in
  {| c_pred_box := pred_box;
     c_pred_class := pred_class;
     c_pred_conf := pred_conf;
     c_true_conf := true_conf;
     c_iou := iou;
     c_liou := liou;
     c_loss_box := loss_box;
     c_class_loss := class_loss;
     c_mask_loss := mask_loss |}.

(** Step 7 on the legacy path: the objectness mask and the masked
    binary cross-entropy of the objectness logit, per cell. *)
Definition legacy_conf_loss (c : cell_terms)
  : nat -> nat -> nat -> nat -> tv :=
  let obj_mask := fun b i j a =>
    stop_gradient
      (c_true_conf c b i j a
       + (constant 1 - c_true_conf c b i j a) * c_mask_loss c b i j a)%tv in
  let bce := fun b i j a =>
    op2 (binary_crossentropy true 0)
        (c_true_conf c b i j a) (c_pred_conf c b i j a) in
  fun b i j a => tmul_no_nan (obj_mask b i j a) (bce b i j a).

(** [Yolo_Loss.__call__].  On the new-coordinates path the names
    [matched_mask] and [truth_alter] are read, but the call of [get_mask]
    that would bind them is commented out and no other binding exists. *)
Definition __call__ (self : Yolo_Loss) (y_true : y_true_tensor)
    (y_pred : y_pred_tensor) (boxes : nat -> list box)
    (classes : nat -> list tv)
  : result (tv * tv * tv * tv * tv * tv * tv) :=
  let shape := y_shape y_true in
  let '(batch_size, width, height, num) := shape in
  let c := call_cells self y_true y_pred boxes classes in
  let true_conf := c_true_conf c in
  let pred_conf := c_pred_conf c in
  (* 7. apply bce to confidence at all points *)
  if _new_cords self then
    let obj_mask := fun b i j a =>
      stop_gradient
        (true_conf b i j a + (constant 1 - true_conf b i j a))%tv in
    Raise (NameError "matched_mask")
  else
    let conf_loss := legacy_conf_loss c in
    (* 8. take the sum of all the dimensions *)
    let loss_box := fun b => reduce_sum_123 width height num (c_loss_box c b) in
    let conf_loss := fun b => reduce_sum_123 width height num (conf_loss b) in
    let class_loss := fun b =>
      reduce_sum_123 width height num (c_class_loss c b) in
    (* 9. add the losses of the batch *)
    let total := map (fun b => (class_loss b + conf_loss b + loss_box b)%tv)
                     (seq 0 batch_size) in
    let loss :=
      if _use_reduction_sum self then treduce_sum total
      else treduce_mean total in
    let loss_box := treduce_mean (map loss_box (seq 0 batch_size)) in
    let conf_loss := treduce_mean (map conf_loss (seq 0 batch_size)) in
    let class_loss := treduce_mean (map class_loss (seq 0 batch_size)) in
    (* 10. store values for use in metrics *)
    let recall50 := recall shape pred_conf true_conf 0.5 in
    let avg_iou :=
      avgiou shape (fun b i j a => (c_iou c b i j a * true_conf b i j a)%tv)
             true_conf in
    let avg_obj :=
      avgiou shape
        (fun b i j a => (tsigmoid (pred_conf b i j a) * true_conf b i j a)%tv)
        true_conf in
    Return (loss, loss_box, conf_loss, class_loss, avg_iou, avg_obj,
            recall50).

(** The objectness indicator of a ground-truth entry. *)
Definition true_conf_of (e : true_entry) : tv := snd (fst (fst e)).

(** The instance [n] of sample [b] excuses the prediction [(b, i, j, a)]:
    its IoU with the decoded box is above [ignore_thresh] and its class is
    the predicted class. *)
Definition excuses (self : Yolo_Loss) (c : cell_terms)
    (boxes : nat -> list box) (classes : nat -> list tv)
    (b i j a n : nat) : Prop :=
  exists bx cl,
    nth_error (boxes b) n = Some bx /\
    nth_error (classes b) n = Some cl /\
    xgt (compute_iou (yxyx_to_xcycwh (vals_box bx))
                     (vals_box (c_pred_box c b i j a)))
        (Fin (_ignore_thresh self)) = true /\
    xeq (val cl) (Fin (INR (argmax (map val (c_pred_class c b i j a)))))
      = true.

(** The object was built on the legacy path of [__init__]: its decoder
    is [get_predicted_box] with the stored hyperparameters. *)
Definition legacy_decoder (self : Yolo_Loss) : Prop :=
  forall w h u a g,
    _decode_boxes self w h u a g =
    get_predicted_box w h u a g (_scale_x_y self) (_iou_normalizer self)
                      (_max_delta self).

(** A prediction entry that carries gradient: its raw box, its objectness
    logit and its first class logit are attached to the network output. *)
Definition pred_attached (e : pred_entry) : Prop :=
  live_box (fst (fst e)) = true /\
  live (snd (fst e)) = true /\
  exists p rest, snd e = p :: rest /\ live p = true.

End YoloLoss.

(** ** The training task's consumer of the loss *)

(** The positional arguments that reach a per-level loss: the label
    dictionary of the task, given by its keys, or one of the tensors of
    [Yolo_Loss.__call__]. *)
Inductive pyobj : Type :=
| PyLabels (keys : list string)
| PyTrue (y_true : y_true_tensor)
| PyPred (y_pred : y_pred_tensor)
| PyBoxes (boxes : nat -> list box)
| PyClasses (classes : nat -> list tv).

(** A Python callable that returns a tuple, given as the list of its
    items. *)
Definition callable : Type := list pyobj -> result (list tv).

Definition tuple_items (r : tv * tv * tv * tv * tv * tv * tv) : list tv :=
  let '(loss, loss_box, conf_loss, class_loss, avg_iou, avg_obj,
        recall50) := r in
  [loss; loss_box; conf_loss; class_loss; avg_iou; avg_obj; recall50].

(** A [Yolo_Loss] object called with positional arguments:
    [__call__(self, y_true, y_pred, boxes, classes)]. *)
Definition Yolo_Loss_callable {box_ops : BoxOps} {keras : KerasLosses}
    {loss_utils : LossUtils} (self : Yolo_Loss) : callable :=
  fun args =>
    match args with
    | [PyTrue y_true; PyPred y_pred; PyBoxes boxes; PyClasses classes] =>
        r <- __call__ self y_true y_pred boxes classes ;;
        Return (tuple_items r)
    | _ => Raise (TypeError "__call__() positional arguments")
    end.

(** A metrics dictionary, most recent key first. *)
Definition dict_set (d : list (string * tv)) (k : string) (v : tv)
  : list (string * tv) :=
  (k, v) :: filter (fun e => negb (String.eqb (fst e) k)) d.

Record losses_state : Type := {
  st_loss : tv;
  st_loss_box : tv;
  st_loss_conf : tv;
  st_loss_class : tv;
  st_metric_dict : list (string * tv)
}.

(** The loop of [YoloTask.build_losses] over [outputs.keys()]. *)
Fixpoint build_losses_loop (_loss_dict : string -> option callable)
    (labels : pyobj) (outputs : list (string * pyobj)) (st : losses_state)
  : result losses_state :=
  match outputs with
  | [] => Return st
  | (key, output) :: rest =>
      f <- match _loss_dict key with
           | Some f => Return f
           | None => Raise (KeyError key)
           end ;;
      r <- f [labels; output] ;;
      match r with
      | [_loss; _loss_box; _loss_conf; _loss_class; _avg_iou; _recall50] =>
          build_losses_loop _loss_dict labels rest
            {| st_loss := (st_loss st + _loss)%tv;
               st_loss_box := (st_loss_box st + _loss_box)%tv;
               st_loss_conf := (st_loss_conf st + _loss_conf)%tv;
               st_loss_class := (st_loss_class st + _loss_class)%tv;
               st_metric_dict :=
                 dict_set
                   (dict_set (st_metric_dict st)
                             ("recall50_" ++ key) (stop_gradient _recall50))
                   ("avg_iou_" ++ key) (stop_gradient _avg_iou) |}
      | _ => Raise (ValueError "values to unpack (expected 6)")
      end
  end.

(** [YoloTask.build_losses]. *)
Definition build_losses (_loss_dict : string -> option callable)
    (outputs : list (string * pyobj)) (labels : pyobj)
  : result (tv * list (string * tv)) :=
  st <- build_losses_loop _loss_dict labels outputs
          {| st_loss := constant 0;
             st_loss_box := constant 0;
             st_loss_conf := constant 0;
             st_loss_class := constant 0;
             st_metric_dict := [] |} ;;
  let metric_dict := dict_set (st_metric_dict st) "box_loss" (st_loss_box st) in
  let metric_dict := dict_set metric_dict "conf_loss" (st_loss_conf st) in
  let metric_dict := dict_set metric_dict "class_loss" (st_loss_class st) in
  Return (st_loss st, metric_dict).

(** ** Reference instances of the interfaces *)

Definition xatan (a : xfloat) : xfloat :=
  match a with
  | Fin x => Fin (atan x)
  | PInf => Fin (PI / 2)
  | NInf => Fin (- (PI / 2))
  | NaN => NaN
  end.

Module box_ops_model.

(** Modelled from the spec: [yolo/ops/box_ops.py] is not among the
    sources.  A corner box (ymin, xmin, ymax, xmax) as centre, width and
    height. *)
Definition yxyx_to_xcycwh (b : boxv) : boxv :=
  let '((ymin, xmin), (ymax, xmax)) := b in
  ((xdiv (xadd xmin xmax) (Fin 2), xdiv (xadd ymin ymax) (Fin 2)),
   (xsub xmax xmin, xsub ymax ymin)).

(** The low and the high edge of an extent of centre [c] and size [s]. *)
Definition low (c s : xfloat) : xfloat := xsub c (xdiv s (Fin 2)).
Definition high (c s : xfloat) : xfloat := xadd c (xdiv s (Fin 2)).

Definition intersection (b1 b2 : boxv) : xfloat :=
  let '((x1, y1), (w1, h1)) := b1 in
  let '((x2, y2), (w2, h2)) := b2 in
  let iw := relu (xsub (xmin (high x1 w1) (high x2 w2))
                       (xmax (low x1 w1) (low x2 w2))) in
  let ih := relu (xsub (xmin (high y1 h1) (high y2 h2))
                       (xmax (low y1 h1) (low y2 h2))) in
  xmul iw ih.

Definition union (b1 b2 : boxv) : xfloat :=
  xsub (xadd (xmul (fst (snd b1)) (snd (snd b1)))
             (xmul (fst (snd b2)) (snd (snd b2))))
       (intersection b1 b2).

(** Modelled from the spec: "IoU: ratio of overlapping area to union area
    between two boxes", with the safe division. *)
Definition compute_iou (b1 b2 : boxv) : xfloat :=
  math_ops.divide_no_nan (intersection b1 b2) (union b1 b2).

(** The width, the height and the area of the smallest enclosing box. *)
Definition hull_w (b1 b2 : boxv) : xfloat :=
  xsub (xmax (high (fst (fst b1)) (fst (snd b1)))
             (high (fst (fst b2)) (fst (snd b2))))
       (xmin (low (fst (fst b1)) (fst (snd b1)))
             (low (fst (fst b2)) (fst (snd b2)))).

Definition hull_h (b1 b2 : boxv) : xfloat :=
  xsub (xmax (high (snd (fst b1)) (snd (snd b1)))
             (high (snd (fst b2)) (snd (snd b2))))
       (xmin (low (snd (fst b1)) (snd (snd b1)))
             (low (snd (fst b2)) (snd (snd b2)))).

(** Modelled from the spec: GIoU, the IoU less the share of the enclosing
    box that the union leaves empty. *)
Definition compute_giou (b1 b2 : boxv) : xfloat * xfloat :=
  let iou := compute_iou b1 b2 in
  let hull := xmul (hull_w b1 b2) (hull_h b1 b2) in
  (iou, xsub iou (math_ops.divide_no_nan (xsub hull (union b1 b2)) hull)).

(** Modelled from the spec: CIoU, the IoU less the penalties for the
    centre distance relative to the enclosing diagonal and for the
    difference of the aspect ratios. *)
Definition compute_ciou (b1 b2 : boxv) : xfloat * xfloat :=
  let iou := compute_iou b1 b2 in
  let dist := xadd (xsquare (xsub (fst (fst b1)) (fst (fst b2))))
                   (xsquare (xsub (snd (fst b1)) (snd (fst b2)))) in
  let diag := xadd (xsquare (hull_w b1 b2)) (xsquare (hull_h b1 b2)) in
  let v := xmul (Fin (4 / (PI * PI)))
             (xsquare
                (xsub (xatan (math_ops.divide_no_nan (fst (snd b1))
                                                     (snd (snd b1))))
                      (xatan (math_ops.divide_no_nan (fst (snd b2))
                                                     (snd (snd b2)))))) in
  let alpha := math_ops.divide_no_nan v (xadd (xsub (Fin 1) iou) v) in
  (iou, xsub (xsub iou (math_ops.divide_no_nan dist diag)) (xmul alpha v)).

(** Modelled from the spec: DIoU on corner boxes, the IoU less the
    squared centre distance relative to the squared enclosing diagonal. *)
Definition compute_diou_yxyx (b1 b2 : boxv) : xfloat * xfloat :=
  let b1 := yxyx_to_xcycwh b1 in
  let b2 := yxyx_to_xcycwh b2 in
  let iou := compute_iou b1 b2 in
  let dist := xadd (xsquare (xsub (fst (fst b1)) (fst (fst b2))))
                   (xsquare (xsub (snd (fst b1)) (snd (fst b2)))) in
  let diag := xadd (xsquare (hull_w b1 b2)) (xsquare (hull_h b1 b2)) in
  (iou, xsub iou (math_ops.divide_no_nan dist diag)).

End box_ops_model.

Definition model_box_ops : BoxOps := {|
  yxyx_to_xcycwh := box_ops_model.yxyx_to_xcycwh;
  compute_iou := box_ops_model.compute_iou;
  compute_giou := box_ops_model.compute_giou;
  compute_ciou := box_ops_model.compute_ciou
|}.

(** The Keras loss on a last axis of length one, by its documented
    formula: label smoothing, then the logits form
    [max(x, 0) - x * z + log(1 + exp(-|x|))] or the clipped probability
    form. *)
Definition keras_binary_crossentropy (from_logits : bool)
    (label_smoothing : R) (target output : xfloat) : xfloat :=
  let target := xadd (xmul target (Fin (1 - label_smoothing)))
                     (Fin (0.5 * label_smoothing)) in
  if from_logits then
    xadd (xsub (relu output) (xmul output target))
         (xlog (xadd (Fin 1) (xexp (xopp (xabs output)))))
  else
    let epsilon := 1e-7 in
    let output := clip_by_value output (Fin epsilon) (Fin (1 - epsilon)) in
    xopp (xadd (xmul target (xlog (xadd output (Fin epsilon))))
               (xmul (xsub (Fin 1) target)
                     (xlog (xadd (xsub (Fin 1) output) (Fin epsilon))))).

Definition model_keras : KerasLosses := {|
  binary_crossentropy := keras_binary_crossentropy
|}.

(** Modelled from the spec: [yolo/ops/loss_utils.py] is not among the
    sources.  The generator keeps its arguments; its call gives the
    normalized cell-centre coordinates of each cell and, for each anchor of
    the level, the prior that the mask assigns to it.  The spec names no
    failure of the constructor. *)
Definition model_loss_utils : LossUtils := {|
  GridGenerator_t := (list nat * list (R * R) * R)%type;
  GridGenerator := fun masks anchors scale_anchors =>
    Return (masks, anchors, scale_anchors);
  GridGenerator_call := fun g width height batch_size =>
    let '(masks, anchors, scale_anchors) := g in
    (fun i j => (constant ((INR i + 0.5) / INR width),
                 constant ((INR j + 0.5) / INR height)),
     fun a => let prior := nth (nth a masks O) anchors (0, 0) in
              (constant (fst prior), constant (snd prior)))
|}.

(** ** Non-max suppression, [yolo/ops/nms_ops.py]

    One image of the batch at a time: every operation of the module acts
    on the images independently.  [boxes] has one row of four coordinates
    per candidate, [classes] one row of class scores, [confidence] one
    entry. *)

Definition Rceil (r : R) : R := - IZR (Int_part (- r)).

Definition xceil (a : xfloat) : xfloat :=
  match a with
  | Fin r => Fin (Rceil r)
  | _ => a
  end.

Definition reduce_max (l : list xfloat) : xfloat := fold_right xmax NInf l.

Definition scale_box (b : boxv) (m : xfloat) : boxv :=
  ((xmul (fst (fst b)) m, xmul (snd (fst b)) m),
   (xmul (fst (snd b)) m, xmul (snd (snd b)) m)).

Definition is_finite (x : xfloat) : bool :=
  match x with Fin _ => true | _ => false end.

Definition finite_box (b : boxv) : bool :=
  is_finite (fst (fst b)) && is_finite (snd (fst b)) &&
  is_finite (fst (snd b)) && is_finite (snd (snd b)).

Definition zero_box : boxv := ((Fin 0, Fin 0), (Fin 0, Fin 0)).

Definition map2 {A B C : Type} (f : A -> B -> C) (l1 : list A) (l2 : list B)
  : list C :=
  map (fun '(a, b) => f a b) (combine l1 l2).

(** [tf.math.top_k]: the [k] largest entries in descending order with
    their indices, the lower index first among equal entries; an error
    when the input has fewer than [k] entries.  The ranking is an insertion
    by [xlt], which is the order of the op on entries without NaN; where
    the op puts a NaN is not modelled, and the theorems on the order of a
    ranking exclude NaN. *)
Fixpoint insert_desc (x : xfloat * nat) (l : list (xfloat * nat))
  : list (xfloat * nat) :=
  match l with
  | [] => [x]
  | y :: t =>
      if xlt (fst x) (fst y) then y :: insert_desc x t else x :: y :: t
  end.

(** The order of a ranking: an entry is not strictly below its
    successor. *)
Definition not_below (a b : xfloat * nat) : Prop :=
  xlt (fst a) (fst b) = false.

Definition sort_desc (l : list (xfloat * nat)) : list (xfloat * nat) :=
  fold_right insert_desc [] l.

Definition top_k (values : list xfloat) (k : nat)
  : result (list xfloat * list nat) :=
  if Nat.leb k (List.length values) then
    let ranked :=
      firstn k (sort_desc (combine values (seq 0 (List.length values)))) in
    Return (map fst ranked, map snd ranked)
  else Raise (InvalidArgumentError "input must have at least k columns").

(** [tf.gather_nd] of the rows of one image: an error for an index that
    names no row.  The rows are taken whole, whatever their width; the op
    also rejects rows without a column, which the theorems on [nms]
    exclude. *)
Fixpoint gather_nd {A : Type} (params : list A) (ind : list nat)
  : result (list A) :=
  match ind with
  | [] => Return []
  | i :: rest =>
      match nth_error params i with
      | Some a => t <- gather_nd params rest ;; Return (a :: t)
      | None => Raise (InvalidArgumentError "index out of bounds")
      end
  end.

(** A ranked entry with the rows that its index selects. *)
Definition ranked_row {A B : Type} (da : A) (db : B) (box : list A)
    (cls : list B) (p : xfloat * nat) : xfloat * (A * B) :=
  (fst p, (nth (snd p) box da, nth (snd p) cls db)).

Module nms_ops.

Section Nms.

(** [box_ops.compute_diou] on corner boxes ([yxyx=True]); the second
    component is the DIoU. *)
Variable compute_diou : boxv -> boxv -> xfloat * xfloat.

(** [sort_drop].  The reshapes keep the rows. *)
Definition sort_drop {A B : Type} (objectness : list xfloat) (box : list A)
    (classificationsi : list B) (k : nat)
  : result (list xfloat * list A * list B) :=
  r <- top_k objectness k ;;
  let '(objectness, ind) := r in
  box <- gather_nd box ind ;;
  classifications <- gather_nd classificationsi ind ;;
  Return (objectness, box, classifications).

(** The pairwise DIoU of [aggregated_comparitive_iou boxes iou_type=0]:
    entry [(i, j)] compares row [i] with row [j]. *)
Definition aggregated_comparitive_iou (boxes : list boxv)
  : list (list xfloat) :=
  map (fun bi => map (fun bj => snd (compute_diou bi bj)) boxes) boxes.

(** Column [j] of the masked comparison of [segment_nms]: some row
    [i < j] has a DIoU of at least [iou_thresh] with row [j]. *)
Definition suppressed (boxes : list boxv) (iou_thresh : R) (j : nat) : bool :=
  existsb (fun '(i, row) =>
             Nat.ltb i j && xge (nth j row NaN) (Fin iou_thresh))
          (combine (seq 0 (List.length boxes))
                   (aggregated_comparitive_iou boxes)).

(** [segment_nms]. *)
Definition segment_nms (boxes : list boxv) (classes confidence : list xfloat)
    (k : nat) (iou_thresh : R)
  : list boxv * list xfloat * list xfloat :=
  let can_suppress_others :=
    map (fun j => Fin (1 - (if suppressed boxes iou_thresh j then 1 else 0)))
        (seq 0 k) in
  let raw := can_suppress_others in
  let boxes := map2 scale_box boxes raw in
  let confidence := map2 xmul confidence raw in
  let classes := map2 xmul classes raw in
  (boxes, classes, confidence).

(** The thresholding of [nms]: every candidate is scaled by
    [ceil(relu(confidence - pre_nms_thresh))]. *)
Definition pre_nms_mask (confidence : list xfloat) (pre_nms_thresh : R)
  : list xfloat :=
  map (fun c => xceil (relu (xsub c (Fin pre_nms_thresh)))) confidence.

(** The candidates of [nms] after the thresholding and, with
    [use_classes], the replacement of the confidence by the largest class
    score. *)
Definition thresholded (boxes : list boxv) (classes : list (list xfloat))
    (confidence : list xfloat) (pre_nms_thresh : R) (use_classes : bool)
  : list xfloat * list boxv * list (list xfloat) :=
  let mask := pre_nms_mask confidence pre_nms_thresh in
  let confidence := map2 xmul confidence mask in
  let boxes := map2 scale_box boxes mask in
  let classes := map2 (fun row m => map (fun s => xmul s m) row)
                      classes mask in
  let confidence :=
    if use_classes then map reduce_max classes else confidence in
  (confidence, boxes, classes).

(** [nms]. *)
Definition nms (boxes : list boxv) (classes : list (list xfloat))
    (confidence : list xfloat) (k : nat) (pre_nms_thresh nms_thresh : R)
    (limit_pre_thresh use_classes : bool)
  : result (list boxv * list xfloat * list xfloat) :=
  r <- (if limit_pre_thresh
        then sort_drop confidence boxes classes k
        else Return (confidence, boxes, classes)) ;;
  let '(confidence, boxes, classes) := r in
  let '(confidence, boxes, classes) :=
    thresholded boxes classes confidence pre_nms_thresh use_classes in
  r <- sort_drop confidence boxes classes k ;;
  let '(confidence, boxes, classes) := r in
  let classes := map (fun row => Fin (INR (argmax row))) classes in
  let '(boxes, classes, confidence) :=
    segment_nms boxes classes confidence k nms_thresh in
  r <- sort_drop confidence boxes classes k ;;
  let '(confidence, boxes, classes) := r in
  Return (boxes, classes, confidence).

(** The rows of an output: confidence, box and class label of each
    slot. *)
Definition rows (confidence : list xfloat) (boxes : list boxv)
    (classes : list xfloat) : list (xfloat * (boxv * xfloat)) :=
  combine confidence (combine boxes classes).

End Nms.

End nms_ops.

(** ** A one-cell example

    One sample, a 1 x 1 grid, one anchor of prior (1, 1) and one class,
    with the reference instances of the interfaces. *)

Definition example_self : @Yolo_Loss model_loss_utils := {|
  _classes := 1;
  _num := 1;
  _num_extras := 0;
  _truth_thresh := 1;
  _ignore_thresh := 0.7;
  _iou_thresh := 0.213;
  _masks := [O];
  _use_tie_breaker := true;
  _loss_type := 0;
  _iou_normalizer := 1;
  _cls_normalizer := 1;
  _obj_normalizer := 1;
  _scale_x_y := 1;
  _max_delta := Fin 10;
  _label_smoothing := 0;
  _use_reduction_sum := false;
  _beta_nms := 0.6;
  _nms_kind := "greedynms";
  _new_cords := false;
  _decode_boxes := fun w h u a g => get_predicted_box w h u a g 1 1 (Fin 10);
  _anchor_generator :=
    (([O], [(1, 1)], 1) : @GridGenerator_t model_loss_utils);
  _path_key := None
|}.

(** The same object with the new-coordinates flag set. *)
Definition example_self_newcords : @Yolo_Loss model_loss_utils := {|
  _classes := 1;
  _num := 1;
  _num_extras := 0;
  _truth_thresh := 1;
  _ignore_thresh := 0.7;
  _iou_thresh := 0.213;
  _masks := [O];
  _use_tie_breaker := true;
  _loss_type := 0;
  _iou_normalizer := 1;
  _cls_normalizer := 1;
  _obj_normalizer := 1;
  _scale_x_y := 1;
  _max_delta := Fin 10;
  _label_smoothing := 0;
  _use_reduction_sum := false;
  _beta_nms := 0.6;
  _nms_kind := "greedynms";
  _new_cords := true;
  _decode_boxes := fun w h u a g =>
    get_predicted_box_newcords w h u a g 1 1 (Fin 10);
  _anchor_generator :=
    (([O], [(1, 1)], 1) : @GridGenerator_t model_loss_utils);
  _path_key := None
|}.

(** No object on this level: the indicator is 0 in the only cell. *)
Definition example_y_true : y_true_tensor := {|
  y_shape := (1%nat, 1%nat, 1%nat, 1%nat);
  y_at := fun _ _ _ _ =>
    (((constant 0, constant 0), (constant 0, constant 0)),
     constant 0, constant 0, constant 0)
|}.

(** All logits are 0 and come from the network. *)
Definition example_y_pred : y_pred_tensor :=
  fun _ _ _ _ =>
    (((Tv (Fin 0) true, Tv (Fin 0) true), (Tv (Fin 0) true, Tv (Fin 0) true)),
     Tv (Fin 0) true, [Tv (Fin 0) true]).

(** One instance of class 0 in the image, with corners (0.5, 0.5) and
    (1.5, 1.5): the box that the zero logits decode to. *)
Definition example_boxes : nat -> list box :=
  fun _ => [((constant 0.5, constant 0.5), (constant 1.5, constant 1.5))].

Definition example_classes : nat -> list tv := fun _ => [constant 0].

(** An image without instances. *)
Definition no_boxes : nat -> list box := fun _ => [].
Definition no_classes : nat -> list tv := fun _ => [].

(* ================================================================== *)
(** * Part I, continued: the other functions of the modules *)
(* ================================================================== *)

(** ** More of [yolo/losses/yolo_loss.py] *)

(** [K.epsilon()], the fuzz factor of the Keras backend. *)
Definition K_epsilon : R := 1e-7.

Section YoloLossMethods.

Context {loss_utils : LossUtils}.

(** [Yolo_Loss._get_predicted_box]: the method that decodes like
    [get_predicted_box], without the gradient hooks. *)
Definition _get_predicted_box (self : Yolo_Loss) (width height : tv)
    (unscaled_box : box) (anchor_grid grid_points : vec2)
  : vec2 * vec2 * box :=
  let act (e : tv) : tv :=
    (tsigmoid e * constant (_scale_x_y self)
     - constant (0.5 * (_scale_x_y self - 1)))%tv in
  let pred_xy := (act (fst (fst unscaled_box)), act (snd (fst unscaled_box))) in
  let pred_wh := snd unscaled_box in
  let box_xy := (fst pred_xy / width + fst grid_points,
                 snd pred_xy / height + snd grid_points)%tv in
  let box_wh := (texp (fst pred_wh) * fst anchor_grid,
                 texp (snd pred_wh) * snd anchor_grid)%tv in
  let pred_box := (box_xy, box_wh) in
  (pred_xy, pred_wh, pred_box).

(** [Yolo_Loss.ce], entry by entry. *)
Definition ce (self : Yolo_Loss) (target output : tv) : tv :=
  let _smooth_labels (y_true : tv) : tv :=
    stop_gradient (y_true * constant (1.0 - _label_smoothing self)
                   + constant (0.5 * _label_smoothing self))%tv in
  let target := _smooth_labels target in
  let output :=
    op1 (fun e => clip_by_value e (Fin K_epsilon) (Fin (1 - K_epsilon)))
        output in
  let loss :=
    tmul_no_nan (op1 xopp target) (tlog (output + constant K_epsilon)%tv) in
  loss.

End YoloLossMethods.

(** The real value of a finite entry (0 for the others). *)
Definition fin_val (x : xfloat) : R :=
  match x with Fin r => r | _ => 0 end.

(** The one-cell example with an object in its cell: the box that the zero
    logits decode to, of class 0. *)
Definition example_y_true_object : y_true_tensor := {|
  y_shape := (1%nat, 1%nat, 1%nat, 1%nat);
  y_at := fun _ _ _ _ =>
    (((constant 1, constant 1), (constant 1, constant 1)),
     constant 1, constant 0, constant 1)
|}.

(** [d[k]] on a metrics dictionary; [None] where Python raises
    [KeyError]. *)
Fixpoint dict_get (d : list (string * tv)) (k : string) : option tv :=
  match d with
  | [] => None
  | (k', v) :: t => if String.eqb k' k then Some v else dict_get t k
  end.

(** The items of the six-component tuple that [build_losses] unpacks:
    loss, box loss, objectness loss, class loss, average IoU and
    recall. *)
Definition six_items (r : tv * tv * tv * tv * tv * tv) : list tv :=
  let '(_loss, _loss_box, _loss_conf, _loss_class, _avg_iou, _recall50) :=
    r in
  [_loss; _loss_box; _loss_conf; _loss_class; _avg_iou; _recall50].

Definition item_loss (r : tv * tv * tv * tv * tv * tv) : tv :=
  let '(_loss, _, _, _, _, _) := r in _loss.
Definition item_loss_box (r : tv * tv * tv * tv * tv * tv) : tv :=
  let '(_, _loss_box, _, _, _, _) := r in _loss_box.
Definition item_loss_conf (r : tv * tv * tv * tv * tv * tv) : tv :=
  let '(_, _, _loss_conf, _, _, _) := r in _loss_conf.
Definition item_loss_class (r : tv * tv * tv * tv * tv * tv) : tv :=
  let '(_, _, _, _loss_class, _, _) := r in _loss_class.

(** [loss += value] over the levels, from [0.0]. *)
Definition accumulate (item : tv * tv * tv * tv * tv * tv -> tv)
    (results : list (tv * tv * tv * tv * tv * tv)) (start : tv) : tv :=
  fold_left (fun acc r => (acc + item r)%tv) results start.

(** The loss registered for a level returns the six-component tuple [r]
    on the two arguments that [build_losses] passes. *)
Definition level_ok (_loss_dict : string -> option callable) (labels : pyobj)
    (level : string * pyobj) (r : tv * tv * tv * tv * tv * tv) : Prop :=
  exists f, _loss_dict (fst level) = Some f /\
            f [labels; snd level] = Return (six_items r).

(** * The YOLO head: masks, path scales and xy scales

    [yolo/modeling/heads/yolo_head.py].  The dictionaries are keyed by
    [str(i)] for the level [i]; they are given here as association lists
    in insertion order, keyed by the level itself.  The convolutions of
    [build] and [call] are left out. *)

Module yolo_head.

Inductive exn : Type :=
| ZeroDivisionError
| TypeError
| ValueError
| Exception (msg : string).

(** The result of a method: its value or the exception that it raises;
    the object is threaded beside it. *)
Inductive outcome (A : Type) : Type :=
| Ok (a : A)
| Err (e : exn).

Arguments Ok {A} a.
Arguments Err {A} e.

(** The argument [xy_scale_base]: one of the names or a number. *)
Inductive scale_base : Type :=
| BaseName (s : string)
| BaseValue (v : R).

(** The head from the moment [build] has stored the levels; the three
    dictionaries are [None] until [_get_filtering_attributes] has
    returned. *)
Record YoloHead : Type := {
  _classes : Z;
  _boxes_per_level : Z;
  _output_extras : Z;
  _xy_exponential : bool;
  _exp_base : R;
  _xy_scale_base : scale_base;
  _min_level : Z;
  _max_level : Z;
  _masks : option (list (Z * list Z));
  _path_scales : option (list (Z * R));
  _x_y_scales : option (list (Z * R))
}.

(** [list(range(a, b))]. *)
Definition range (a b : Z) : list Z :=
  map (fun k => (a + Z.of_nat k)%Z) (seq 0 (Z.to_nat (b - a))).

(** [d[k] = v]: the value of a present key is replaced in place, a new
    key goes to the end. *)
Definition assign {V : Type} (d : list (Z * V)) (k : Z) (v : V)
  : list (Z * V) :=
  if existsb (fun e => Z.eqb (fst e) k) d
  then map (fun e => if Z.eqb (fst e) k then (k, v) else e) d
  else d ++ [(k, v)].

(** [b ** i] for an integer [i]: zero cannot be raised to a negative
    power. *)
Definition pow (b : R) (i : Z) : outcome R :=
  if Req_dec_T b 0 then
    if (i <? 0)%Z then Err ZeroDivisionError else Ok (powerRZ b i)
  else Ok (powerRZ b i).

(** The rebinding of [xy_scale_base] before the loop. *)
Definition resolve_base (self : YoloHead) (xy_scale_base : scale_base)
  : outcome scale_base :=
  match xy_scale_base with
  | BaseName s =>
      if String.eqb s "default_base" then
        let d := (_boxes_per_level self *
                  (_max_level self - _min_level self + 1) - 1)%Z in
        if (d =? 0)%Z then Err ZeroDivisionError
        else Ok (BaseValue (0.05 / IZR d))
      else if String.eqb s "default_value" then Ok (BaseValue 0.00625)
      else Ok xy_scale_base
  | BaseValue _ => Ok xy_scale_base
  end.

(** [1.0 + xy_scale_base * (exp_base**i)]: the power is evaluated first,
    and a base that is still a string makes the sum raise. *)
Definition exponential_scale (exp_base : R) (xy_scale_base : scale_base)
    (i : Z) : outcome R :=
  match pow exp_base i with
  | Err e => Err e
  | Ok p =>
      match xy_scale_base with
      | BaseValue b => Ok (1.0 + b * p)
      | BaseName _ => Err TypeError
      end
  end.

Record loop_state : Type := {
  start : Z;
  boxes : list (Z * list Z);
  path_scales_ : list (Z * R);
  scale_x_y : list (Z * R)
}.

(** The loop over [range(self._min_level, self._max_level + 1)]. *)
Fixpoint filtering_loop (self : YoloHead) (xy_exponential : bool)
    (exp_base : R) (xy_scale_base : scale_base) (levels : list Z)
    (st : loop_state) : outcome loop_state :=
  match levels with
  | [] => Ok st
  | i :: rest =>
      let boxes := assign (boxes st) i
                     (range (start st) (_boxes_per_level self + start st)) in
      let path_scales := assign (path_scales_ st) i (powerRZ 2 i) in
      match (if xy_exponential
             then exponential_scale exp_base xy_scale_base i
             else Ok 1.0) with
      | Err e => Err e
      | Ok s =>
          filtering_loop self xy_exponential exp_base xy_scale_base rest
            {| start := (start st + _boxes_per_level self)%Z;
               boxes := boxes;
               path_scales_ := path_scales;
               scale_x_y := assign (scale_x_y st) i s |}
      end
  end.

(** [YoloHead._get_filtering_attributes]: the three attributes are
    assigned at the end, so an exception leaves the head as it was. *)
Definition _get_filtering_attributes (self : YoloHead)
    (xy_exponential : bool) (exp_base : R) (xy_scale_base : scale_base)
  : YoloHead * outcome unit :=
  match resolve_base self xy_scale_base with
  | Err e => (self, Err e)
  | Ok xy_scale_base =>
      match filtering_loop self xy_exponential exp_base xy_scale_base
              (range (_min_level self) (_max_level self + 1))
              {| start := 0; boxes := []; path_scales_ := [];
                 scale_x_y := [] |} with
      | Err e => (self, Err e)
      | Ok st =>
          ({| _classes := _classes self;
              _boxes_per_level := _boxes_per_level self;
              _output_extras := _output_extras self;
              _xy_exponential := _xy_exponential self;
              _exp_base := _exp_base self;
              _xy_scale_base := _xy_scale_base self;
              _min_level := _min_level self;
              _max_level := _max_level self;
              _masks := Some (boxes st);
              _path_scales := Some (path_scales_ st);
              _x_y_scales := Some (scale_x_y st) |}, Ok tt)
      end
  end.

(** The levels of [build]: the keys of the inputs as integers, an empty
    dictionary making [min] raise. *)
Definition build (self : YoloHead) (keys : list Z)
  : YoloHead * outcome unit :=
  match keys with
  | [] => (self, Err ValueError)
  | k :: rest =>
      let self :=
        {| _classes := _classes self;
           _boxes_per_level := _boxes_per_level self;
           _output_extras := _output_extras self;
           _xy_exponential := _xy_exponential self;
           _exp_base := _exp_base self;
           _xy_scale_base := _xy_scale_base self;
           _min_level := fold_right Z.min k rest;
           _max_level := fold_right Z.max k rest;
           _masks := _masks self;
           _path_scales := _path_scales self;
           _x_y_scales := _x_y_scales self |} in
      _get_filtering_attributes self (_xy_exponential self) (_exp_base self)
        (_xy_scale_base self)
  end.

(** The properties [output_depth], [masks], [path_scales], [scale_xy]
    and [num_boxes]. *)
Definition output_depth (self : YoloHead) : Z :=
  ((_classes self + _output_extras self + 5) * _boxes_per_level self)%Z.

Definition masks (self : YoloHead) : outcome (list (Z * list Z)) :=
  match _masks self with
  | None =>
      Err (Exception
             "model has to be built before the masks can be determined")
  | Some m => Ok m
  end.

Definition path_scales (self : YoloHead) : outcome (list (Z * R)) :=
  match _path_scales self with
  | None =>
      Err (Exception
             "model has to be built before the path_scales can be determined")
  | Some m => Ok m
  end.

Definition scale_xy (self : YoloHead) : outcome (list (Z * R)) :=
  match _x_y_scales self with
  | None =>
      Err (Exception
             "model has to be built before the x_y_scales can be determined")
  | Some m => Ok m
  end.

(** The levels are set, so the test against [None] fails. *)
Definition num_boxes (self : YoloHead) : Z :=
  ((_max_level self - _min_level self + 1) * _boxes_per_level self)%Z.

End yolo_head.

(** A head with three boxes per level, before [build]. *)
Definition example_head : yolo_head.YoloHead := {|
  yolo_head._classes := 80;
  yolo_head._boxes_per_level := 3;
  yolo_head._output_extras := 0;
  yolo_head._xy_exponential := false;
  yolo_head._exp_base := 2;
  yolo_head._xy_scale_base := yolo_head.BaseName "default_value";
  yolo_head._min_level := 0;
  yolo_head._max_level := 0;
  yolo_head._masks := None;
  yolo_head._path_scales := None;
  yolo_head._x_y_scales := None
|}.


(** Three candidates for [nms]: the unit box twice and a third box of
    low confidence, with two classes. *)
Definition unit_box : boxv := ((Fin 0, Fin 0), (Fin 1, Fin 1)).

(** The unit box as centre, width and height. *)
Definition unit_centre : boxv := ((Fin 0.5, Fin 0.5), (Fin 1, Fin 1)).

Definition example_nms_boxes : list boxv :=
  [unit_box; unit_box; ((Fin 2, Fin 2), (Fin 3, Fin 3))].

Definition example_nms_classes : list (list xfloat) :=
  [[Fin 0.2; Fin 0.7]; [Fin 0.6; Fin 0.3]; [Fin 0.5; Fin 0.5]].

Definition example_nms_confidence : list xfloat :=
  [Fin 0.9; Fin 0.8; Fin 0.1].
(* ================================================================== *)
(** * Part II: lemmas and theorems *)
(* ================================================================== *)

(** Case analysis on every real-number decision in the goal. *)
Ltac rdec :=
  repeat match goal with
  | |- context [Rlt_dec ?a ?b] => destruct (Rlt_dec a b)
  | |- context [Rle_dec ?a ?b] => destruct (Rle_dec a b)
  | |- context [Req_dec_T ?a ?b] => destruct (Req_dec_T a b)
  end.

Ltac rdec_in H :=
  repeat match type of H with
  | context [Rlt_dec ?a ?b] => destruct (Rlt_dec a b)
  | context [Rle_dec ?a ?b] => destruct (Rle_dec a b)
  | context [Req_dec_T ?a ?b] => destruct (Req_dec_T a b)
  end.

Ltac xunfold :=
  unfold clip_by_value, relu, xmax, xmin, xge, xgt, xsub,
    math_ops.rm_nan_inf, math_ops.mul_no_nan, math_ops.divide_no_nan,
    xsquare, inf_times, inf_of in *.

Ltac xcases :=
  repeat (progress (xunfold; simpl in *; rdec));
  try discriminate; try reflexivity; try lra.

(** ** The box gradient hook *)

Lemma f32_overflow_pos : 0 < f32_overflow.
Proof. unfold f32_overflow. lra. Qed.

Lemma rm_nan_inf_scaled (n : R) (e : xfloat) :
  math_ops.rm_nan_inf (f32_mul e (Fin n)) (Fin 0) = Fin (scaled_sanitized n e).
Proof.
  unfold scaled_sanitized. destruct (f32_mul e (Fin n)); reflexivity.
Qed.

(** A product inside the range is kept, one that overflows is zeroed. *)
Lemma scaled_in_range (n r : R) :
  Rabs (r * n) < f32_overflow -> scaled_sanitized n (Fin r) = r * n.
Proof.
  intros H. unfold scaled_sanitized, f32_mul, f32_range. cbn [xmul].
  destruct (Rle_dec f32_overflow (r * n)) as [Hhi|Hhi].
  - exfalso. pose proof (Rle_abs (r * n)). lra.
  - destruct (Rle_dec (r * n) (- f32_overflow)) as [Hlo|Hlo];
      [|reflexivity].
    exfalso. pose proof (Rle_abs (- (r * n))) as Ha.
    rewrite Rabs_Ropp in Ha. lra.
Qed.

Lemma scaled_overflow (n r : R) :
  f32_overflow <= Rabs (r * n) -> scaled_sanitized n (Fin r) = 0.
Proof.
  intros H. unfold scaled_sanitized, f32_mul, f32_range. cbn [xmul].
  destruct (Rle_dec f32_overflow (r * n)) as [Hhi|Hhi]; [reflexivity|].
  destruct (Rle_dec (r * n) (- f32_overflow)) as [Hlo|Hlo]; [reflexivity|].
  exfalso. unfold Rabs in H. destruct (Rcase_abs (r * n)); lra.
Qed.

Lemma scaled_nonfinite (n : R) (e : xfloat) :
  is_nan e || is_inf e = true -> scaled_sanitized n e = 0.
Proof.
  unfold scaled_sanitized, f32_mul.
  destruct e; simpl; try discriminate; intros _;
    unfold inf_times, inf_of; rdec; reflexivity.
Qed.

Lemma clip_finite (v d : R) :
  0 <= d ->
  clip_by_value (Fin v) (Fin (- d)) (Fin d) =
  Fin (if Rlt_dec d v then d else if Rlt_dec v (- d) then - d else v).
Proof. intros Hd. xcases. Qed.

Lemma clip_unbounded (v : R) :
  clip_by_value (Fin v) NInf PInf = Fin v.
Proof. xcases. Qed.

Lemma xle_zero_cases (delta : xfloat) :
  xle (Fin 0) delta = true ->
  (exists d, delta = Fin d /\ 0 <= d) \/ delta = PInf.
Proof.
  destruct delta as [d| | |]; simpl; intros H; try discriminate.
  - left. exists d. split; [reflexivity|]. rdec_in H; [assumption|discriminate].
  - right. reflexivity.
Qed.

Lemma box_trap_backward (T : Type) (y : T) (n : R) (delta : xfloat)
    (dy : list xfloat) :
  fst (fst (snd (box_gradient_trap y n delta) dy)) =
  map (box_trap_entry_of n delta) dy.
Proof.
  unfold box_gradient_trap, box_trap_entry_of; simpl.
  rewrite !map_map. reflexivity.
Qed.

(** The clip of a sanitized value [v] to a bound [delta >= 0]. *)
Lemma clip_cases (delta : xfloat) (v : R) :
  xle (Fin 0) delta = true ->
  let o := clip_by_value (Fin v) (xopp delta) delta in
  xle (xopp delta) o = true /\ xle o delta = true /\
  (xlt delta (Fin v) = true -> o = delta) /\
  (xlt (Fin v) (xopp delta) = true -> o = xopp delta) /\
  (xle (xopp delta) (Fin v) = true -> xle (Fin v) delta = true ->
   o = Fin v).
Proof.
  intros Hd o. subst o.
  destruct (xle_zero_cases _ Hd) as [[d [-> Hd0]] | ->]; simpl xopp.
  - rewrite clip_finite by assumption.
    split; [simpl; rdec; auto; lra|].
    split; [simpl; rdec; auto; lra|].
    split; [|split].
    + simpl. intros H. rdec_in H; try discriminate.
      rdec; try reflexivity; f_equal; lra.
    + simpl. intros H. rdec_in H; try discriminate.
      rdec; try reflexivity; f_equal; lra.
    + simpl. intros H1 H2.
      destruct (Rle_dec (- d) v); [|discriminate].
      destruct (Rle_dec v d); [|discriminate].
      rdec; try reflexivity; f_equal; lra.
  - rewrite clip_unbounded.
    split; [reflexivity|]. split; [reflexivity|].
    split; [simpl; intros H; discriminate|].
    split; [simpl; intros H; discriminate|]. reflexivity.
Qed.

Lemma box_trap_entry_zero (n : R) (delta e : xfloat) :
  xle (Fin 0) delta = true ->
  scaled_sanitized n e = 0 ->
  box_trap_entry_of n delta e = Fin 0.
Proof.
  unfold box_trap_entry_of. intros Hd He. rewrite rm_nan_inf_scaled, He.
  destruct (clip_cases delta 0 Hd) as (_ & _ & _ & _ & H).
  apply H.
  - destruct (xle_zero_cases _ Hd) as [[d [-> Hd0]] | ->]; simpl;
      rdec; try reflexivity; lra.
  - exact Hd.
Qed.

(** C3 (as amended).  The box gradient hook is the identity forwards and
    sends no gradient to [iou_normalizer] and [max_delta].  Backwards,
    with a clip bound [max_delta >= 0] (finite, or [+Inf], which does not
    clip), every upstream entry is scaled by [iou_normalizer], replaced by
    0 when the scaled value is NaN or infinite, and clipped to
    [[-max_delta, max_delta]]: every output entry lies in that interval.
    A finite entry whose scaled value stays inside the float32 range
    gives exactly [max_delta] ([-max_delta]) when that value is above
    [max_delta] (below [-max_delta]) and the scaled value itself when it
    is within the bounds; a finite entry whose scaled value overflows
    float32 gives exactly 0, as a NaN or infinite entry does. *)
Theorem box_gradient_trap_clips (T : Type) (y : T) (iou_normalizer : R)
    (max_delta : xfloat) (dy : list xfloat) :
  xle (Fin 0) max_delta = true ->
  let '(forward, trap) := box_gradient_trap y iou_normalizer max_delta in
  let '(out, d_normalizer, d_max_delta) := trap dy in
  forward = y /\
  d_normalizer = Fin 0 /\ d_max_delta = Fin 0 /\
  List.length out = List.length dy /\
  forall i e, nth_error dy i = Some e ->
    exists o, nth_error out i = Some o /\
      xle (xopp max_delta) o = true /\
      xle o max_delta = true /\
      (forall r, e = Fin r ->
         Rabs (r * iou_normalizer) < f32_overflow ->
         (xlt max_delta (Fin (r * iou_normalizer)) = true ->
          o = max_delta) /\
         (xlt (Fin (r * iou_normalizer)) (xopp max_delta) = true ->
          o = xopp max_delta) /\
         (xle (xopp max_delta) (Fin (r * iou_normalizer)) = true ->
          xle (Fin (r * iou_normalizer)) max_delta = true ->
          o = Fin (r * iou_normalizer))) /\
      (forall r, e = Fin r ->
         f32_overflow <= Rabs (r * iou_normalizer) -> o = Fin 0) /\
      (is_nan e || is_inf e = true -> o = Fin 0).
Proof.
  intros Hd.
  pose proof (box_trap_backward T y iou_normalizer max_delta dy) as Hb.
  unfold box_gradient_trap in *. cbv zeta in *. simpl in Hb.
  rewrite Hb.
  split; [reflexivity|]. split; [reflexivity|]. split; [reflexivity|].
  split; [apply length_map|].
  intros i e Hi. exists (box_trap_entry_of iou_normalizer max_delta e).
  split; [rewrite nth_error_map, Hi; reflexivity|].
  assert (Hc := clip_cases max_delta (scaled_sanitized iou_normalizer e) Hd).
  cbv zeta in Hc. unfold box_trap_entry_of at 1 2.
  rewrite rm_nan_inf_scaled.
  destruct Hc as (Hlo & Hhi & _).
  split; [exact Hlo|]. split; [exact Hhi|].
  split; [|split].
  - intros r -> Hr. unfold box_trap_entry_of. rewrite rm_nan_inf_scaled.
    rewrite (scaled_in_range _ _ Hr).
    destruct (clip_cases max_delta (r * iou_normalizer) Hd)
      as (_ & _ & H1 & H2 & H3).
    auto.
  - intros r -> Hr. apply box_trap_entry_zero; [exact Hd|].
    apply scaled_overflow, Hr.
  - intros He. apply box_trap_entry_zero; [exact Hd|].
    apply scaled_nonfinite, He.
Qed.

(** C3, counterexample to the claim as stated.  The entry [3e38] scaled
    by the normalizer 2 exceeds the bound 5, yet the hook returns 0 and
    not 5: the float32 product overflows to an infinity, which the
    sanitizing step zeroes before the clip. *)
Lemma box_gradient_trap_overflow_counterexample :
  xlt (Fin 5) (xmul (Fin 3e38) (Fin 2)) = true /\
  fst (fst (snd (box_gradient_trap tt 2 (Fin 5)) [Fin 3e38])) = [Fin 0] /\
  fst (fst (snd (box_gradient_trap tt 2 (Fin 5)) [Fin 3e38])) <> [Fin 5].
Proof.
  assert (Hout : fst (fst (snd (box_gradient_trap tt 2 (Fin 5)) [Fin 3e38]))
                 = [Fin 0]).
  { rewrite box_trap_backward. cbn [map]. f_equal.
    apply box_trap_entry_zero.
    - simpl. destruct (Rle_dec 0 5); [reflexivity | lra].
    - apply scaled_overflow. unfold f32_overflow.
      rewrite Rabs_pos_eq; lra. }
  split; [|split].
  - simpl. destruct (Rlt_dec 5 (3e38 * 2)); [reflexivity | lra].
  - exact Hout.
  - rewrite Hout. intros [= H]. lra.
Qed.

(** ** Sigmoid *)

Lemma sigmoid_pos (x : R) : 0 < sigmoid x.
Proof.
  unfold sigmoid. apply Rinv_0_lt_compat.
  pose proof (exp_pos (- x)). lra.
Qed.

Lemma sigmoid_lt_1 (x : R) : sigmoid x < 1.
Proof.
  unfold sigmoid. pose proof (exp_pos (- x)) as He.
  replace 1 with (/ 1) at 2 by apply Rinv_1.
  apply Rinv_lt_contravar; lra.
Qed.

Lemma sigmoid_increasing (x y : R) : x < y -> sigmoid x < sigmoid y.
Proof.
  intros Hxy. unfold sigmoid.
  pose proof (exp_pos (- x)) as Hx. pose proof (exp_pos (- y)) as Hy.
  assert (exp (- y) < exp (- x)) by (apply exp_increasing; lra).
  apply Rinv_lt_contravar; nra.
Qed.

Lemma sigmoid_0 : sigmoid 0 = / 2.
Proof. unfold sigmoid. rewrite Ropp_0, exp_0. f_equal; lra. Qed.

Lemma vals2_inv (v : vec2) (a b : xfloat) :
  vals2 v = (a, b) -> val (fst v) = a /\ val (snd v) = b.
Proof. unfold vals2. intros [= H1 H2]. auto. Qed.

(** ** The new-coordinates decoder *)

Lemma newcords_wh_vals (w h : tv) (raw : box) (anchor grid : vec2)
    (s n : R) (d : xfloat) (rw rh aw ah : R) :
  vals2 (snd raw) = (Fin rw, Fin rh) ->
  vals2 anchor = (Fin aw, Fin ah) ->
  vals2 (snd (snd (get_predicted_box_newcords w h raw anchor grid s n d))) =
  (Fin (4 * (sigmoid rw * sigmoid rw) * aw),
   Fin (4 * (sigmoid rh * sigmoid rh) * ah)).
Proof.
  destruct raw as [[rx ry] [[vw lw] [vh lh]]], anchor as [[va la] [vb lb]].
  unfold vals2; simpl. intros [= -> ->] [= -> ->]. reflexivity.
Qed.

Lemma sq_sigmoid_lt_1 (x : R) : sigmoid x * sigmoid x < 1.
Proof. pose proof (sigmoid_pos x); pose proof (sigmoid_lt_1 x); nra. Qed.

Lemma sq_sigmoid_increasing (x y : R) :
  x < y -> sigmoid x * sigmoid x < sigmoid y * sigmoid y.
Proof.
  intros H. pose proof (sigmoid_pos x). pose proof (sigmoid_increasing x y H).
  nra.
Qed.

Lemma xlt_fin (a b : R) : a < b -> xlt (Fin a) (Fin b) = true.
Proof. intros H; simpl; rdec; [reflexivity | lra]. Qed.

(** The decoder over [tsigmoid] is the decoder of the source. *)
Lemma newcords_with_exact :
  get_predicted_box_newcords_with tsigmoid = get_predicted_box_newcords.
Proof. reflexivity. Qed.

(** *** The float32 sigmoid *)

Lemma f32_sigmoid_bounds (x : R) : 0 <= f32_sigmoid x <= 1.
Proof.
  unfold f32_sigmoid. cbv zeta.
  pose proof (sigmoid_pos x). pose proof (sigmoid_lt_1 x).
  destruct (Rle_dec (1 - / 2 ^ 25) (sigmoid x)); [lra|].
  destruct (Rle_dec (sigmoid x) (/ 2 ^ 150)); lra.
Qed.

Lemma f32_sigmoid_monotone (x y : R) :
  x <= y -> f32_sigmoid x <= f32_sigmoid y.
Proof.
  intros Hxy.
  assert (Hs : sigmoid x <= sigmoid y).
  { destruct Hxy as [Hlt | ->]; [|lra].
    left. apply sigmoid_increasing, Hlt. }
  pose proof (sigmoid_pos x). pose proof (sigmoid_lt_1 y).
  assert (Hgap : / 2 ^ 150 < 1 - / 2 ^ 25).
  { assert (/ 2 ^ 150 <= / 2 ^ 25).
    { apply Rinv_le_contravar; [apply pow_lt; lra|].
      apply Rle_pow; [lra | lia]. }
    assert (/ 2 ^ 25 <= / 2 ^ 2).
    { apply Rinv_le_contravar; [apply pow_lt; lra|].
      apply Rle_pow; [lra | lia]. }
    assert (/ 2 ^ 2 = / 4) by (f_equal; lra).
    lra. }
  unfold f32_sigmoid. cbv zeta.
  destruct (Rle_dec (1 - / 2 ^ 25) (sigmoid x));
    destruct (Rle_dec (1 - / 2 ^ 25) (sigmoid y)); try lra;
    destruct (Rle_dec (sigmoid x) (/ 2 ^ 150));
    destruct (Rle_dec (sigmoid y) (/ 2 ^ 150)); lra.
Qed.

Lemma exp_nat_lower (n : nat) : 2 ^ n <= exp (INR n).
Proof.
  induction n as [|n IH].
  - simpl. rewrite exp_0. lra.
  - rewrite S_INR, exp_plus. cbn [pow].
    assert (2 < exp 1) by (pose proof (exp_ineq1 1); lra).
    assert (0 < 2 ^ n) by (apply pow_lt; lra).
    nra.
Qed.

(** From the raw input 25 on, the float32 sigmoid is exactly 1. *)
Lemma f32_sigmoid_saturates (x : R) : 25 <= x -> f32_sigmoid x = 1.
Proof.
  intros Hx. unfold f32_sigmoid. cbv zeta.
  destruct (Rle_dec (1 - / 2 ^ 25) (sigmoid x)) as [|Hn]; [reflexivity|].
  exfalso. apply Hn. unfold sigmoid.
  assert (Hexp : 2 ^ 25 <= exp x).
  { apply Rle_trans with (exp (INR 25)); [apply exp_nat_lower|].
    destruct Hx as [Hlt | <-].
    - left. apply exp_increasing. simpl. lra.
    - right. f_equal. simpl. lra. }
  assert (Hp : 0 < 2 ^ 25) by (apply pow_lt; lra).
  assert (He : exp (- x) <= / 2 ^ 25).
  { rewrite exp_Ropp. apply Rinv_le_contravar; assumption. }
  pose proof (exp_pos (- x)) as Hpos.
  set (t := exp (- x)) in *. set (u := / 2 ^ 25) in *.
  assert (Hu : 0 < u) by (subst u; apply Rinv_0_lt_compat; exact Hp).
  apply (Rmult_le_reg_r (1 + t)); [lra|].
  rewrite Rinv_l by lra. nra.
Qed.

Lemma newcords_f32_wh_vals (w h : tv) (raw : box) (anchor grid : vec2)
    (s n : R) (d : xfloat) (rw rh aw ah : R) :
  vals2 (snd raw) = (Fin rw, Fin rh) ->
  vals2 anchor = (Fin aw, Fin ah) ->
  vals2 (snd (snd (get_predicted_box_newcords_f32 w h raw anchor grid
                                                  s n d))) =
  (Fin (4 * (f32_sigmoid rw * f32_sigmoid rw) * aw),
   Fin (4 * (f32_sigmoid rh * f32_sigmoid rh) * ah)).
Proof.
  destruct raw as [[rx ry] [[vw lw] [vh lh]]], anchor as [[va la] [vb lb]].
  unfold vals2; simpl. intros [= -> ->] [= -> ->]. reflexivity.
Qed.

Lemma xle_fin (a b : R) : a <= b -> xle (Fin a) (Fin b) = true.
Proof. intros H; simpl; rdec; [reflexivity | lra]. Qed.

(** C6 (as amended).  With finite raw width and height and strictly
    positive finite anchor priors, the new-coordinates decoder returns the
    width and height [4 * sigmoid(raw)^2 * anchor].  In exact arithmetic
    each is strictly below [4 * anchor] and strictly increasing in its
    raw input.  On float32 tensors, whose sigmoid reaches exactly 1.0,
    each is at most [4 * anchor] and does not decrease when its raw input
    grows, and it is exactly [4 * anchor] for every raw input from 25
    on. *)
Theorem newcords_wh_monotone_bounded (w h : tv) (grid anchor : vec2)
    (s n : R) (d : xfloat) (raw : box) (rw rh aw ah : R) :
  vals2 (snd raw) = (Fin rw, Fin rh) ->
  vals2 anchor = (Fin aw, Fin ah) ->
  0 < aw -> 0 < ah ->
  let decoded (u : box) :=
    snd (snd (get_predicted_box_newcords w h u anchor grid s n d)) in
  let decoded_f32 (u : box) :=
    snd (snd (get_predicted_box_newcords_f32 w h u anchor grid s n d)) in
  (vals2 (decoded raw) =
     (Fin (4 * (sigmoid rw * sigmoid rw) * aw),
      Fin (4 * (sigmoid rh * sigmoid rh) * ah)) /\
   xlt (val (fst (decoded raw))) (Fin (4 * aw)) = true /\
   xlt (val (snd (decoded raw))) (Fin (4 * ah)) = true /\
   forall (raw' : box) (rw' rh' : R),
     vals2 (snd raw') = (Fin rw', Fin rh') ->
     (rw < rw' ->
      xlt (val (fst (decoded raw))) (val (fst (decoded raw'))) = true) /\
     (rh < rh' ->
      xlt (val (snd (decoded raw))) (val (snd (decoded raw'))) = true)) /\
  (xle (val (fst (decoded_f32 raw))) (Fin (4 * aw)) = true /\
   xle (val (snd (decoded_f32 raw))) (Fin (4 * ah)) = true /\
   (25 <= rw -> val (fst (decoded_f32 raw)) = Fin (4 * aw)) /\
   (25 <= rh -> val (snd (decoded_f32 raw)) = Fin (4 * ah)) /\
   forall (raw' : box) (rw' rh' : R),
     vals2 (snd raw') = (Fin rw', Fin rh') ->
     (rw <= rw' ->
      xle (val (fst (decoded_f32 raw))) (val (fst (decoded_f32 raw')))
        = true) /\
     (rh <= rh' ->
      xle (val (snd (decoded_f32 raw))) (val (snd (decoded_f32 raw')))
        = true)).
Proof.
  intros Hraw Hanchor Haw Hah decoded decoded_f32.
  split.
  - pose proof (newcords_wh_vals w h raw anchor grid s n d _ _ _ _
                  Hraw Hanchor) as Hv.
    fold (decoded raw) in Hv.
    split; [exact Hv|].
    destruct (vals2_inv _ _ _ Hv) as [Hw Hh].
    pose proof (sq_sigmoid_lt_1 rw). pose proof (sq_sigmoid_lt_1 rh).
    split; [rewrite Hw; apply xlt_fin; nra|].
    split; [rewrite Hh; apply xlt_fin; nra|].
    intros raw' rw' rh' Hraw'.
    pose proof (newcords_wh_vals w h raw' anchor grid s n d _ _ _ _
                  Hraw' Hanchor) as Hv'.
    fold (decoded raw') in Hv'. destruct (vals2_inv _ _ _ Hv') as [Hw' Hh'].
    rewrite Hw, Hh, Hw', Hh'.
    split; intros Hlt; apply xlt_fin;
      pose proof (sq_sigmoid_increasing _ _ Hlt); nra.
  - pose proof (newcords_f32_wh_vals w h raw anchor grid s n d _ _ _ _
                  Hraw Hanchor) as Hv.
    fold (decoded_f32 raw) in Hv.
    destruct (vals2_inv _ _ _ Hv) as [Hw Hh].
    pose proof (f32_sigmoid_bounds rw) as Bw.
    pose proof (f32_sigmoid_bounds rh) as Bh.
    assert (Sw : f32_sigmoid rw * f32_sigmoid rw <= 1) by nra.
    assert (Sh : f32_sigmoid rh * f32_sigmoid rh <= 1) by nra.
    split; [rewrite Hw; apply xle_fin; nra|].
    split; [rewrite Hh; apply xle_fin; nra|].
    split; [intros H25; rewrite Hw, (f32_sigmoid_saturates _ H25);
            f_equal; lra|].
    split; [intros H25; rewrite Hh, (f32_sigmoid_saturates _ H25);
            f_equal; lra|].
    intros raw' rw' rh' Hraw'.
    pose proof (newcords_f32_wh_vals w h raw' anchor grid s n d _ _ _ _
                  Hraw' Hanchor) as Hv'.
    fold (decoded_f32 raw') in Hv'.
    destruct (vals2_inv _ _ _ Hv') as [Hw' Hh'].
    rewrite Hw, Hh, Hw', Hh'.
    split; intros Hle; apply xle_fin.
    + pose proof (f32_sigmoid_monotone _ _ Hle) as Hm.
      pose proof (f32_sigmoid_bounds rw') as Bw'.
      assert (f32_sigmoid rw * f32_sigmoid rw
              <= f32_sigmoid rw' * f32_sigmoid rw') by nra.
      nra.
    + pose proof (f32_sigmoid_monotone _ _ Hle) as Hm.
      pose proof (f32_sigmoid_bounds rh') as Bh'.
      assert (f32_sigmoid rh * f32_sigmoid rh
              <= f32_sigmoid rh' * f32_sigmoid rh') by nra.
      nra.
Qed.

(** C6, counterexample to the claim as stated.  On float32 tensors the
    raw widths 25 and 30 decode to the same width, which is exactly
    [4 * anchor]: the decoded width is neither strictly increasing nor
    strictly below [4 * anchor] for every finite raw input. *)
Lemma newcords_saturation_counterexample :
  let anchor : vec2 := (constant 1, constant 1) in
  let decoded_f32 (rw : R) :=
    val (fst (snd (snd (get_predicted_box_newcords_f32
                          (constant 1) (constant 1)
                          ((constant 0, constant 0),
                           (constant rw, constant 0))
                          anchor (constant 0, constant 0) 1 1 (Fin 10))))) in
  25 < 30 /\
  decoded_f32 25 = Fin (4 * 1) /\
  decoded_f32 30 = Fin (4 * 1) /\
  xlt (decoded_f32 25) (decoded_f32 30) = false /\
  xlt (decoded_f32 30) (Fin (4 * 1)) = false.
Proof.
  cbv zeta.
  assert (H : forall rw, 25 <= rw ->
            val (fst (snd (snd (get_predicted_box_newcords_f32
                          (constant 1) (constant 1)
                          ((constant 0, constant 0),
                           (constant rw, constant 0))
                          (constant 1, constant 1)
                          (constant 0, constant 0) 1 1 (Fin 10))))) =
            Fin (4 * 1)).
  { intros rw Hrw.
    pose proof (newcords_f32_wh_vals (constant 1) (constant 1)
                  ((constant 0, constant 0), (constant rw, constant 0))
                  (constant 1, constant 1) (constant 0, constant 0)
                  1 1 (Fin 10) rw 0 1 1 eq_refl eq_refl) as Hv.
    destruct (vals2_inv _ _ _ Hv) as [Hw _].
    rewrite Hw, (f32_sigmoid_saturates _ Hrw). f_equal. lra. }
  split; [lra|].
  rewrite (H 25), (H 30) by lra.
  split; [reflexivity|]. split; [reflexivity|].
  split; simpl; destruct (Rlt_dec (4 * 1) (4 * 1)); try reflexivity; lra.
Qed.

(** ** The legacy codec *)

Lemma vals_box_inv (b : box) (x y w h : xfloat) :
  vals_box b = ((x, y), (w, h)) ->
  val (fst (fst b)) = x /\ val (snd (fst b)) = y /\
  val (fst (snd b)) = w /\ val (snd (snd b)) = h.
Proof. unfold vals_box, vals2. intros [= H1 H2 H3 H4]. auto. Qed.

(** The values of the encoded targets of a finite box. *)
Lemma encode_xy_val (v g width : R) :
  g <= v ->
  xmul (relu (xsub (Fin v) (Fin g))) (Fin width) = Fin ((v - g) * width).
Proof. intros H. xcases; f_equal; lra. Qed.

Lemma encode_xy_val_clamped (v g width : R) :
  v < g ->
  xmul (relu (xsub (Fin v) (Fin g))) (Fin width) = Fin 0.
Proof. intros H. xcases; f_equal; lra. Qed.

Lemma encode_wh_val (v a : R) :
  0 < v -> 0 < a ->
  math_ops.rm_nan_inf (xlog (xdiv (Fin v) (Fin a))) (Fin 0) =
  Fin (ln (v / a)).
Proof.
  intros Hv Ha.
  assert (0 < v / a) by (apply Rdiv_lt_0_compat; assumption).
  unfold math_ops.rm_nan_inf; simpl. rdec; simpl; rdec; simpl; try lra.
  reflexivity.
Qed.

Lemma decode_xy_val (t g width : R) :
  0 < width ->
  xadd (xdiv (Fin (t * width)) (Fin width)) (Fin g) = Fin (t + g).
Proof. intros H. simpl. rdec; [lra|]. simpl. f_equal. field. lra. Qed.

Lemma decode_wh_val (v a : R) :
  0 < v -> 0 < a ->
  xmul (xexp (Fin (ln (v / a)))) (Fin a) = Fin v.
Proof.
  intros Hv Ha. simpl.
  rewrite exp_ln by (apply Rdiv_lt_0_compat; assumption).
  f_equal. field. lra.
Qed.

Lemma activation_val (r s : R) :
  xsub (xmul (xsigmoid (Fin r)) (Fin s)) (Fin (0.5 * (s - 1))) =
  Fin (sigmoid r * s - 0.5 * (s - 1)).
Proof. simpl. f_equal. Qed.

Lemma sigmoid_logit (p : R) : 0 < p < 1 -> sigmoid (logit p) = p.
Proof.
  intros [H0 H1]. unfold sigmoid, logit.
  assert (Hq : 0 < p / (1 - p)) by (apply Rdiv_lt_0_compat; lra).
  rewrite exp_Ropp, exp_ln by exact Hq. field. lra.
Qed.

Lemma activation_logit (t s : R) :
  0 < s -> 0 < t + 0.5 * (s - 1) < s ->
  xsub (xmul (xsigmoid (Fin (logit ((t + 0.5 * (s - 1)) / s)))) (Fin s))
       (Fin (0.5 * (s - 1))) = Fin t.
Proof.
  intros Hs [H0 H1]. simpl. rewrite sigmoid_logit.
  - f_equal. field. lra.
  - split.
    + apply Rdiv_lt_0_compat; lra.
    + apply (Rmult_lt_reg_r s); [exact Hs|].
      unfold Rdiv. rewrite Rmult_assoc, Rinv_l by lra. lra.
Qed.

(** C4 (as amended).  What holds of the legacy codec instead of the
    literal round trip.  For a finite ground-truth box with strictly
    positive width, height and anchor priors on a non-empty grid, whose
    centre is at or after the grid point of its cell and whose xy targets
    lie strictly inside the range of the decoder's activation (for
    [scale_x_y = 1]: the centre is strictly inside its cell), feed
    [get_predicted_box] the raw box whose xy entries are the raw offsets
    of the xy targets of [_scale_ground_truth_box] and whose wh entries
    are its wh targets.  The activations [pred_xy], [pred_wh] that the
    decoder returns are then exactly the targets and the decoded box is
    exactly the ground-truth centre, width and height.  The width and
    height also survive the literal composition, in which the targets
    themselves are the raw input. *)
Theorem legacy_codec_round_trip (width height s n : R) (d : xfloat)
    (b : box) (grid anchor : vec2) (bx by_ bw bh gx gy aw ah : R) :
  vals_box b = ((Fin bx, Fin by_), (Fin bw, Fin bh)) ->
  vals2 grid = (Fin gx, Fin gy) ->
  vals2 anchor = (Fin aw, Fin ah) ->
  0 < width -> 0 < height -> 0 < s ->
  gx <= bx -> gy <= by_ ->
  0 < (bx - gx) * width + 0.5 * (s - 1) < s ->
  0 < (by_ - gy) * height + 0.5 * (s - 1) < s ->
  0 < bw -> 0 < bh -> 0 < aw -> 0 < ah ->
  let targets :=
    _scale_ground_truth_box b (constant width) (constant height)
                            anchor grid in
  let decode (raw : box) :=
    get_predicted_box (constant width) (constant height) raw anchor grid
                      s n d in
  vals2 (fst (fst (decode (raw_of_targets s targets)))) =
    vals2 (fst targets) /\
  vals2 (snd (fst (decode (raw_of_targets s targets)))) =
    vals2 (snd targets) /\
  vals_box (snd (decode (raw_of_targets s targets))) = vals_box b /\
  vals2 (snd (snd (decode targets))) = vals2 (snd b).
Proof.
  intros Hb Hg Ha Hw Hh Hs Hx Hy Hpx Hpy Hbw Hbh Haw Hah.
  destruct (vals_box_inv _ _ _ _ _ Hb) as (Hb1 & Hb2 & Hb3 & Hb4).
  destruct (vals2_inv _ _ _ Hg) as [Hg1 Hg2].
  destruct (vals2_inv _ _ _ Ha) as [Ha1 Ha2].
  unfold raw_of_targets, inverse_activation, _scale_ground_truth_box,
    get_predicted_box, box_gradient_trap.
  cbv zeta. unfold vals_box, vals2. cbn [fst snd val op1 op2 stop_gradient
    constant tsigmoid texp tlog trelu].
  rewrite Hb1, Hb2, Hb3, Hb4, Hg1, Hg2, Ha1, Ha2.
  rewrite !encode_xy_val, !encode_wh_val by assumption.
  rewrite !activation_logit by assumption.
  rewrite !decode_xy_val, !decode_wh_val by assumption.
  repeat split; repeat f_equal; lra.
Qed.

(** C4, counterexample to the claim as stated.  On a 1 x 1 grid with the
    anchor (1, 1), the box of width and height 1 whose centre is the grid
    point (0, 0) is encoded to the targets 0, and the decoder, whose
    first step is a sigmoid, sends these targets to the centre
    (1/2, 1/2): the literal composition does not return the centre.  No
    finite raw offset does: the activation of the decoder is never 0. *)
Lemma literal_round_trip_counterexample :
  let b : box := ((constant 0, constant 0), (constant 1, constant 1)) in
  let grid : vec2 := (constant 0, constant 0) in
  let anchor : vec2 := (constant 1, constant 1) in
  let targets :=
    _scale_ground_truth_box b (constant 1) (constant 1) anchor grid in
  let decode (raw : box) :=
    get_predicted_box (constant 1) (constant 1) raw anchor grid
                      1 1 (Fin 10) in
  vals_box targets = ((Fin 0, Fin 0), (Fin 0, Fin 0)) /\
  vals_box (snd (decode targets)) = ((Fin (/ 2), Fin (/ 2)), (Fin 1, Fin 1)) /\
  vals_box (snd (decode targets)) <> vals_box b /\
  forall (raw : box) (r : R),
    val (fst (fst raw)) = Fin r ->
    val (fst (fst (snd (decode raw)))) <> val (fst (fst b)).
Proof.
  cbv zeta.
  assert (Ht : vals_box
                 (_scale_ground_truth_box
                    ((constant 0, constant 0), (constant 1, constant 1))
                    (constant 1) (constant 1) (constant 1, constant 1)
                    (constant 0, constant 0)) =
               ((Fin 0, Fin 0), (Fin 0, Fin 0))).
  { unfold vals_box, vals2, _scale_ground_truth_box.
    cbn [fst snd val op1 op2 stop_gradient constant tlog trelu].
    rewrite !encode_xy_val, !encode_wh_val by lra.
    replace (1 / 1) with 1 by lra. rewrite ln_1.
    repeat f_equal; lra. }
  assert (Hd : vals_box
                 (snd (get_predicted_box (constant 1) (constant 1)
                         (_scale_ground_truth_box
                            ((constant 0, constant 0),
                             (constant 1, constant 1))
                            (constant 1) (constant 1)
                            (constant 1, constant 1)
                            (constant 0, constant 0))
                         (constant 1, constant 1) (constant 0, constant 0)
                         1 1 (Fin 10))) =
               ((Fin (/ 2), Fin (/ 2)), (Fin 1, Fin 1))).
  { destruct (vals_box_inv _ _ _ _ _ Ht) as (T1 & T2 & T3 & T4).
    unfold vals_box, vals2, get_predicted_box, box_gradient_trap.
    cbn [fst snd val op1 op2 constant tsigmoid texp].
    rewrite T1, T2, T3, T4.
    rewrite !activation_val, sigmoid_0. cbn [xexp xmul xdiv xadd].
    rewrite exp_0. rdec; try lra. cbn [xadd].
    repeat apply f_equal2; try apply f_equal; lra. }
  split; [exact Ht|]. split; [exact Hd|]. split.
  - rewrite Hd. unfold vals_box, vals2. cbn. intros [= H]. lra.
  - intros raw r Hr.
    unfold get_predicted_box, box_gradient_trap.
    cbn [fst snd val op1 op2 constant tsigmoid].
    rewrite Hr, activation_val. cbn [xdiv xadd].
    rdec; try lra. intros [= H].
    pose proof (sigmoid_pos r). unfold Rdiv in H.
    rewrite Rinv_1 in H. lra.
Qed.

(** ** The affine-widened sigmoid in the encoder and the decoder *)

Lemma decode_xy_inv (t g width v : R) :
  0 < width ->
  xadd (xdiv (Fin t) (Fin width)) (Fin g) = Fin v ->
  t = (v - g) * width.
Proof.
  intros Hw. simpl. rdec; [lra|]. simpl. intros [= <-]. field. lra.
Qed.

(** C8 (as amended).  The legacy encoder never applies [scale_x_y]; it
    clamps the centre offset at 0.  For every [scale_x_y], when the
    ground-truth centre is at or after the grid point of its cell on a
    non-empty grid, and a finite raw offset decodes to that centre, the
    encoded xy target equals the decoder's activation
    [sigmoid(raw) * scale_x_y - 0.5 * (scale_x_y - 1)] of that raw offset:
    target and prediction live in the same offset space. *)
Theorem xy_target_matches_activation (width height s n : R) (d : xfloat)
    (raw b : box) (grid anchor : vec2) (rx ry bx by_ gx gy : R) :
  vals2 (fst raw) = (Fin rx, Fin ry) ->
  vals2 (fst b) = (Fin bx, Fin by_) ->
  vals2 grid = (Fin gx, Fin gy) ->
  0 < width -> 0 < height ->
  gx <= bx -> gy <= by_ ->
  let '(true_xy, true_wh) :=
    _scale_ground_truth_box b (constant width) (constant height)
                            anchor grid in
  let '(pred_xy, pred_wh, pred_box) :=
    get_predicted_box (constant width) (constant height) raw anchor grid
                      s n d in
  vals2 (fst pred_box) = vals2 (fst b) ->
  vals2 pred_xy = (Fin (sigmoid rx * s - 0.5 * (s - 1)),
                   Fin (sigmoid ry * s - 0.5 * (s - 1))) /\
  vals2 true_xy = vals2 pred_xy.
Proof.
  intros Hr Hb Hg Hw Hh Hx Hy.
  destruct (vals2_inv _ _ _ Hr) as [Hr1 Hr2].
  destruct (vals2_inv _ _ _ Hb) as [Hb1 Hb2].
  destruct (vals2_inv _ _ _ Hg) as [Hg1 Hg2].
  unfold _scale_ground_truth_box, get_predicted_box, box_gradient_trap.
  cbv zeta. unfold vals2. cbn [fst snd val op1 op2 stop_gradient
    constant tsigmoid texp tlog trelu].
  rewrite Hb1, Hb2, Hg1, Hg2, Hr1, Hr2.
  rewrite !activation_val, !encode_xy_val by assumption.
  intros [= H1 H2].
  apply decode_xy_inv in H1; [|assumption].
  apply decode_xy_inv in H2; [|assumption].
  split; [reflexivity|]. rewrite H1, H2. reflexivity.
Qed.

Lemma sigmoid_neg2_small : sigmoid (-2) < / 4.
Proof.
  unfold sigmoid. replace (- -2) with 2 by lra.
  pose proof (exp_ineq1 2 ltac:(lra)).
  apply Rinv_lt_contravar; lra.
Qed.

(** C8, counterexample to the claim as stated.  With [scale_x_y = 2] the
    raw offset -2 decodes to a centre before the grid point; the encoder
    clamps the target of that centre to 0, which is not the activation of
    the raw offset. *)
Lemma xy_target_clamped_counterexample :
  let raw : box := ((Tv (Fin (-2)) true, Tv (Fin 0) true),
                    (Tv (Fin 0) true, Tv (Fin 0) true)) in
  let grid : vec2 := (constant 0, constant 0) in
  let anchor : vec2 := (constant 1, constant 1) in
  let '(pred_xy, pred_wh, pred_box) :=
    get_predicted_box (constant 1) (constant 1) raw anchor grid
                      2 1 (Fin 5) in
  let '(true_xy, true_wh) :=
    _scale_ground_truth_box pred_box (constant 1) (constant 1)
                            anchor grid in
  1 <= 2 /\
  val (fst true_xy) = Fin 0 /\
  val (fst true_xy) <> val (fst pred_xy).
Proof.
  cbv zeta.
  unfold _scale_ground_truth_box, get_predicted_box, box_gradient_trap.
  cbv zeta. cbn [fst snd val op1 op2 stop_gradient
    constant tsigmoid texp tlog trelu].
  rewrite !activation_val.
  pose proof sigmoid_neg2_small as Hs.
  assert (Hneg : sigmoid (-2) * 2 - 0.5 * (2 - 1) < 0) by lra.
  set (t := sigmoid (-2) * 2 - 0.5 * (2 - 1)) in *.
  assert (Hc : xadd (xdiv (Fin t) (Fin 1)) (Fin 0) = Fin (t / 1 + 0)).
  { simpl. rdec; [lra | reflexivity]. }
  rewrite Hc.
  rewrite encode_xy_val_clamped by lra.
  split; [lra|]. split; [reflexivity|].
  intros [= H]. lra.
Qed.

(** ** The loss call *)

Section YoloLossFacts.

Context {box_ops : BoxOps} {keras : KerasLosses} {loss_utils : LossUtils}.

(** C1 (the code at the failing input).  With [new_cords] set, every call
    of the loss raises [NameError] at the first read of [matched_mask]: no
    objectness target is ever fed to the binary cross-entropy. *)
Theorem new_cords_call_raises (self : Yolo_Loss) (y_true : y_true_tensor)
    (y_pred : y_pred_tensor) (boxes : nat -> list box)
    (classes : nat -> list tv) :
  _new_cords self = true ->
  __call__ self y_true y_pred boxes classes =
  Raise (NameError "matched_mask").
Proof.
  intros Hnew. unfold __call__.
  destruct (y_shape y_true) as [[[batch_size width] height] num].
  rewrite Hnew. reflexivity.
Qed.

Lemma vals_box_Tv_box (v : boxv) (l : bool) : vals_box (Tv_box v l) = v.
Proof. destruct v as [[x y] [w h]]. reflexivity. Qed.

(** Some position of two lists holds a pair that passes both tests. *)
Lemma existsb_combine_iff (A B : Type) (f : A -> bool) (g : B -> bool)
    (l1 : list A) (l2 : list B) :
  existsb (fun m => m)
    (map (fun '(m, c) => m && c) (combine (map f l1) (map g l2))) = true <->
  exists n x y,
    nth_error l1 n = Some x /\ nth_error l2 n = Some y /\
    f x = true /\ g y = true.
Proof.
  revert l2. induction l1 as [|x l1 IH]; intros l2.
  - simpl. split; [discriminate|].
    intros (n & x & y & H & _). destruct n; discriminate.
  - destruct l2 as [|y l2].
    + simpl. split; [discriminate|].
      intros (n & x' & y' & _ & H & _). destruct n; discriminate.
    + simpl. rewrite orb_true_iff, andb_true_iff, IH. split.
      * intros [[Hf Hg] | (n & x' & y' & H1 & H2 & H3)].
        -- exists O, x, y. auto.
        -- exists (S n), x', y'. auto.
      * intros (n & x' & y' & H1 & H2 & H3).
        destruct n as [|n]; simpl in H1, H2.
        -- injection H1 as <-. injection H2 as <-. left. exact H3.
        -- right. exists n, x', y'. auto.
Qed.

Lemma cast_bool_val (b : bool) :
  val (stop_gradient (cast_bool b)) = Fin (if b then 1 else 0).
Proof. reflexivity. Qed.

Lemma Fin_one_not_zero : Fin 1 <> Fin 0.
Proof. intros [= H]. lra. Qed.

(** The ignore mask of [build_masks], entry by entry. *)
Lemma ignore_mask_cases (self : Yolo_Loss)
    (pred_boxes : nat -> nat -> nat -> nat -> box)
    (pred_classes : nat -> nat -> nat -> nat -> list tv)
    (boxes : nat -> list box) (classes : nat -> list tv)
    (width height : nat) (b i j a : nat) :
  let ignore_mask :=
    fst (build_masks self pred_boxes pred_classes boxes classes
                     width height) in
  let ignored_by (n : nat) :=
    exists bx c,
      nth_error (boxes b) n = Some bx /\
      nth_error (classes b) n = Some c /\
      xgt (compute_iou (yxyx_to_xcycwh (vals_box bx))
                       (vals_box (pred_boxes b i j a)))
          (Fin (_ignore_thresh self)) = true /\
      xeq (val c) (Fin (INR (argmax (map val (pred_classes b i j a)))))
        = true in
  (val (ignore_mask b i j a) = Fin 0 <-> exists n, ignored_by n) /\
  (val (ignore_mask b i j a) = Fin 1 <-> ~ exists n, ignored_by n).
Proof.
  intros ignore_mask ignored_by.
  subst ignore_mask. unfold build_masks. cbn [fst].
  rewrite cast_bool_val.
  match goal with
  | |- context [existsb _ ?l] => set (found := existsb (fun m => m) l)
  end.
  assert (Hfound : found = true <-> exists n, ignored_by n).
  { subst found. rewrite existsb_combine_iff.
    subst ignored_by. cbv beta.
    split.
    - intros (n & u & c & H1 & H2 & H3 & H4).
      rewrite !nth_error_map in H1.
      destruct (nth_error (boxes b) n) as [bx|] eqn:Hbx; [|discriminate].
      injection H1 as <-.
      exists n, bx, c. repeat split; auto.
      unfold box_op in H3; cbn [val] in H3.
      rewrite vals_box_Tv_box in H3. exact H3.
    - intros (n & bx & c & H1 & H2 & H3 & H4).
      exists n. eexists. exists c.
      rewrite !nth_error_map, H1. cbn [option_map].
      repeat split; auto.
      unfold box_op; cbn [val]. rewrite vals_box_Tv_box. exact H3. }
  destruct found; simpl; split; split.
  - intros _; apply Hfound; reflexivity.
  - reflexivity.
  - intros H. exfalso. symmetry in H. apply Fin_one_not_zero; exact H.
  - intros H. exfalso. apply H, Hfound. reflexivity.
  - intros H; exfalso; apply Fin_one_not_zero; exact H.
  - intros H. apply Hfound in H. discriminate.
  - intros _ H. apply Hfound in H. discriminate.
  - reflexivity.
Qed.

(** C5.  The ignore-mask entry of a prediction is 0 or 1; it is 0 exactly
    when some instance of the sample has an IoU with the predicted box
    above [ignore_thresh] and a class id equal to the argmax of the
    predicted class scores.  An instance of another class never causes the
    prediction to be ignored, whatever its IoU. *)
Theorem ignore_mask_iff (self : Yolo_Loss)
    (pred_boxes : nat -> nat -> nat -> nat -> box)
    (pred_classes : nat -> nat -> nat -> nat -> list tv)
    (boxes : nat -> list box) (classes : nat -> list tv)
    (width height : nat) (b i j a : nat) :
  let ignore_mask :=
    fst (build_masks self pred_boxes pred_classes boxes classes
                     width height) in
  let predicted_class :=
    Fin (INR (argmax (map val (pred_classes b i j a)))) in
  let ignored_by (n : nat) :=
    exists bx c,
      nth_error (boxes b) n = Some bx /\
      nth_error (classes b) n = Some c /\
      xgt (compute_iou (yxyx_to_xcycwh (vals_box bx))
                       (vals_box (pred_boxes b i j a)))
          (Fin (_ignore_thresh self)) = true /\
      xeq (val c) predicted_class = true in
  (val (ignore_mask b i j a) = Fin 0 \/
   val (ignore_mask b i j a) = Fin 1) /\
  (val (ignore_mask b i j a) = Fin 0 <-> exists n, ignored_by n) /\
  (forall n c, nth_error (classes b) n = Some c ->
               xeq (val c) predicted_class = false ->
               ~ ignored_by n).
Proof.
  intros ignore_mask predicted_class ignored_by.
  destruct (ignore_mask_cases self pred_boxes pred_classes boxes classes
              width height b i j a) as [H0 H1].
  cbv zeta in H0, H1. fold predicted_class in H0, H1.
  split; [|split].
  - subst ignore_mask. unfold build_masks. cbn [fst].
    rewrite cast_bool_val.
    match goal with |- context [negb ?e] => destruct e end; simpl; auto.
  - exact H0.
  - intros n c Hc Hne (bx & c' & _ & Hc' & _ & Heq).
    rewrite Hc in Hc'. injection Hc' as <-. congruence.
Qed.

End YoloLossFacts.

(** ** Sums over the cells of a sample *)

Lemma in_cells (width height num i j a : nat) :
  In (i, j, a) (cells width height num) <->
  (i < width)%nat /\ (j < height)%nat /\ (a < num)%nat.
Proof.
  unfold cells. rewrite in_flat_map. split.
  - intros (i' & Hi & H). rewrite in_flat_map in H.
    destruct H as (j' & Hj & H). rewrite in_map_iff in H.
    destruct H as (a' & [= <- <- <-] & Ha).
    rewrite in_seq in Hi, Hj, Ha. lia.
  - intros (Hi & Hj & Ha). exists i. split; [apply in_seq; lia|].
    rewrite in_flat_map. exists j. split; [apply in_seq; lia|].
    rewrite in_map_iff. exists a. split; [reflexivity | apply in_seq; lia].
Qed.

Lemma reduce_sum_zeros (l : list xfloat) :
  Forall (fun v => v = Fin 0) l -> reduce_sum l = Fin 0.
Proof.
  induction 1 as [|v l Hv _ IH]; [reflexivity|].
  simpl. fold (reduce_sum l). rewrite Hv, IH. simpl. f_equal. lra.
Qed.

Lemma reduce_sum_123_zero (width height num : nat)
    (t : nat -> nat -> nat -> tv) :
  (forall i j a, (i < width)%nat -> (j < height)%nat -> (a < num)%nat ->
                 val (t i j a) = Fin 0) ->
  val (reduce_sum_123 width height num t) = Fin 0.
Proof.
  intros H. unfold reduce_sum_123, treduce_sum. cbn [val].
  apply reduce_sum_zeros. rewrite Forall_map, Forall_map, Forall_forall.
  intros [[i j] a] Hin. apply in_cells in Hin. apply H; tauto.
Qed.

Lemma tmul_no_nan_zero (m x : tv) :
  val m = Fin 0 -> val (tmul_no_nan m x) = Fin 0.
Proof.
  intros H. unfold tmul_no_nan, op2, math_ops.mul_no_nan. cbn [val].
  rewrite H. simpl. rdec; [reflexivity | lra].
Qed.

Lemma mul_no_nan_one (x : xfloat) : math_ops.mul_no_nan (Fin 1) x = x.
Proof.
  unfold math_ops.mul_no_nan. simpl. rdec; [lra|].
  destruct x; simpl; unfold inf_times, inf_of; rdec; try lra; try reflexivity.
  f_equal. lra.
Qed.

Section SampleLosses.

Context {box_ops : BoxOps} {keras : KerasLosses} {loss_utils : LossUtils}.

Lemma call_cells_true_conf (self : Yolo_Loss) (y_true : y_true_tensor)
    (y_pred : y_pred_tensor) (boxes : nat -> list box)
    (classes : nat -> list tv) (b i j a : nat) :
  c_true_conf (call_cells self y_true y_pred boxes classes) b i j a =
  stop_gradient (true_conf_of (y_at y_true b i j a)).
Proof.
  unfold call_cells, _get_label_attributes.
  destruct (y_shape y_true) as [[[batch_size width] height] num].
  destruct (GridGenerator_call _ _ _ _) as [grid_points anchor_grid].
  cbv zeta.
  destruct (build_masks _ _ _ _ _ _ _) as [mask_loss true_mask] eqn:Hm.
  destruct (Nat.eqb (_loss_type self) 1);
    [|destruct (Nat.eqb (_loss_type self) 2)];
    cbn [c_true_conf y_at]; unfold true_conf_of, stop_gradient_entry;
    destruct (y_at y_true b i j a) as [[[bx conf] cls] best]; reflexivity.
Qed.

Lemma call_cells_masked (self : Yolo_Loss) (y_true : y_true_tensor)
    (y_pred : y_pred_tensor) (boxes : nat -> list box)
    (classes : nat -> list tv) (b i j a : nat) :
  let c := call_cells self y_true y_pred boxes classes in
  (exists x, c_loss_box c b i j a = tmul_no_nan (c_true_conf c b i j a) x) /\
  (exists x, c_class_loss c b i j a =
             tmul_no_nan (c_true_conf c b i j a) x).
Proof.
  unfold call_cells, _get_label_attributes.
  destruct (y_shape y_true) as [[[batch_size width] height] num].
  destruct (GridGenerator_call _ _ _ _) as [grid_points anchor_grid].
  cbv zeta.
  destruct (build_masks _ _ _ _ _ _ _) as [mask_loss true_mask] eqn:Hm.
  destruct (Nat.eqb (_loss_type self) 1);
    [|destruct (Nat.eqb (_loss_type self) 2)];
    cbn [c_true_conf c_loss_box c_class_loss]; split; eexists; reflexivity.
Qed.

Lemma call_cells_mask (self : Yolo_Loss) (y_true : y_true_tensor)
    (y_pred : y_pred_tensor) (boxes : nat -> list box)
    (classes : nat -> list tv) :
  let c := call_cells self y_true y_pred boxes classes in
  c_mask_loss c =
  fst (build_masks self (c_pred_box c) (c_pred_class c) boxes classes
                   (snd (fst (fst (y_shape y_true))))
                   (snd (fst (y_shape y_true)))).
Proof.
  unfold call_cells, _get_label_attributes.
  destruct (y_shape y_true) as [[[batch_size width] height] num].
  destruct (GridGenerator_call _ _ _ _) as [grid_points anchor_grid].
  cbv zeta.
  destruct (build_masks _ _ _ _ _ _ _) as [mask_loss true_mask] eqn:Hm.
  destruct (Nat.eqb (_loss_type self) 1);
    [|destruct (Nat.eqb (_loss_type self) 2)];
    cbn [c_mask_loss c_pred_box c_pred_class fst snd]; rewrite Hm;
    reflexivity.
Qed.

Lemma legacy_conf_loss_no_object (c : cell_terms) (b i j a : nat) :
  val (c_true_conf c b i j a) = Fin 0 ->
  (val (c_mask_loss c b i j a) = Fin 0 \/
   val (c_mask_loss c b i j a) = Fin 1) ->
  val (legacy_conf_loss c b i j a) =
  math_ops.mul_no_nan
    (val (c_mask_loss c b i j a))
    (binary_crossentropy true 0 (Fin 0) (val (c_pred_conf c b i j a))).
Proof.
  intros Hconf Hmask. unfold legacy_conf_loss, tmul_no_nan, op2, stop_gradient.
  cbn [val]. rewrite Hconf.
  destruct Hmask as [-> | ->]; simpl; do 2 f_equal; lra.
Qed.

(** What the legacy path returns. *)
Lemma call_legacy_returns (self : Yolo_Loss) (y_true : y_true_tensor)
    (y_pred : y_pred_tensor) (boxes : nat -> list box)
    (classes : nat -> list tv) :
  _new_cords self = false ->
  let c := call_cells self y_true y_pred boxes classes in
  let batch_size := fst (fst (fst (y_shape y_true))) in
  let width := snd (fst (fst (y_shape y_true))) in
  let height := snd (fst (y_shape y_true)) in
  let num := snd (y_shape y_true) in
  let batch_mean (t : nat -> nat -> nat -> nat -> tv) :=
    treduce_mean (map (fun b => reduce_sum_123 width height num (t b))
                      (seq 0 batch_size)) in
  exists loss,
    __call__ self y_true y_pred boxes classes =
    Return (loss,
            batch_mean (c_loss_box c),
            batch_mean (legacy_conf_loss c),
            batch_mean (c_class_loss c),
            avgiou (y_shape y_true)
              (fun b i j a => (c_iou c b i j a * c_true_conf c b i j a)%tv)
              (c_true_conf c),
            avgiou (y_shape y_true)
              (fun b i j a =>
                 (tsigmoid (c_pred_conf c b i j a)
                  * c_true_conf c b i j a)%tv)
              (c_true_conf c),
            recall (y_shape y_true) (c_pred_conf c) (c_true_conf c) 0.5).
Proof.
  intros Hnew. unfold __call__.
  destruct (y_shape y_true) as [[[batch_size width] height] num].
  cbn [fst snd]. rewrite Hnew. cbv zeta. eexists. reflexivity.
Qed.

(** C7 (as amended).  For a sample whose objectness indicator is zero at
    every cell and anchor, the box sum and the class sum of the sample are
    exactly zero, whatever the loss type.  Its objectness loss is, per
    cell, the ignore mask times the cross-entropy against the target 0:
    only the negative branch.  A prediction excused by an instance of the
    sample (IoU above [ignore_thresh], same predicted class) contributes
    0; every other prediction is a true negative.  On the legacy path the
    call returns the batch means of these per-sample sums. *)
Theorem no_object_sample_losses (self : Yolo_Loss) (y_true : y_true_tensor)
    (y_pred : y_pred_tensor) (boxes : nat -> list box)
    (classes : nat -> list tv) (b : nat) :
  let '(batch_size, width, height, num) := y_shape y_true in
  let c := call_cells self y_true y_pred boxes classes in
  (forall i j a, (i < width)%nat -> (j < height)%nat -> (a < num)%nat ->
                 val (true_conf_of (y_at y_true b i j a)) = Fin 0) ->
  val (reduce_sum_123 width height num (c_loss_box c b)) = Fin 0 /\
  val (reduce_sum_123 width height num (c_class_loss c b)) = Fin 0 /\
  (forall i j a, (i < width)%nat -> (j < height)%nat -> (a < num)%nat ->
    let true_negative :=
      binary_crossentropy true 0 (Fin 0) (val (c_pred_conf c b i j a)) in
    val (legacy_conf_loss c b i j a) =
      math_ops.mul_no_nan (val (c_mask_loss c b i j a)) true_negative /\
    ((exists n, excuses self c boxes classes b i j a n) ->
     val (legacy_conf_loss c b i j a) = Fin 0) /\
    ((~ exists n, excuses self c boxes classes b i j a n) ->
     val (legacy_conf_loss c b i j a) = true_negative)) /\
  (_new_cords self = false ->
   let batch_mean (t : nat -> nat -> nat -> nat -> tv) :=
     treduce_mean (map (fun b' => reduce_sum_123 width height num (t b'))
                       (seq 0 batch_size)) in
   exists loss avg_iou avg_obj recall50,
     __call__ self y_true y_pred boxes classes =
     Return (loss, batch_mean (c_loss_box c),
             batch_mean (legacy_conf_loss c), batch_mean (c_class_loss c),
             avg_iou, avg_obj, recall50)).
Proof.
  destruct (y_shape y_true) as [[[batch_size width] height] num] eqn:Hshape.
  intros c Hzero.
  assert (Hconf : forall i j a,
            (i < width)%nat -> (j < height)%nat -> (a < num)%nat ->
            val (c_true_conf c b i j a) = Fin 0).
  { intros i j a Hi Hj Ha. subst c. rewrite call_cells_true_conf.
    cbn [val stop_gradient]. apply Hzero; assumption. }
  split; [|split; [|split]].
  - apply reduce_sum_123_zero. intros i j a Hi Hj Ha.
    destruct (call_cells_masked self y_true y_pred boxes classes b i j a)
      as [[x Hx] _].
    fold c in Hx. rewrite Hx. apply tmul_no_nan_zero, Hconf; assumption.
  - apply reduce_sum_123_zero. intros i j a Hi Hj Ha.
    destruct (call_cells_masked self y_true y_pred boxes classes b i j a)
      as [_ [x Hx]].
    fold c in Hx. rewrite Hx. apply tmul_no_nan_zero, Hconf; assumption.
  - intros i j a Hi Hj Ha true_negative.
    pose proof (call_cells_mask self y_true y_pred boxes classes) as Hm.
    cbv zeta in Hm. fold c in Hm. rewrite Hshape in Hm. cbn [fst snd] in Hm.
    destruct (ignore_mask_cases self (c_pred_box c) (c_pred_class c)
                boxes classes width height b i j a) as [H0 H1].
    cbv zeta in H0, H1. rewrite <- Hm in H0, H1.
    fold (excuses self c boxes classes b i j a) in H0, H1.
    assert (Hcases : val (c_mask_loss c b i j a) = Fin 0 \/
                     val (c_mask_loss c b i j a) = Fin 1).
    { rewrite Hm. unfold build_masks. cbn [fst]. rewrite cast_bool_val.
      match goal with |- context [negb ?e] => destruct e end; simpl; auto. }
    pose proof (legacy_conf_loss_no_object c b i j a (Hconf i j a Hi Hj Ha)
                  Hcases) as Hloss.
    fold true_negative in Hloss.
    split; [exact Hloss|]. split.
    + intros Hex. apply H0 in Hex. rewrite Hloss, Hex.
      unfold math_ops.mul_no_nan. simpl. rdec; [reflexivity | lra].
    + intros Hno. apply H1 in Hno. rewrite Hloss, Hno.
      apply mul_no_nan_one.
  - intros Hnew batch_mean.
    destruct (call_legacy_returns self y_true y_pred boxes classes Hnew)
      as [loss Hcall].
    cbv zeta in Hcall. rewrite Hshape in Hcall. cbn [fst snd] in Hcall.
    do 4 eexists. exact Hcall.
Qed.

End SampleLosses.

(** ** The returned tuple *)

Section ReturnedTuple.

Context {box_ops : BoxOps} {keras : KerasLosses} {loss_utils : LossUtils}.

Lemma avgiou_detached (shape : nat * nat * nat * nat)
    (iou true_conf : nat -> nat -> nat -> nat -> tv) :
  live (avgiou shape iou true_conf) = false.
Proof. reflexivity. Qed.

Lemma recall_detached (shape : nat * nat * nat * nat)
    (pred_conf true_conf : nat -> nat -> nat -> nat -> tv) (pct : R) :
  live (recall shape pred_conf true_conf pct) = false.
Proof. destruct shape as [[[batch_size width] height] num]. reflexivity. Qed.

Lemma live_reduce_sum_123 (width height num : nat)
    (t : nat -> nat -> nat -> tv) (i j a : nat) :
  (i < width)%nat -> (j < height)%nat -> (a < num)%nat ->
  live (t i j a) = true ->
  live (reduce_sum_123 width height num t) = true.
Proof.
  intros Hw Hh Hn Hl. unfold reduce_sum_123, treduce_sum. cbn [live].
  apply existsb_exists. exists (t i j a). split; [|exact Hl].
  apply in_map_iff. exists (i, j, a). split; [reflexivity|].
  apply in_cells. auto.
Qed.

Lemma live_batch_mean (batch_size width height num : nat)
    (t : nat -> nat -> nat -> nat -> tv) (b i j a : nat) :
  (b < batch_size)%nat -> (i < width)%nat -> (j < height)%nat ->
  (a < num)%nat ->
  live (t b i j a) = true ->
  live (treduce_mean (map (fun b => reduce_sum_123 width height num (t b))
                          (seq 0 batch_size))) = true.
Proof.
  intros Hb Hw Hh Hn Hl. unfold treduce_mean. cbn [live].
  apply existsb_exists. exists (reduce_sum_123 width height num (t b)).
  split; [|apply (live_reduce_sum_123 _ _ _ _ i j a); assumption].
  apply in_map_iff. exists b. split; [reflexivity | apply in_seq; lia].
Qed.

Lemma live_box_decoded (w h : tv) (u : box) (a g : vec2) (s n : R)
    (d : xfloat) :
  live_box u = true ->
  let r := get_predicted_box w h u a g s n d in
  live_box (snd r) = true /\
  (live (fst (fst (fst r))) || live (snd (fst (fst r)))
   || live (fst (snd (fst r))) || live (snd (snd (fst r)))) = true.
Proof.
  destruct u as [[[vx lx] [vy ly]] [[vw lw] [vh lh]]].
  unfold live_box, get_predicted_box, box_gradient_trap. cbn.
  intros H. rewrite !orb_false_r.
  destruct lx, ly, lw, lh; try discriminate; cbn;
    rewrite ?orb_true_r; auto.
Qed.

(** In a cell whose prediction carries gradient, the three loss terms
    carry gradient too. *)
Lemma call_cells_live (self : Yolo_Loss) (y_true : y_true_tensor)
    (y_pred : y_pred_tensor) (boxes : nat -> list box)
    (classes : nat -> list tv) (b i j a : nat) :
  legacy_decoder self ->
  pred_attached (y_pred b i j a) ->
  let c := call_cells self y_true y_pred boxes classes in
  live (c_loss_box c b i j a) = true /\
  live (legacy_conf_loss c b i j a) = true /\
  live (c_class_loss c b i j a) = true.
Proof.
  intros Hdec (Hbox & Hconf & p & rest & Hcls & Hp).
  unfold legacy_conf_loss, call_cells, _get_label_attributes.
  destruct (y_shape y_true) as [[[batch_size width] height] num].
  destruct (GridGenerator_call _ _ _ _) as [grid_points anchor_grid].
  cbv zeta.
  destruct (build_masks _ _ _ _ _ _ _) as [mask_loss true_mask] eqn:Hm.
  assert (Hclass : forall t,
    live (tmul_no_nan t
      (treduce_sum
         (map (fun '(t0, p0) =>
                 op2 (binary_crossentropy false (_label_smoothing self)) t0 p0)
              (combine
                 (one_hot (cast_int32 (val (snd (fst (stop_gradient_entry
                               (y_at y_true b i j a))))))
                    (List.length
                       (fst (class_gradient_trap
                               (map tsigmoid (snd (y_pred b i j a)))
                               (_cls_normalizer self)))))
                 (fst (class_gradient_trap
                         (map tsigmoid (snd (y_pred b i j a)))
                         (_cls_normalizer self))))))) = true).
  { intros t. rewrite Hcls. cbn. rewrite Hp. cbn. apply orb_true_r. }
  pose proof (live_box_decoded (constant (INR width)) (constant (INR height))
                (fst (fst (y_pred b i j a)))
                (stop_gradient2 (anchor_grid a))
                (stop_gradient2 (grid_points i j))
                (_scale_x_y self) (_iou_normalizer self) (_max_delta self)
                Hbox) as [Hd1 Hd2].
  cbv zeta in Hd1, Hd2. rewrite <- Hdec in Hd1, Hd2.
  destruct (Nat.eqb (_loss_type self) 1);
    [|destruct (Nat.eqb (_loss_type self) 2)];
    cbn [c_true_conf c_loss_box c_class_loss c_pred_conf c_mask_loss
         y_at]; (split; [|split; [|apply Hclass]]).
  - unfold tmul_no_nan, box_op2. cbn [live op2 snd constant].
    rewrite Hd1, !orb_true_r. reflexivity.
  - unfold tmul_no_nan, obj_gradient_trap. cbn [live op2 fst].
    rewrite Hconf, !orb_true_r. reflexivity.
  - unfold tmul_no_nan, box_op2. cbn [live op2 snd constant].
    rewrite Hd1, !orb_true_r. reflexivity.
  - unfold tmul_no_nan, obj_gradient_trap. cbn [live op2 fst].
    rewrite Hconf, !orb_true_r. reflexivity.
  - unfold tmul_no_nan, treduce_sum, tsquare, op1.
    cbn [live op2 existsb map].
    rewrite !orb_false_r.
    match goal with |- ?g = true =>
      match type of Hd2 with ?h = true =>
        assert (Hsub : h = true -> g = true) end end.
    { clear. destruct (_decode_boxes _ _ _ _ _ _) as [[[x y] [w h]] bx].
      cbn [fst snd]. unfold _scale_ground_truth_box. cbn.
      destruct (live x), (live y), (live w), (live h); cbn;
        rewrite ?orb_true_r; auto; discriminate. }
    apply Hsub, Hd2.
  - unfold tmul_no_nan, obj_gradient_trap. cbn [live op2 fst].
    rewrite Hconf, !orb_true_r. reflexivity.
Qed.

End ReturnedTuple.

Section ReturnedTupleClaims.

Context {box_ops : BoxOps} {keras : KerasLosses} {loss_utils : LossUtils}.

(** C2 (as amended).  On the legacy path a call on a ground-truth
    tensor of shape [[batch, width, height, num]] returns the seven-tuple
    (total_loss, box_loss, objectness_loss, class_loss, avg_iou,
    avg_objectness, recall50).  The three sub-losses are the batch means
    of the per-sample sums of the box, objectness and class terms; the
    total loss is the batch mean, or with [use_reduction_sum] the batch
    sum, of the per-sample class + objectness + box sums.  The three
    metrics are detached from the gradient graph.  The sub-losses are not:
    for an object built by the legacy path of [__init__], as soon as one
    prediction of the tensor carries gradient, box_loss, objectness_loss
    and class_loss carry gradient, like total_loss. *)
Theorem call_returns_seven (self : Yolo_Loss) (y_true : y_true_tensor)
    (y_pred : y_pred_tensor) (boxes : nat -> list box)
    (classes : nat -> list tv) (batch_size width height num : nat) :
  _new_cords self = false ->
  y_shape y_true = (batch_size, width, height, num) ->
  let c := call_cells self y_true y_pred boxes classes in
  let per_sample (t : nat -> nat -> nat -> nat -> tv) (b : nat) :=
    reduce_sum_123 width height num (t b) in
  let total (b : nat) :=
    (per_sample (c_class_loss c) b + per_sample (legacy_conf_loss c) b
     + per_sample (c_loss_box c) b)%tv in
  let batch := seq 0 batch_size in
  let loss :=
    if _use_reduction_sum self then treduce_sum (map total batch)
    else treduce_mean (map total batch) in
  let loss_box := treduce_mean (map (per_sample (c_loss_box c)) batch) in
  let conf_loss :=
    treduce_mean (map (per_sample (legacy_conf_loss c)) batch) in
  let class_loss := treduce_mean (map (per_sample (c_class_loss c)) batch) in
  exists avg_iou avg_obj recall50,
    __call__ self y_true y_pred boxes classes =
    Return (loss, loss_box, conf_loss, class_loss, avg_iou, avg_obj,
            recall50) /\
    live avg_iou = false /\ live avg_obj = false /\ live recall50 = false /\
    (legacy_decoder self ->
     forall b i j a,
       (b < batch_size)%nat -> (i < width)%nat -> (j < height)%nat ->
       (a < num)%nat ->
       pred_attached (y_pred b i j a) ->
       live loss = true /\ live loss_box = true /\ live conf_loss = true /\
       live class_loss = true).
Proof.
  intros Hnew Hshape c per_sample total batch loss loss_box conf_loss
    class_loss.
  unfold __call__. rewrite Hshape, Hnew. fold c. cbv zeta.
  do 3 eexists. split; [reflexivity|].
  split; [apply avgiou_detached|].
  split; [apply avgiou_detached|].
  split; [apply recall_detached|].
  intros Hdec b i j a Hb Hi Hj Ha Hatt.
  destruct (call_cells_live self y_true y_pred boxes classes b i j a
              Hdec Hatt) as (H1 & H2 & H3).
  fold c in H1, H2, H3.
  assert (L1 : live loss_box = true)
    by (apply (live_batch_mean _ _ _ _ _ b i j a); assumption).
  assert (L2 : live conf_loss = true)
    by (apply (live_batch_mean _ _ _ _ _ b i j a); assumption).
  assert (L3 : live class_loss = true)
    by (apply (live_batch_mean _ _ _ _ _ b i j a); assumption).
  split; [|auto].
  assert (Ht : live (total b) = true).
  { subst total per_sample. cbn [live op2].
    rewrite (live_reduce_sum_123 _ _ _ (c_loss_box c b) i j a)
      by assumption.
    apply orb_true_r. }
  assert (Hex : existsb live (map total batch) = true).
  { apply existsb_exists. exists (total b). split; [|exact Ht].
    apply in_map. apply in_seq. lia. }
  subst loss. destruct (_use_reduction_sum self); exact Hex.
Qed.

End ReturnedTupleClaims.

(** ** The consumer of the tuple *)

(** Six names cannot be bound to seven components. *)
Lemma build_losses_seven_items (f : callable) (key : string)
    (output labels : pyobj) (rest : list (string * pyobj))
    (a b c d e g h : tv) :
  f [labels; output] = Return [a; b; c; d; e; g; h] ->
  build_losses (fun _ => Some f) ((key, output) :: rest) labels =
  Raise (ValueError "values to unpack (expected 6)").
Proof.
  intros Hf. unfold build_losses. cbn [build_losses_loop bind].
  rewrite Hf. reflexivity.
Qed.

(** A [Yolo_Loss] object called with the two arguments of
    [build_losses]. *)
Lemma build_losses_two_arguments {box_ops : BoxOps} {keras : KerasLosses}
    {loss_utils : LossUtils} (self : Yolo_Loss) (key : string)
    (keys : list string) (y_pred : y_pred_tensor)
    (rest : list (string * pyobj)) :
  build_losses (fun _ => Some (Yolo_Loss_callable self))
               ((key, PyPred y_pred) :: rest) (PyLabels keys) =
  Raise (TypeError "__call__() positional arguments").
Proof. reflexivity. Qed.

Lemma example_legacy_decoder : legacy_decoder example_self.
Proof. intros w h u a g. reflexivity. Qed.

Lemma example_pred_attached (b i j a : nat) :
  pred_attached (example_y_pred b i j a).
Proof.
  unfold pred_attached, example_y_pred. cbn.
  repeat split. eexists _, _. split; reflexivity.
Qed.

(** C2, counterexample to the claim as stated.  On the one-cell example
    the call returns its seven components with box_loss, objectness_loss
    and class_loss still attached to the predictions; and [build_losses]
    binds nothing: it calls the per-level loss with two arguments, which a
    [Yolo_Loss] object rejects, and it unpacks into six names, which a
    seven-component result does not fit. *)
Lemma sub_losses_attached_counterexample :
  (exists loss loss_box conf_loss class_loss avg_iou avg_obj recall50,
     @__call__ model_box_ops model_keras model_loss_utils example_self
       example_y_true example_y_pred example_boxes example_classes =
     Return (loss, loss_box, conf_loss, class_loss, avg_iou, avg_obj,
             recall50) /\
     live loss_box = true /\ live conf_loss = true /\
     live class_loss = true) /\
  build_losses
    (fun _ => Some (@Yolo_Loss_callable model_box_ops model_keras
                      model_loss_utils example_self))
    [("3"%string, PyPred example_y_pred)] (PyLabels ["bbox"%string]) =
  Raise (TypeError "__call__() positional arguments") /\
  build_losses
    (fun _ => Some (fun _ =>
       r <- @__call__ model_box_ops model_keras model_loss_utils
              example_self example_y_true example_y_pred example_boxes
              example_classes ;;
       Return (tuple_items r)))
    [("3"%string, PyPred example_y_pred)] (PyLabels ["bbox"%string]) =
  Raise (ValueError "values to unpack (expected 6)").
Proof.
  destruct (@call_legacy_returns model_box_ops model_keras model_loss_utils
              example_self example_y_true example_y_pred example_boxes
              example_classes eq_refl) as [loss Hcall].
  cbv zeta in Hcall.
  destruct (@call_cells_live model_box_ops model_keras model_loss_utils
              example_self example_y_true example_y_pred example_boxes
              example_classes O O O O example_legacy_decoder
              (example_pred_attached O O O O)) as (H1 & H2 & H3).
  split; [|split].
  - do 7 eexists. split; [exact Hcall|].
    change (y_shape example_y_true) with (1%nat, 1%nat, 1%nat, 1%nat).
    cbn [fst snd].
    repeat split; apply (live_batch_mean _ _ _ _ _ O O O O); try lia;
      assumption.
  - apply build_losses_two_arguments.
  - eapply build_losses_seven_items.
    rewrite Hcall. reflexivity.
Qed.

(** ** The one-cell example, evaluated *)

(** Equality of tuples of finite entries, by real arithmetic. *)
Ltac fin_eq :=
  repeat match goal with |- (_, _) = (_, _) => apply f_equal2 end;
  cbn; try reflexivity; apply f_equal; lra.

Lemma model_iou_self (x y w h : R) :
  0 < w -> 0 < h ->
  box_ops_model.compute_iou ((Fin x, Fin y), (Fin w, Fin h))
                            ((Fin x, Fin y), (Fin w, Fin h)) = Fin 1.
Proof.
  intros Hw Hh.
  unfold box_ops_model.compute_iou, box_ops_model.union,
    box_ops_model.intersection, box_ops_model.low, box_ops_model.high.
  cbn [fst snd].
  assert (H2 : forall v, xdiv (Fin v) (Fin 2) = Fin (v / 2)).
  { intros v. simpl. rdec; [lra | reflexivity]. }
  rewrite !H2.
  assert (Hext : forall c s, 0 < s ->
    relu (xsub (xmin (xadd (Fin c) (Fin (s / 2))) (xadd (Fin c) (Fin (s / 2))))
               (xmax (xsub (Fin c) (Fin (s / 2)))
                     (xsub (Fin c) (Fin (s / 2))))) = Fin s).
  { intros c s Hs. xcases; f_equal; lra. }
  rewrite !Hext by assumption.
  assert (0 < w * h) by nra.
  unfold math_ops.divide_no_nan. simpl. rdec; try lra.
  f_equal. field. lra.
Qed.

Lemma call_cells_pred {box_ops : BoxOps} {keras : KerasLosses}
    {loss_utils : LossUtils} (self : Yolo_Loss) (y_true : y_true_tensor)
    (y_pred : y_pred_tensor) (boxes : nat -> list box)
    (classes : nat -> list tv) (b i j a : nat) :
  let c := call_cells self y_true y_pred boxes classes in
  let batch_size := fst (fst (fst (y_shape y_true))) in
  let width := snd (fst (fst (y_shape y_true))) in
  let height := snd (fst (y_shape y_true)) in
  let gen :=
    GridGenerator_call (_anchor_generator self) width height batch_size in
  c_pred_box c b i j a =
    snd (_decode_boxes self (constant (INR width)) (constant (INR height))
           (fst (fst (y_pred b i j a)))
           (stop_gradient2 (snd gen a)) (stop_gradient2 (fst gen i j))) /\
  c_pred_class c b i j a = map tsigmoid (snd (y_pred b i j a)) /\
  c_pred_conf c b i j a = snd (fst (y_pred b i j a)).
Proof.
  unfold call_cells, _get_label_attributes.
  destruct (y_shape y_true) as [[[batch_size width] height] num].
  cbn [fst snd].
  destruct (GridGenerator_call _ _ _ _) as [grid_points anchor_grid].
  cbv zeta.
  destruct (build_masks _ _ _ _ _ _ _) as [mask_loss true_mask] eqn:Hm.
  destruct (Nat.eqb (_loss_type self) 1);
    [|destruct (Nat.eqb (_loss_type self) 2)];
    cbn [c_pred_box c_pred_class c_pred_conf fst snd]; auto.
Qed.

Lemma example_pred_box :
  vals_box
    (c_pred_box (@call_cells model_box_ops model_keras model_loss_utils
                   example_self example_y_true example_y_pred
                   example_boxes example_classes) O O O O) =
  ((Fin 1, Fin 1), (Fin 1, Fin 1)).
Proof.
  destruct (@call_cells_pred model_box_ops model_keras model_loss_utils
              example_self example_y_true example_y_pred example_boxes
              example_classes O O O O) as (-> & _ & _).
  cbn. unfold vals_box, vals2, tsigmoid, texp, op1, op2, stop_gradient,
    constant. cbn.
  rewrite sigmoid_0, exp_0. rdec; try lra.
  fin_eq.
Qed.

Lemma example_excused :
  @excuses model_box_ops model_loss_utils example_self
    (@call_cells model_box_ops model_keras model_loss_utils
       example_self example_y_true example_y_pred example_boxes
       example_classes)
    example_boxes example_classes O O O O O.
Proof.
  unfold excuses. do 2 eexists.
  split; [reflexivity|]. split; [reflexivity|].
  rewrite example_pred_box.
  destruct (@call_cells_pred model_box_ops model_keras model_loss_utils
              example_self example_y_true example_y_pred example_boxes
              example_classes O O O O) as (_ & -> & _).
  split.
  - assert (Hgt : @yxyx_to_xcycwh model_box_ops
              (vals_box ((constant 0.5, constant 0.5),
                         (constant 1.5, constant 1.5))) =
            ((Fin 1, Fin 1), (Fin 1, Fin 1))).
    { cbn. rdec; try lra. fin_eq. }
    rewrite Hgt.
    change (@compute_iou model_box_ops) with box_ops_model.compute_iou.
    rewrite model_iou_self by lra.
    cbn. rdec; [reflexivity | lra].
  - cbn. rdec; [reflexivity | lra].
Qed.

Lemma keras_true_negative_at_zero :
  @binary_crossentropy model_keras true 0 (Fin 0) (Fin 0) = Fin (ln 2).
Proof.
  cbn. unfold keras_binary_crossentropy, relu, xmax. cbn.
  rewrite Rabs_R0, Ropp_0, exp_0. rdec; try lra; cbn; rdec; try lra.
  all: apply f_equal; replace (1 + 1) with 2 by lra; lra.
Qed.

Lemma ln_2_pos : 0 < ln 2.
Proof. rewrite <- ln_1. apply ln_increasing; lra. Qed.

(** C7, counterexample to the claim as stated.  In the one-cell example
    the indicator is zero everywhere, yet the image holds an instance of
    the predicted class that coincides with the decoded box: the
    prediction is excused, its objectness term is 0 and not the
    true-negative cross-entropy [ln 2]. *)
Lemma excused_prediction_counterexample :
  let c := @call_cells model_box_ops model_keras model_loss_utils
             example_self example_y_true example_y_pred example_boxes
             example_classes in
  let true_negative :=
    @binary_crossentropy model_keras true 0 (Fin 0)
      (val (c_pred_conf c O O O O)) in
  (forall i j a, val (true_conf_of (y_at example_y_true O i j a)) = Fin 0) /\
  val (c_mask_loss c O O O O) = Fin 0 /\
  val (@legacy_conf_loss model_keras c O O O O) = Fin 0 /\
  true_negative = Fin (ln 2) /\
  val (@legacy_conf_loss model_keras c O O O O) <> true_negative.
Proof.
  intros c true_negative.
  assert (Hzero : forall i j a,
            val (true_conf_of (y_at example_y_true O i j a)) = Fin 0)
    by reflexivity.
  pose proof (@call_cells_mask model_box_ops model_keras model_loss_utils
                example_self example_y_true example_y_pred example_boxes
                example_classes) as Hm.
  cbv zeta in Hm. fold c in Hm. cbn [example_y_true y_shape fst snd] in Hm.
  destruct (@ignore_mask_cases model_box_ops model_loss_utils example_self
              (c_pred_box c) (c_pred_class c) example_boxes example_classes
              1%nat 1%nat O O O O) as [H0 _].
  cbv zeta in H0. rewrite <- Hm in H0.
  assert (Hmask : val (c_mask_loss c O O O O) = Fin 0).
  { apply H0. exists O. exact example_excused. }
  assert (Hconf : val (c_true_conf c O O O O) = Fin 0).
  { subst c. rewrite call_cells_true_conf. reflexivity. }
  pose proof (@legacy_conf_loss_no_object model_keras c O O O O Hconf (or_introl Hmask))
    as Hloss.
  rewrite Hmask in Hloss.
  assert (Hl0 : val (@legacy_conf_loss model_keras c O O O O) = Fin 0).
  { rewrite Hloss. unfold math_ops.mul_no_nan. simpl.
    destruct (Req_dec_T 0 0); [reflexivity | lra]. }
  assert (Htn : true_negative = Fin (ln 2)).
  { subst true_negative.
    destruct (@call_cells_pred model_box_ops model_keras model_loss_utils
                example_self example_y_true example_y_pred example_boxes
                example_classes O O O O) as (_ & _ & Hpc).
    fold c in Hpc. rewrite Hpc. apply keras_true_negative_at_zero. }
  repeat split; auto.
  rewrite Hl0, Htn. intros [= H]. pose proof ln_2_pos. lra.
Qed.

(** ** Ranking by confidence *)

Lemma xlt_asym (a b : xfloat) : xlt a b = true -> xlt b a = false.
Proof.
  destruct a, b; simpl; try discriminate; try reflexivity.
  rdec; try reflexivity; try discriminate. lra.
Qed.

Lemma insert_desc_perm (x : xfloat * nat) (l : list (xfloat * nat)) :
  Permutation (insert_desc x l) (x :: l).
Proof.
  induction l as [|y t IH]; simpl; [reflexivity|].
  destruct (xlt (fst x) (fst y)); [|reflexivity].
  rewrite IH. apply perm_swap.
Qed.

Lemma sort_desc_perm (l : list (xfloat * nat)) : Permutation (sort_desc l) l.
Proof.
  induction l as [|x t IH]; simpl; [reflexivity|].
  rewrite insert_desc_perm. apply perm_skip, IH.
Qed.

Lemma sort_desc_length (l : list (xfloat * nat)) :
  List.length (sort_desc l) = List.length l.
Proof. apply Permutation_length, sort_desc_perm. Qed.

Lemma insert_desc_hd (x : xfloat * nat) (l : list (xfloat * nat))
    (z : xfloat * nat) :
  HdRel not_below z l -> not_below z x -> HdRel not_below z (insert_desc x l).
Proof.
  intros Hl Hx. destruct l as [|y t]; simpl.
  - constructor. exact Hx.
  - destruct (xlt (fst x) (fst y)).
    + inversion Hl; subst. constructor. assumption.
    + constructor. exact Hx.
Qed.

Lemma insert_desc_sorted (x : xfloat * nat) (l : list (xfloat * nat)) :
  Sorted not_below l -> Sorted not_below (insert_desc x l).
Proof.
  induction 1 as [|y t Hs IH Hhd]; simpl.
  - repeat constructor.
  - destruct (xlt (fst x) (fst y)) eqn:Hxy.
    + constructor; [exact IH|].
      apply insert_desc_hd; [exact Hhd|].
      unfold not_below. apply xlt_asym, Hxy.
    + constructor; [constructor; assumption|].
      constructor. exact Hxy.
Qed.

Lemma sort_desc_sorted (l : list (xfloat * nat)) :
  Sorted not_below (sort_desc l).
Proof.
  induction l as [|x t IH]; simpl; [constructor|].
  apply insert_desc_sorted, IH.
Qed.

Lemma sorted_firstn {A : Type} (R : A -> A -> Prop) (l : list A) (k : nat) :
  Sorted R l -> Sorted R (firstn k l).
Proof.
  intros H. revert k. induction H as [|x t Hs IH Hhd]; intros k.
  - rewrite firstn_nil. constructor.
  - destruct k as [|k]; simpl; [constructor|].
    constructor; [apply IH|].
    destruct Hhd as [|y t' Hxy]; [rewrite firstn_nil; constructor|].
    destruct k; simpl; constructor. exact Hxy.
Qed.

Lemma sorted_map_fst (l : list (xfloat * nat)) :
  Sorted not_below l ->
  Sorted (fun a b => xlt a b = false) (map fst l).
Proof.
  induction 1 as [|x t Hs IH Hhd]; simpl; constructor; [exact IH|].
  destruct Hhd; simpl; constructor. assumption.
Qed.

Lemma xlt_false_xle (x y : xfloat) :
  is_nan x = false -> is_nan y = false ->
  xlt x y = false -> xle y x = true.
Proof.
  destruct x, y; simpl; try discriminate; try reflexivity; intros _ _.
  rdec; try discriminate; try reflexivity. lra.
Qed.

Lemma xle_trans (x y z : xfloat) :
  xle x y = true -> xle y z = true -> xle x z = true.
Proof.
  destruct x, y, z; simpl; try discriminate; try reflexivity.
  rdec; try discriminate; try reflexivity. lra.
Qed.

(** Without NaN, a ranking in which no entry is below its successor is
    descending throughout. *)
Lemma sorted_descending (l : list xfloat) :
  Sorted (fun x y => xlt x y = false) l ->
  forallb (fun x => negb (is_nan x)) l = true ->
  StronglySorted (fun x y => xle y x = true) l.
Proof.
  induction 1 as [|x t Hs IH Hhd]; simpl; [constructor|].
  rewrite andb_true_iff, negb_true_iff. intros [Hx Ht].
  specialize (IH Ht). constructor; [exact IH|].
  destruct Hhd as [|y t' Hxy]; [constructor|].
  simpl in Ht. rewrite andb_true_iff, negb_true_iff in Ht.
  destruct Ht as [Hy Ht'].
  pose proof (xlt_false_xle x y Hx Hy Hxy) as Hyx.
  constructor; [exact Hyx|].
  apply StronglySorted_inv in IH. destruct IH as [_ Hall].
  rewrite Forall_forall in Hall |- *.
  intros z Hz. apply (xle_trans z y x); [apply Hall, Hz | exact Hyx].
Qed.

(** ** [top_k], [gather_nd] and [sort_drop] *)

Lemma in_combine_seq (values : list xfloat) (s : nat) (v : xfloat) (i : nat) :
  In (v, i) (combine values (seq s (List.length values))) ->
  (s <= i < s + List.length values)%nat.
Proof.
  intros H. apply in_combine_r in H. apply in_seq in H. exact H.
Qed.

Lemma in_firstn {A : Type} (k : nat) (l : list A) (x : A) :
  In x (firstn k l) -> In x l.
Proof.
  intros H. rewrite <- (firstn_skipn k l). apply in_or_app. left. exact H.
Qed.

(** The ranking that [top_k] cuts to [k] entries. *)
Lemma top_k_ok (values : list xfloat) (k : nat) :
  (k <= List.length values)%nat ->
  let ranked :=
    firstn k (sort_desc (combine values (seq 0 (List.length values)))) in
  top_k values k = Return (map fst ranked, map snd ranked) /\
  List.length ranked = k /\
  Sorted not_below ranked /\
  Forall (fun p => (snd p < List.length values)%nat) ranked.
Proof.
  intros Hk ranked. unfold top_k.
  apply Nat.leb_le in Hk as Hkb. rewrite Hkb. fold ranked.
  split; [reflexivity|]. split; [|split].
  - subst ranked. rewrite length_firstn, sort_desc_length, length_combine,
      length_seq. lia.
  - apply sorted_firstn, sort_desc_sorted.
  - apply Forall_forall. intros [v i] Hin.
    apply in_firstn in Hin.
    apply (Permutation_in _ (sort_desc_perm _)) in Hin.
    apply in_combine_seq in Hin. simpl. lia.
Qed.

Lemma gather_nd_ok {A : Type} (params : list A) (ind : list nat) (d : A) :
  Forall (fun i => (i < List.length params)%nat) ind ->
  gather_nd params ind = Return (map (fun i => nth i params d) ind).
Proof.
  induction 1 as [|i rest Hi _ IH]; simpl; [reflexivity|].
  destruct (nth_error params i) as [a|] eqn:Ha.
  - rewrite IH. simpl. rewrite (nth_error_nth _ _ d Ha). reflexivity.
  - apply nth_error_None in Ha. lia.
Qed.

Section SortDrop.

Variables A B : Type.
Variables (da : A) (db : B).

Lemma sort_drop_ok (objectness : list xfloat) (box : list A) (cls : list B)
    (k : nat) :
  List.length box = List.length objectness ->
  List.length cls = List.length objectness ->
  (k <= List.length objectness)%nat ->
  let ranked :=
    firstn k (sort_desc (combine objectness
                                 (seq 0 (List.length objectness)))) in
  nms_ops.sort_drop objectness box cls k =
  Return (map fst ranked,
          map (fun p => nth (snd p) box da) ranked,
          map (fun p => nth (snd p) cls db) ranked).
Proof.
  intros Hb Hc Hk ranked. unfold nms_ops.sort_drop.
  destruct (top_k_ok objectness k Hk) as (Htop & _ & _ & Hin).
  fold ranked in Htop, Hin. rewrite Htop. cbn [bind].
  rewrite (gather_nd_ok box (map snd ranked) da).
  2:{ rewrite Forall_map. rewrite Hb. exact Hin. }
  cbn [bind].
  rewrite (gather_nd_ok cls (map snd ranked) db).
  2:{ rewrite Forall_map. rewrite Hc. exact Hin. }
  cbn [bind]. rewrite !map_map. reflexivity.
Qed.

Lemma ranked_rows_combine (objectness : list xfloat) (box : list A)
    (cls : list B) (pre_a : list A) (pre_b : list B) :
  List.length box = List.length objectness ->
  List.length cls = List.length objectness ->
  List.length pre_b = List.length pre_a ->
  map (ranked_row da db (pre_a ++ box) (pre_b ++ cls))
      (combine objectness
               (seq (List.length pre_a) (List.length objectness))) =
  combine objectness (combine box cls).
Proof.
  revert box cls pre_a pre_b.
  induction objectness as [|v t IH]; intros box cls pre_a pre_b Hb Hc Hp;
    [reflexivity|].
  destruct box as [|x box]; [discriminate|].
  destruct cls as [|y cls]; [discriminate|].
  simpl in Hb, Hc. simpl.
  f_equal.
  - unfold ranked_row. simpl.
    rewrite app_nth2 by lia. rewrite Nat.sub_diag.
    rewrite app_nth2 by lia. rewrite <- Hp, Nat.sub_diag. reflexivity.
  - specialize (IH box cls (pre_a ++ [x]) (pre_b ++ [y])).
    rewrite <- !app_assoc in IH. simpl in IH.
    replace (List.length (pre_a ++ [x])) with (S (List.length pre_a)) in IH
      by (rewrite length_app; simpl; lia).
    replace (List.length (pre_b ++ [y])) with (S (List.length pre_b)) in IH
      by (rewrite length_app; simpl; lia).
    apply IH; lia.
Qed.

(** With as many slots as rows, [sort_drop] permutes the rows. *)
Lemma sort_drop_all_perm (objectness : list xfloat) (box : list A)
    (cls : list B) :
  List.length box = List.length objectness ->
  List.length cls = List.length objectness ->
  exists s b c,
    nms_ops.sort_drop objectness box cls (List.length objectness) =
      Return (s, b, c) /\
    List.length s = List.length objectness /\
    List.length b = List.length objectness /\
    List.length c = List.length objectness /\
    Sorted (fun x y => xlt x y = false) s /\
    Permutation (combine s (combine b c))
                (combine objectness (combine box cls)).
Proof.
  intros Hb Hc.
  pose proof (sort_drop_ok objectness box cls (List.length objectness)
                Hb Hc (Nat.le_refl _)) as Hsd.
  destruct (top_k_ok objectness (List.length objectness) (Nat.le_refl _))
    as (_ & Hlen & Hsorted & _).
  cbv zeta in Hsd, Hlen, Hsorted.
  set (ranked := firstn (List.length objectness)
                   (sort_desc (combine objectness
                      (seq 0 (List.length objectness))))) in *.
  do 3 eexists. split; [exact Hsd|].
  rewrite !length_map.
  repeat split; try exact Hlen.
  - apply sorted_map_fst, Hsorted.
  - assert (Hrows :
      combine (map fst ranked)
        (combine (map (fun p => nth (snd p) box da) ranked)
                 (map (fun p => nth (snd p) cls db) ranked)) =
      map (ranked_row da db box cls) ranked).
    { clear. induction ranked as [|p t IH]; simpl; [reflexivity|].
      rewrite IH. reflexivity. }
    rewrite Hrows.
    rewrite <- (ranked_rows_combine objectness box cls [] [] Hb Hc eq_refl).
    simpl. apply Permutation_map.
    subst ranked. rewrite firstn_all2.
    + apply sort_desc_perm.
    + rewrite sort_desc_length, length_combine, length_seq. lia.
Qed.

End SortDrop.

(** ** Scaling rows by a 0/1 mask *)

Lemma nth_error_map2 {A B C : Type} (f : A -> B -> C) (l1 : list A)
    (l2 : list B) (j : nat) :
  nth_error (map2 f l1 l2) j =
  match nth_error l1 j, nth_error l2 j with
  | Some a, Some b => Some (f a b)
  | _, _ => None
  end.
Proof.
  unfold map2. revert l2 j. induction l1 as [|a l1 IH]; intros l2 j.
  - destruct j; reflexivity.
  - destruct l2 as [|b l2].
    + destruct j; simpl; [reflexivity|].
      destruct (nth_error l1 j); reflexivity.
    + destruct j; simpl; [reflexivity | apply IH].
Qed.

Lemma length_map2 {A B C : Type} (f : A -> B -> C) (l1 : list A)
    (l2 : list B) :
  List.length (map2 f l1 l2) = Nat.min (List.length l1) (List.length l2).
Proof. unfold map2. rewrite length_map, length_combine. reflexivity. Qed.

Lemma xmul_keep (x : xfloat) : xmul x (Fin (1 - 0)) = x.
Proof.
  destruct x; simpl; unfold inf_times, inf_of; rdec; try lra;
    try reflexivity.
  f_equal. lra.
Qed.

Lemma xmul_drop (x : xfloat) :
  is_finite x = true -> xmul x (Fin (1 - 1)) = Fin 0.
Proof. destruct x; simpl; try discriminate. intros _. f_equal. lra. Qed.

Lemma scale_box_keep (b : boxv) : scale_box b (Fin (1 - 0)) = b.
Proof.
  destruct b as [[x y] [w h]]. unfold scale_box. cbn [fst snd].
  rewrite !xmul_keep. reflexivity.
Qed.

Lemma scale_box_drop (b : boxv) :
  finite_box b = true -> scale_box b (Fin (1 - 1)) = zero_box.
Proof.
  destruct b as [[x y] [w h]]. unfold finite_box, scale_box, zero_box.
  cbn [fst snd]. rewrite !andb_true_iff. intros [[[Hx Hy] Hw] Hh].
  rewrite !xmul_drop by assumption. reflexivity.
Qed.

Lemma Rceil_0 : Rceil 0 = 0.
Proof.
  unfold Rceil. rewrite Ropp_0.
  rewrite <- (Int_part_spec 0 0%Z); [lra | lra].
Qed.

(** The mask of a candidate at or below the threshold. *)
Lemma pre_nms_mask_below (c pre : R) :
  c <= pre -> xceil (relu (xsub (Fin c) (Fin pre))) = Fin 0.
Proof.
  intros H. unfold relu, xmax, xsub. simpl. rdec; simpl.
  - rewrite Rceil_0. reflexivity.
  - replace (c + - pre) with 0 by lra. rewrite Rceil_0. reflexivity.
Qed.

Lemma xmul_zero (x : xfloat) :
  is_finite x = true -> xmul x (Fin 0) = Fin 0.
Proof. destruct x; simpl; try discriminate. intros _. f_equal. lra. Qed.

Lemma scale_box_zero (b : boxv) :
  finite_box b = true -> scale_box b (Fin 0) = zero_box.
Proof.
  destruct b as [[x y] [w h]]. unfold finite_box, scale_box, zero_box.
  cbn [fst snd]. rewrite !andb_true_iff. intros [[[Hx Hy] Hw] Hh].
  rewrite !xmul_zero by assumption. reflexivity.
Qed.

Lemma scores_zero (cl : list xfloat) :
  forallb is_finite cl = true ->
  map (fun s => xmul s (Fin 0)) cl = map (fun _ => Fin 0) cl.
Proof.
  induction cl as [|s cl IH]; simpl; [reflexivity|].
  rewrite andb_true_iff. intros [Hs Hcl].
  rewrite xmul_zero, IH by assumption. reflexivity.
Qed.

Lemma reduce_max_zeros (cl : list xfloat) :
  cl <> [] -> reduce_max (map (fun _ => Fin 0) cl) = Fin 0.
Proof.
  induction cl as [|s cl IH]; [congruence|]. intros _.
  destruct cl as [|s' cl].
  - simpl. unfold xmax. simpl. reflexivity.
  - change (reduce_max (map (fun _ => Fin 0) (s :: s' :: cl)))
      with (xmax (Fin 0) (reduce_max (map (fun _ => Fin 0) (s' :: cl)))).
    rewrite IH by discriminate. unfold xmax. simpl. rdec; [lra|reflexivity].
Qed.

(** ** The stages of [nms] *)

Section NmsFacts.

Variable compute_diou : boxv -> boxv -> xfloat * xfloat.

(** A candidate whose confidence does not exceed the threshold leaves
    the thresholding as an all-zero row. *)
Lemma thresholded_below (boxes : list boxv) (classes : list (list xfloat))
    (confidence : list xfloat) (pre : R) (use_classes : bool)
    (n : nat) (c : R) (bx : boxv) (cl : list xfloat) :
  nth_error confidence n = Some (Fin c) ->
  nth_error boxes n = Some bx ->
  nth_error classes n = Some cl ->
  c <= pre ->
  finite_box bx = true ->
  forallb is_finite cl = true ->
  (use_classes = true -> cl <> []) ->
  let '(confidence', boxes', classes') :=
    nms_ops.thresholded boxes classes confidence pre use_classes in
  nth_error confidence' n = Some (Fin 0) /\
  nth_error boxes' n = Some zero_box /\
  nth_error classes' n = Some (map (fun _ => Fin 0) cl).
Proof.
  intros Hc Hb Hcl Hle Hfb Hfc Hne.
  unfold nms_ops.thresholded.
  assert (Hmask : nth_error (nms_ops.pre_nms_mask confidence pre) n =
                  Some (Fin 0)).
  { unfold nms_ops.pre_nms_mask. rewrite nth_error_map, Hc.
    cbn [option_map].
    rewrite pre_nms_mask_below by assumption. reflexivity. }
  assert (Hclasses :
    nth_error (map2 (fun row m => map (fun s => xmul s m) row) classes
                 (nms_ops.pre_nms_mask confidence pre)) n =
    Some (map (fun _ => Fin 0) cl)).
  { rewrite nth_error_map2, Hcl, Hmask, scores_zero by assumption.
    reflexivity. }
  split; [|split].
  - destruct use_classes.
    + rewrite nth_error_map, Hclasses. simpl.
      rewrite reduce_max_zeros by auto. reflexivity.
    + rewrite nth_error_map2, Hc, Hmask. simpl. do 2 f_equal. lra.
  - rewrite nth_error_map2, Hb, Hmask, scale_box_zero by assumption.
    reflexivity.
  - exact Hclasses.
Qed.

Lemma thresholded_lengths (boxes : list boxv)
    (classes : list (list xfloat)) (confidence : list xfloat) (pre : R)
    (use_classes : bool) :
  List.length boxes = List.length confidence ->
  List.length classes = List.length confidence ->
  let '(confidence', boxes', classes') :=
    nms_ops.thresholded boxes classes confidence pre use_classes in
  List.length confidence' = List.length confidence /\
  List.length boxes' = List.length confidence /\
  List.length classes' = List.length confidence.
Proof.
  intros Hb Hc. unfold nms_ops.thresholded.
  assert (Hm : List.length (nms_ops.pre_nms_mask confidence pre) =
               List.length confidence)
    by (unfold nms_ops.pre_nms_mask; apply length_map).
  destruct use_classes; rewrite ?length_map, !length_map2, Hm; lia.
Qed.

Lemma in_combine_seq_map {X Y : Type} (g : X -> Y) (l : list X) (s i : nat)
    (y : Y) :
  In (i, y) (combine (seq s (List.length l)) (map g l)) <->
  exists x, (s <= i)%nat /\ nth_error l (i - s) = Some x /\ y = g x.
Proof.
  revert s. induction l as [|x l IH]; intros s; simpl.
  - split; [tauto|]. intros (x & _ & H & _). destruct (i - s)%nat; discriminate.
  - rewrite IH. split.
    + intros [[= <- <-] | (x' & Hs & Hn & ->)].
      * exists x. rewrite Nat.sub_diag. auto.
      * exists x'. split; [lia|]. split; [|reflexivity].
        replace (i - s)%nat with (S (i - S s)) by lia. exact Hn.
    + intros (x' & Hs & Hn & ->).
      destruct (Nat.eq_dec i s) as [->|Hne].
      * rewrite Nat.sub_diag in Hn. injection Hn as <-. left. reflexivity.
      * right. exists x'. split; [lia|]. split; [|reflexivity].
        replace (i - s)%nat with (S (i - S s)) in Hn by lia. exact Hn.
Qed.

(** Slot [j] is suppressed exactly when a slot of lower index has a DIoU
    of at least the threshold with it. *)
Lemma suppressed_iff (boxes : list boxv) (t : R) (j : nat) :
  nms_ops.suppressed compute_diou boxes t j = true <->
  exists i bi bj,
    (i < j)%nat /\ nth_error boxes i = Some bi /\
    nth_error boxes j = Some bj /\
    xge (snd (compute_diou bi bj)) (Fin t) = true.
Proof.
  unfold nms_ops.suppressed, nms_ops.aggregated_comparitive_iou.
  rewrite existsb_exists. split.
  - intros ([i row] & Hin & Hrow).
    apply in_combine_seq_map in Hin. destruct Hin as (bi & _ & Hi & ->).
    rewrite Nat.sub_0_r in Hi.
    apply andb_true_iff in Hrow. destruct Hrow as [Hlt Hge].
    apply Nat.ltb_lt in Hlt.
    destruct (nth_error boxes j) as [bj|] eqn:Hj.
    + exists i, bi, bj. repeat split; auto.
      erewrite nth_error_nth in Hge
        by (rewrite nth_error_map, Hj; reflexivity).
      exact Hge.
    + apply nth_error_None in Hj.
      rewrite nth_overflow in Hge by (rewrite length_map; exact Hj).
      discriminate.
  - intros (i & bi & bj & Hlt & Hi & Hj & Hge).
    exists (i, map (fun b => snd (compute_diou bi b)) boxes). split.
    + apply in_combine_seq_map. exists bi. rewrite Nat.sub_0_r. auto with arith.
    + apply andb_true_iff. split; [apply Nat.ltb_lt; exact Hlt|].
      erewrite nth_error_nth by (rewrite nth_error_map, Hj; reflexivity).
      exact Hge.
Qed.

Lemma nth_error_combine {X Y : Type} (l1 : list X) (l2 : list Y) (j : nat) :
  nth_error (combine l1 l2) j =
  match nth_error l1 j, nth_error l2 j with
  | Some a, Some b => Some (a, b)
  | _, _ => None
  end.
Proof.
  revert l2 j. induction l1 as [|a l1 IH]; intros l2 j.
  - destruct j; reflexivity.
  - destruct l2 as [|b l2].
    + destruct j; simpl; [reflexivity|].
      destruct (nth_error l1 j); reflexivity.
    + destruct j; simpl; [reflexivity | apply IH].
Qed.

Lemma nth_error_rows (confidence : list xfloat) (boxes : list boxv)
    (classes : list xfloat) (j : nat) :
  nth_error (nms_ops.rows confidence boxes classes) j =
  match nth_error confidence j, nth_error boxes j, nth_error classes j with
  | Some c, Some b, Some l => Some (c, (b, l))
  | _, _, _ => None
  end.
Proof.
  unfold nms_ops.rows. rewrite !nth_error_combine.
  destruct (nth_error confidence j), (nth_error boxes j),
    (nth_error classes j); reflexivity.
Qed.

(** The rows that [segment_nms] returns. *)
Lemma segment_nms_rows (boxes : list boxv) (classes confidence : list xfloat)
    (k : nat) (t : R) :
  List.length boxes = k -> List.length classes = k ->
  List.length confidence = k ->
  let '(boxes', classes', confidence') :=
    nms_ops.segment_nms compute_diou boxes classes confidence k t in
  List.length boxes' = k /\ List.length classes' = k /\
  List.length confidence' = k /\
  forall j c b l,
    nth_error (nms_ops.rows confidence boxes classes) j = Some (c, (b, l)) ->
    (nms_ops.suppressed compute_diou boxes t j = false ->
     nth_error (nms_ops.rows confidence' boxes' classes') j =
     Some (c, (b, l))) /\
    (nms_ops.suppressed compute_diou boxes t j = true ->
     is_finite c = true -> finite_box b = true -> is_finite l = true ->
     nth_error (nms_ops.rows confidence' boxes' classes') j =
     Some (Fin 0, (zero_box, Fin 0))).
Proof.
  intros Hb Hc Hs. unfold nms_ops.segment_nms.
  set (raw := map _ (seq 0 k)).
  assert (Hraw : List.length raw = k)
    by (subst raw; rewrite length_map, length_seq; reflexivity).
  rewrite !length_map2, Hraw, Hb, Hc, Hs, !Nat.min_id.
  split; [reflexivity|]. split; [reflexivity|]. split; [reflexivity|].
  intros j c b l Hrow.
  rewrite nth_error_rows in Hrow.
  destruct (nth_error confidence j) as [c'|] eqn:Hjc; [|discriminate].
  destruct (nth_error boxes j) as [b'|] eqn:Hjb; [|discriminate].
  destruct (nth_error classes j) as [l'|] eqn:Hjl; [|discriminate].
  injection Hrow as -> -> ->.
  assert (Hjr : (j < k)%nat)
    by (rewrite <- Hs; apply nth_error_Some; congruence).
  assert (Hrj : nth_error raw j =
         Some (Fin (1 - (if nms_ops.suppressed compute_diou boxes t j
                         then 1 else 0)))).
  { subst raw. rewrite nth_error_map, nth_error_seq.
    rewrite (proj2 (Nat.ltb_lt _ _) Hjr). reflexivity. }
  rewrite nth_error_rows, !nth_error_map2, Hjc, Hjb, Hjl, Hrj.
  split.
  - intros Hsup. rewrite Hsup, !xmul_keep, scale_box_keep. reflexivity.
  - intros Hsup Hfc Hfb Hfl.
    rewrite Hsup, !xmul_drop, scale_box_drop by assumption. reflexivity.
Qed.

(** [nms] without the optional first ranking. *)
Lemma nms_no_limit (boxes : list boxv) (classes : list (list xfloat))
    (confidence : list xfloat) (k : nat) (pre_nms_thresh nms_thresh : R)
    (use_classes : bool) :
  List.length boxes = List.length confidence ->
  List.length classes = List.length confidence ->
  (k <= List.length confidence)%nat ->
  let '(t_confidence, t_boxes, t_classes) :=
    nms_ops.thresholded boxes classes confidence pre_nms_thresh
                        use_classes in
  (forall n c bx cl,
     nth_error confidence n = Some (Fin c) ->
     nth_error boxes n = Some bx ->
     nth_error classes n = Some cl ->
     c <= pre_nms_thresh ->
     finite_box bx = true -> forallb is_finite cl = true ->
     (use_classes = true -> cl <> []) ->
     nth_error t_confidence n = Some (Fin 0) /\
     nth_error t_boxes n = Some zero_box /\
     nth_error t_classes n = Some (map (fun _ => Fin 0) cl)) /\
  exists r_confidence r_boxes r_scores s_boxes s_classes s_confidence
         out_boxes out_classes out_confidence,
    nms_ops.sort_drop t_confidence t_boxes t_classes k =
      Return (r_confidence, r_boxes, r_scores) /\
    let r_classes := map (fun row => Fin (INR (argmax row))) r_scores in
    nms_ops.segment_nms compute_diou r_boxes r_classes r_confidence k
                        nms_thresh =
      (s_boxes, s_classes, s_confidence) /\
    nms_ops.nms compute_diou boxes classes confidence k pre_nms_thresh
                nms_thresh false use_classes =
      Return (out_boxes, out_classes, out_confidence) /\
    List.length out_boxes = k /\ List.length out_classes = k /\
    List.length out_confidence = k /\
    Sorted (fun x y => xlt x y = false) out_confidence /\
    (forallb (fun x => negb (is_nan x)) out_confidence = true ->
     StronglySorted (fun x y => xle y x = true) out_confidence) /\
    Permutation (nms_ops.rows out_confidence out_boxes out_classes)
                (nms_ops.rows s_confidence s_boxes s_classes) /\
    (forall j,
       nms_ops.suppressed compute_diou r_boxes nms_thresh j = true <->
       exists i bi bj,
         (i < j)%nat /\ nth_error r_boxes i = Some bi /\
         nth_error r_boxes j = Some bj /\
         xge (snd (compute_diou bi bj)) (Fin nms_thresh) = true) /\
    (forall j c b l,
       nth_error (nms_ops.rows r_confidence r_boxes r_classes) j =
         Some (c, (b, l)) ->
       (nms_ops.suppressed compute_diou r_boxes nms_thresh j = false ->
        nth_error (nms_ops.rows s_confidence s_boxes s_classes) j =
        Some (c, (b, l))) /\
       (nms_ops.suppressed compute_diou r_boxes nms_thresh j = true ->
        is_finite c = true -> finite_box b = true ->
        nth_error (nms_ops.rows s_confidence s_boxes s_classes) j =
        Some (Fin 0, (zero_box, Fin 0)))).
Proof.
  intros Hb Hc Hk.
  pose proof (thresholded_lengths boxes classes confidence pre_nms_thresh
                use_classes Hb Hc) as Hlen.
  pose proof (fun n c bx cl H1 H2 H3 H4 H5 H6 H7 =>
                thresholded_below boxes classes confidence pre_nms_thresh
                  use_classes n c bx cl H1 H2 H3 H4 H5 H6 H7) as Hbelow.
  unfold nms_ops.nms. cbn [bind].
  destruct (nms_ops.thresholded boxes classes confidence pre_nms_thresh
              use_classes) as [[tc tb] tcl].
  destruct Hlen as (Hl1 & Hl2 & Hl3).
  split; [exact Hbelow|].
  assert (Hk' : (k <= List.length tc)%nat) by lia.
  pose proof (sort_drop_ok boxv (list xfloat) zero_box [] tc tb tcl k
                ltac:(lia) ltac:(lia) Hk') as Hsd.
  destruct (top_k_ok tc k Hk') as (_ & Hrl & _ & _).
  cbv zeta in Hsd, Hrl.
  set (ranked := firstn k (sort_desc (combine tc (seq 0 (List.length tc)))))
    in *.
  set (rs := map fst ranked) in *.
  set (rb := map (fun p => nth (snd p) tb zero_box) ranked) in *.
  set (rscores := map (fun p => nth (snd p) tcl []) ranked) in *.
  set (rl := map (fun row => Fin (INR (argmax row))) rscores).
  assert (Hrs : List.length rs = k) by (subst rs; rewrite length_map; auto).
  assert (Hrb : List.length rb = k) by (subst rb; rewrite length_map; auto).
  assert (Hrl' : List.length rl = k)
    by (subst rl rscores; rewrite !length_map; auto).
  pose proof (segment_nms_rows rb rl rs k nms_thresh Hrb Hrl' Hrs) as Hseg.
  destruct (nms_ops.segment_nms compute_diou rb rl rs k nms_thresh)
    as [[sb sl] ss] eqn:Hsegeq.
  destruct Hseg as (Hsb & Hsl & Hss & Hrows).
  destruct (sort_drop_all_perm boxv xfloat zero_box NaN ss sb sl
              ltac:(lia) ltac:(lia))
    as (os & ob & ol & Hfinal & Hos & Hob & Hol & Hsorted & Hperm).
  rewrite Hss in Hfinal, Hos, Hob, Hol.
  exists rs, rb, rscores, sb, sl, ss, ob, ol, os.
  split; [exact Hsd|]. cbv zeta. fold rl.
  split; [exact Hsegeq|].
  split.
  { rewrite Hsd. cbn [bind]. fold rl. rewrite Hsegeq, Hfinal. reflexivity. }
  split; [exact Hob|]. split; [exact Hol|]. split; [exact Hos|].
  split; [exact Hsorted|].
  split; [apply sorted_descending, Hsorted|].
  split; [exact Hperm|].
  split; [intros j; apply suppressed_iff|].
  intros j c b l Hrow. destruct (Hrows j c b l Hrow) as [Hkeep Hdrop].
  split; [exact Hkeep|].
  intros Hsup Hfc Hfb. apply Hdrop; auto.
  rewrite nth_error_rows in Hrow.
  destruct (nth_error rs j), (nth_error rb j); try discriminate.
  destruct (nth_error rl j) as [l'|] eqn:Hl; [|discriminate].
  injection Hrow as _ _ <-.
  subst rl. rewrite nth_error_map in Hl.
  destruct (nth_error rscores j); [|discriminate].
  injection Hl as <-. reflexivity.
Qed.

End NmsFacts.

(** ** Construction *)

(** C9 (as amended).  [__init__] validates nothing itself.  Whatever the
    loss-type string and the mask, construction fails only when the
    constructor of the grid generator fails, and with that error.
    Otherwise it returns an object whose loss type is 1 for "giou", 2 for
    "ciou" and 0 (mse) for every other string, and whose anchor count is
    the length of the mask, 0 for an empty mask. *)
Theorem init_performs_no_validation {loss_utils : LossUtils}
    (classes : nat) (mask : list nat) (anchors : list (R * R))
    (scale_anchors : R) (num_extras : nat) (ignore_thresh truth_thresh : R)
    (loss_type : string) (iou_normalizer cls_normalizer obj_normalizer : R)
    (use_reduction_sum : bool) (iou_thresh : R) (new_cords : bool)
    (scale_x_y : R) (max_delta : xfloat) (nms_kind : string) (beta_nms : R)
    (path_key : option string) (use_tie_breaker : bool) :
  let constructed :=
    __init__ classes mask anchors scale_anchors num_extras ignore_thresh
      truth_thresh loss_type iou_normalizer cls_normalizer obj_normalizer
      use_reduction_sum iou_thresh new_cords scale_x_y max_delta nms_kind
      beta_nms path_key use_tie_breaker in
  match GridGenerator mask anchors scale_anchors with
  | Return generator =>
      exists self,
        constructed = Return self /\
        _loss_type self =
          (if String.eqb loss_type "giou" then 1%nat
           else if String.eqb loss_type "ciou" then 2%nat
           else 0%nat) /\
        _num self = List.length mask /\
        _masks self = mask /\
        _anchor_generator self = generator
  | Raise e => constructed = Raise e
  end.
Proof.
  unfold __init__.
  destruct (GridGenerator mask anchors scale_anchors) as [generator|e];
    cbn [bind]; [|reflexivity].
  eexists. split; [reflexivity|]. cbn. auto.
Qed.

(** C9, counterexample to the claim as stated.  The loss-type string
    "bogus" is accepted: construction returns the very object built for
    "mse". *)
Lemma unknown_loss_type_counterexample :
  @__init__ model_loss_utils 1 [O] [(1, 1)] 1 0 0.7 1 "bogus" 1 1 1 false
    0.213 false 1 (Fin 10) "greedynms" 0.6 None true =
  Return example_self /\
  _loss_type example_self = 0%nat.
Proof. split; reflexivity. Qed.

(** ** Non-max suppression on too few candidates *)

(** C10, counterexample to the claim as stated.  On an image with one
    candidate and [k = 2], [nms] returns nothing: the ranking raises
    because its input has fewer than [k] entries. *)
Lemma nms_too_few_candidates_counterexample :
  nms_ops.nms box_ops_model.compute_diou_yxyx
    [((Fin 0, Fin 0), (Fin 1, Fin 1))] [[Fin 0.9]] [Fin 0.9]
    2 0.5 0.5 false true =
  Raise (InvalidArgumentError "input must have at least k columns").
Proof. reflexivity. Qed.

(** ** Instances of the theorems at concrete inputs *)

Lemma new_cords_call_raises_witness :
  _new_cords example_self_newcords = true /\
  @__call__ model_box_ops model_keras model_loss_utils example_self_newcords
    example_y_true example_y_pred example_boxes example_classes =
  Raise (NameError "matched_mask").
Proof.
  split; [reflexivity|].
  apply (@new_cords_call_raises model_box_ops model_keras model_loss_utils).
  reflexivity.
Defined.

Lemma call_returns_seven_witness :
  exists loss loss_box conf_loss class_loss avg_iou avg_obj recall50,
    @__call__ model_box_ops model_keras model_loss_utils example_self
      example_y_true example_y_pred example_boxes example_classes =
    Return (loss, loss_box, conf_loss, class_loss, avg_iou, avg_obj,
            recall50) /\
    live loss = true /\ live loss_box = true /\ live conf_loss = true /\
    live class_loss = true /\
    live avg_iou = false /\ live avg_obj = false /\ live recall50 = false.
Proof.
  destruct (@call_returns_seven model_box_ops model_keras model_loss_utils
              example_self example_y_true example_y_pred example_boxes
              example_classes 1 1 1 1 eq_refl eq_refl)
    as (e & f & g & H & D1 & D2 & D3 & L).
  destruct (L example_legacy_decoder O O O O (Nat.lt_0_1) (Nat.lt_0_1)
              (Nat.lt_0_1) (Nat.lt_0_1) (example_pred_attached O O O O))
    as (L0 & L1 & L2 & L3).
  do 7 eexists. split; [exact H|]. repeat split; assumption.
Defined.

Lemma box_gradient_trap_clips_witness :
  xle (Fin 0) (Fin 5) = true /\
  exists o1 o2 o3 o4,
    fst (fst (snd (box_gradient_trap tt 2 (Fin 5))
                  [Fin 1; Fin 3; Fin (-4); NaN])) = [o1; o2; o3; o4] /\
    o1 = Fin (1 * 2) /\ o2 = Fin 5 /\ o3 = Fin (- 5) /\ o4 = Fin 0.
Proof.
  assert (Hd : xle (Fin 0) (Fin 5) = true)
    by (simpl; destruct (Rle_dec 0 5); [reflexivity | lra]).
  split; [exact Hd|].
  pose proof (box_gradient_trap_clips unit tt 2 (Fin 5)
                [Fin 1; Fin 3; Fin (-4); NaN] Hd) as H.
  unfold box_gradient_trap in H. cbv zeta in H.
  destruct H as (_ & _ & _ & Hlen & H).
  unfold box_gradient_trap. cbn [fst snd].
  destruct (H 0%nat (Fin 1) eq_refl) as (o1 & E1 & _ & _ & R1 & _).
  destruct (H 1%nat (Fin 3) eq_refl) as (o2 & E2 & _ & _ & R2 & _).
  destruct (H 2%nat (Fin (-4)) eq_refl) as (o3 & E3 & _ & _ & R3 & _).
  destruct (H 3%nat NaN eq_refl) as (o4 & E4 & _ & _ & _ & _ & R4).
  exists o1, o2, o3, o4.
  split.
  - cbn [map] in E1, E2, E3, E4 |- *. cbn [nth_error] in E1, E2, E3, E4.
    congruence.
  - assert (B : forall r, Rabs r <= 8 -> Rabs r < f32_overflow).
    { intros r Hr. unfold f32_overflow. lra. }
    assert (A1 : Rabs (1 * 2) <= 8) by (rewrite Rabs_pos_eq; lra).
    assert (A2 : Rabs (3 * 2) <= 8) by (rewrite Rabs_pos_eq; lra).
    assert (A3 : Rabs (-4 * 2) <= 8)
      by (unfold Rabs; destruct (Rcase_abs (-4 * 2)); lra).
    destruct (R1 1 eq_refl (B _ A1)) as (_ & _ & K1).
    destruct (R2 3 eq_refl (B _ A2)) as (K2 & _ & _).
    destruct (R3 (-4) eq_refl (B _ A3)) as (_ & K3 & _).
    repeat split.
    + apply K1; simpl; rdec; try reflexivity; lra.
    + apply K2; simpl; rdec; try reflexivity; lra.
    + apply K3; simpl; rdec; try reflexivity; lra.
    + apply R4. reflexivity.
Defined.

Lemma newcords_wh_monotone_bounded_witness :
  let anchor : vec2 := (constant 2, constant 3) in
  let raw (rw rh : R) : box :=
    ((constant 0, constant 0), (constant rw, constant rh)) in
  let decoded (u : box) :=
    snd (snd (get_predicted_box_newcords (constant 1) (constant 1) u anchor
                (constant 0, constant 0) 1 1 (Fin 10))) in
  let decoded_f32 (u : box) :=
    snd (snd (get_predicted_box_newcords_f32 (constant 1) (constant 1) u
                anchor (constant 0, constant 0) 1 1 (Fin 10))) in
  vals2 (decoded (raw 0 1)) =
    (Fin (4 * (sigmoid 0 * sigmoid 0) * 2),
     Fin (4 * (sigmoid 1 * sigmoid 1) * 3)) /\
  xlt (val (fst (decoded (raw 0 1)))) (Fin (4 * 2)) = true /\
  xlt (val (fst (decoded (raw 0 1)))) (val (fst (decoded (raw 5 1)))) = true /\
  xle (val (snd (decoded_f32 (raw 0 1)))) (val (snd (decoded_f32 (raw 0 40))))
    = true /\
  val (snd (decoded_f32 (raw 0 40))) = Fin (4 * 3).
Proof.
  cbv zeta.
  assert (H2 : 0 < 2) by lra. assert (H3 : 0 < 3) by lra.
  destruct (newcords_wh_monotone_bounded (constant 1) (constant 1)
              (constant 0, constant 0) (constant 2, constant 3) 1 1 (Fin 10)
              ((constant 0, constant 0), (constant 0, constant 1)) 0 1 2 3
              eq_refl eq_refl H2 H3)
    as ((V & B & _ & M) & (_ & _ & _ & _ & M')).
  destruct (newcords_wh_monotone_bounded (constant 1) (constant 1)
              (constant 0, constant 0) (constant 2, constant 3) 1 1 (Fin 10)
              ((constant 0, constant 0), (constant 0, constant 40)) 0 40 2 3
              eq_refl eq_refl H2 H3)
    as (_ & (_ & _ & _ & S & _)).
  split; [exact V|]. split; [exact B|].
  split; [apply (proj1 (M ((constant 0, constant 0), (constant 5, constant 1))
                          5 1 eq_refl)); lra|].
  split; [apply (proj2 (M' ((constant 0, constant 0),
                            (constant 0, constant 40)) 0 40 eq_refl)); lra|].
  apply S. lra.
Defined.

Lemma legacy_codec_round_trip_witness :
  let b : box := ((constant 0.5, constant 0.25), (constant 2, constant 3)) in
  let grid : vec2 := (constant 0, constant 0) in
  let anchor : vec2 := (constant 1, constant 1) in
  let targets :=
    _scale_ground_truth_box b (constant 1) (constant 1) anchor grid in
  vals_box (snd (get_predicted_box (constant 1) (constant 1)
                   (raw_of_targets 1 targets) anchor grid 1 1 (Fin 10))) =
  vals_box b.
Proof.
  cbv zeta.
  refine (proj1 (proj2 (proj2
    (legacy_codec_round_trip 1 1 1 1 (Fin 10)
       ((constant 0.5, constant 0.25), (constant 2, constant 3))
       (constant 0, constant 0) (constant 1, constant 1)
       0.5 0.25 2 3 0 0 1 1
       eq_refl eq_refl eq_refl _ _ _ _ _ _ _ _ _ _ _)))); lra.
Defined.

Lemma xy_target_matches_activation_witness :
  let b : box := ((constant 0.5, constant 0.5), (constant 1, constant 1)) in
  let raw : box := ((constant 0, constant 0), (constant 0, constant 0)) in
  let grid : vec2 := (constant 0, constant 0) in
  let anchor : vec2 := (constant 1, constant 1) in
  (0 < 1 /\ 0 <= 0.5) /\
  vals2 (fst (snd (get_predicted_box (constant 1) (constant 1) raw anchor
                                     grid 2 1 (Fin 10)))) =
  vals2 (fst b) /\
  vals2 (fst (_scale_ground_truth_box b (constant 1) (constant 1)
                                      anchor grid)) =
  vals2 (fst (fst (get_predicted_box (constant 1) (constant 1) raw anchor
                                     grid 2 1 (Fin 10)))).
Proof.
  cbv zeta.
  assert (H1 : 0 < 1) by lra.
  assert (H2 : 0 <= 0.5) by lra.
  assert (Hc :
    vals2 (fst (snd (get_predicted_box (constant 1) (constant 1)
              ((constant 0, constant 0), (constant 0, constant 0))
              (constant 1, constant 1) (constant 0, constant 0)
              2 1 (Fin 10)))) =
    vals2 (fst ((constant 0.5, constant 0.5), (constant 1, constant 1)))).
  { unfold vals2, get_predicted_box, box_gradient_trap.
    cbn [fst snd val op1 op2 stop_gradient constant tsigmoid].
    rewrite !activation_val, sigmoid_0. simpl.
    destruct (Req_dec_T 1 0); [lra|]. fin_eq. }
  split; [split; assumption|]. split; [exact Hc|].
  exact (proj2
    (xy_target_matches_activation 1 1 2 1 (Fin 10)
       ((constant 0, constant 0), (constant 0, constant 0))
       ((constant 0.5, constant 0.5), (constant 1, constant 1))
       (constant 0, constant 0) (constant 1, constant 1)
       0 0 0.5 0.5 0 0
       eq_refl eq_refl eq_refl H1 H1 H2 H2 Hc)).
Defined.

Lemma no_object_sample_losses_witness :
  let c := @call_cells model_box_ops model_keras model_loss_utils
             example_self example_y_true example_y_pred no_boxes
             no_classes in
  (forall i j a, (i < 1)%nat -> (j < 1)%nat -> (a < 1)%nat ->
                 val (true_conf_of (y_at example_y_true O i j a)) = Fin 0) /\
  val (reduce_sum_123 1 1 1 (c_loss_box c O)) = Fin 0 /\
  val (reduce_sum_123 1 1 1 (c_class_loss c O)) = Fin 0.
Proof.
  cbv zeta.
  assert (H : forall i j a, (i < 1)%nat -> (j < 1)%nat -> (a < 1)%nat ->
                val (true_conf_of (y_at example_y_true O i j a)) = Fin 0).
  { intros i j a _ _ _. reflexivity. }
  split; [exact H|].
  pose proof (@no_object_sample_losses model_box_ops model_keras
                model_loss_utils example_self example_y_true example_y_pred
                no_boxes no_classes O) as W.
  cbn [example_y_true y_shape] in W. cbv zeta in W.
  destruct (W H) as (W1 & W2 & _). split; assumption.
Defined.

(* ================================================================== *)
(** * Part II, continued: further properties of the code *)
(* ================================================================== *)


(** ** The three gradient hooks *)

(** X1.  The class hook is the identity forwards and sends no gradient to
    its normalizer.  Backwards it never returns NaN or an infinity: a
    finite upstream entry is scaled by the normalizer when the product
    stays inside the float32 range and becomes 0 when the product
    overflows; a NaN or infinite entry becomes 0. *)
Theorem class_gradient_trap_sanitizes (T : Type) (y : T)
    (class_normalizer : R) (dy : list xfloat) :
  let '(forward, trap) := class_gradient_trap y class_normalizer in
  let '(out, d_normalizer) := trap dy in
  forward = y /\ d_normalizer = Fin 0 /\
  List.length out = List.length dy /\
  Forall (fun o => is_finite o = true) out /\
  forall i e, nth_error dy i = Some e ->
    exists o, nth_error out i = Some o /\
      (forall r, e = Fin r ->
         Rabs (r * class_normalizer) < f32_overflow ->
         o = Fin (r * class_normalizer)) /\
      (forall r, e = Fin r ->
         f32_overflow <= Rabs (r * class_normalizer) -> o = Fin 0) /\
      (is_nan e || is_inf e = true -> o = Fin 0).
Proof.
  unfold class_gradient_trap. cbv zeta.
  rewrite map_map.
  split; [reflexivity|]. split; [reflexivity|].
  split; [apply length_map|]. split.
  - apply Forall_forall. intros o Hin. apply in_map_iff in Hin.
    destruct Hin as (e & <- & _). rewrite rm_nan_inf_scaled. reflexivity.
  - intros i e Hi. eexists. split.
    + rewrite nth_error_map, Hi. cbn [option_map].
      rewrite rm_nan_inf_scaled. reflexivity.
    + split; [|split].
      * intros r -> Hr. rewrite scaled_in_range by exact Hr. reflexivity.
      * intros r -> Hr. rewrite scaled_overflow by exact Hr. reflexivity.
      * intros He. rewrite scaled_nonfinite by exact He. reflexivity.
Qed.

Lemma xmul_one_r (x : xfloat) : xmul x (Fin 1) = x.
Proof.
  destruct x; simpl; unfold inf_times, inf_of; rdec; try lra;
    try reflexivity.
  f_equal. lra.
Qed.


(** X3.  With a negative finite [max_delta] the clip bounds are crossed
    and the box hook returns the constant [-max_delta] for every entry,
    whatever the upstream gradient. *)
Theorem box_gradient_trap_negative_delta (T : Type) (y : T)
    (iou_normalizer d : R) (dy : list xfloat) :
  d < 0 ->
  fst (fst (snd (box_gradient_trap y iou_normalizer (Fin d)) dy)) =
  map (fun _ => Fin (- d)) dy.
Proof.
  intros Hd. rewrite box_trap_backward. apply map_ext. intros e.
  unfold box_trap_entry_of. rewrite rm_nan_inf_scaled.
  generalize (scaled_sanitized iou_normalizer e). intros v.
  xcases.
Qed.

Lemma box_gradient_trap_negative_delta_witness :
  -1 < 0 /\
  fst (fst (snd (box_gradient_trap tt 1 (Fin (-1))) [Fin 7; NaN; Fin 0])) =
  map (fun _ => Fin (- -1)) [Fin 7; NaN; Fin 0].
Proof.
  assert (H : -1 < 0) by lra. split; [exact H|].
  exact (box_gradient_trap_negative_delta unit tt 1 (-1) [Fin 7; NaN; Fin 0] H).
Defined.

(** X4.  For every finite [max_delta], of either sign, and for the default
    [+Inf], the box hook never returns NaN or an infinity. *)
Theorem box_gradient_trap_finite (T : Type) (y : T) (iou_normalizer : R)
    (max_delta : xfloat) (dy : list xfloat) :
  is_finite max_delta = true \/ max_delta = PInf ->
  Forall (fun o => is_finite o = true)
         (fst (fst (snd (box_gradient_trap y iou_normalizer max_delta) dy))).
Proof.
  intros Hd. rewrite box_trap_backward. apply Forall_forall.
  intros o Hin. apply in_map_iff in Hin. destruct Hin as (e & <- & _).
  unfold box_trap_entry_of. rewrite rm_nan_inf_scaled.
  generalize (scaled_sanitized iou_normalizer e). intros v.
  destruct Hd as [Hd | ->].
  - destruct max_delta as [d| | |]; try discriminate. xcases.
  - simpl xopp. rewrite clip_unbounded. reflexivity.
Qed.

Lemma box_gradient_trap_finite_witness :
  (is_finite (Fin 5) = true \/ Fin 5 = PInf) /\
  Forall (fun o => is_finite o = true)
         (fst (fst (snd (box_gradient_trap tt 2 (Fin 5)) [PInf; NaN]))).
Proof.
  assert (H : is_finite (Fin 5) = true \/ Fin 5 = PInf)
    by (left; reflexivity).
  split; [exact H|].
  exact (box_gradient_trap_finite unit tt 2 (Fin 5) [PInf; NaN] H).
Defined.

(** ** More on the box codec *)

(** X6.  The method [_get_predicted_box] returns exactly what the module
    function [get_predicted_box] returns for the stored [scale_x_y],
    whatever the hook parameters: the hooks change nothing forwards.  For
    an object built on the legacy path it is the decoder of the call. *)
Theorem get_predicted_box_method_agrees {loss_utils : LossUtils}
    (self : Yolo_Loss) (width height : tv) (unscaled_box : box)
    (anchor_grid grid_points : vec2) (iou_normalizer : R)
    (max_delta : xfloat) :
  _get_predicted_box self width height unscaled_box anchor_grid grid_points =
  get_predicted_box width height unscaled_box anchor_grid grid_points
                    (_scale_x_y self) iou_normalizer max_delta /\
  (legacy_decoder self ->
   _decode_boxes self width height unscaled_box anchor_grid grid_points =
   _get_predicted_box self width height unscaled_box anchor_grid grid_points).
Proof.
  split; [reflexivity|]. intros H. rewrite H. reflexivity.
Qed.

Lemma decode_xy_fin (t g width : R) :
  0 < width ->
  xadd (xdiv (Fin t) (Fin width)) (Fin g) = Fin (t / width + g).
Proof. intros H. simpl. rdec; [lra | reflexivity]. Qed.

Lemma div_pos_bounds (t lo hi width : R) :
  0 < width -> lo < t < hi -> lo / width < t / width < hi / width.
Proof.
  intros Hw [H1 H2]. unfold Rdiv.
  pose proof (Rinv_0_lt_compat width Hw) as Hi. split; nra.
Qed.

(** X7.  Both decoders return the same offsets and the same centre.  For
    finite raw offsets on a non-empty grid and [scale_x_y > 0], each offset
    lies strictly between [-(scale_x_y - 1) / 2] and [(scale_x_y + 1) / 2],
    and the centre is the grid point plus the offset over the grid
    resolution; with [scale_x_y = 1] the centre is strictly inside the cell
    that starts at the grid point. *)
Theorem decoded_centre_range (width height s n : R) (d : xfloat)
    (raw : box) (anchor grid : vec2) (rx ry gx gy : R) :
  vals2 (fst raw) = (Fin rx, Fin ry) ->
  vals2 grid = (Fin gx, Fin gy) ->
  0 < width -> 0 < height -> 0 < s ->
  let legacy :=
    get_predicted_box (constant width) (constant height) raw anchor grid
                      s n d in
  let newcords :=
    get_predicted_box_newcords (constant width) (constant height) raw
                               anchor grid s n d in
  fst (fst legacy) = fst (fst newcords) /\
  fst (snd legacy) = fst (snd newcords) /\
  exists px py,
    vals2 (fst (fst legacy)) = (Fin px, Fin py) /\
    vals2 (fst (snd legacy)) = (Fin (px / width + gx),
                                Fin (py / height + gy)) /\
    - (s - 1) / 2 < px < (s + 1) / 2 /\
    - (s - 1) / 2 < py < (s + 1) / 2 /\
    (s = 1 ->
     gx < px / width + gx < gx + 1 / width /\
     gy < py / height + gy < gy + 1 / height).
Proof.
  intros Hr Hg Hw Hh Hs legacy newcords.
  split; [reflexivity|]. split; [reflexivity|].
  destruct (vals2_inv _ _ _ Hr) as [Hr1 Hr2].
  destruct (vals2_inv _ _ _ Hg) as [Hg1 Hg2].
  exists (sigmoid rx * s - 0.5 * (s - 1)), (sigmoid ry * s - 0.5 * (s - 1)).
  pose proof (sigmoid_pos rx). pose proof (sigmoid_lt_1 rx).
  pose proof (sigmoid_pos ry). pose proof (sigmoid_lt_1 ry).
  split; [|split; [|split; [|split]]].
  - subst legacy. unfold get_predicted_box, box_gradient_trap, vals2.
    cbn [fst snd val op1 op2 constant tsigmoid].
    rewrite Hr1, Hr2, !activation_val. reflexivity.
  - subst legacy. unfold get_predicted_box, box_gradient_trap, vals2.
    cbn [fst snd val op1 op2 constant tsigmoid].
    rewrite Hr1, Hr2, Hg1, Hg2, !activation_val.
    rewrite !decode_xy_fin by assumption. reflexivity.
  - nra.
  - nra.
  - intros ->.
    assert (Hx : 0 < sigmoid rx * 1 - 0.5 * (1 - 1) < 1) by lra.
    assert (Hy : 0 < sigmoid ry * 1 - 0.5 * (1 - 1) < 1) by lra.
    apply (div_pos_bounds _ 0 1 width Hw) in Hx.
    apply (div_pos_bounds _ 0 1 height Hh) in Hy.
    unfold Rdiv in *. lra.
Qed.

Lemma decoded_centre_range_witness :
  let raw : box := ((constant 3, constant (-3)), (constant 0, constant 0)) in
  let grid : vec2 := (constant 0.25, constant 0.5) in
  (0 < 4 /\ 0 < 1) /\
  fst (snd (get_predicted_box (constant 4) (constant 4) raw
              (constant 1, constant 1) grid 1 1 (Fin 10))) =
  fst (snd (get_predicted_box_newcords (constant 4) (constant 4) raw
              (constant 1, constant 1) grid 1 1 (Fin 10))).
Proof.
  cbv zeta.
  assert (H4 : 0 < 4) by lra. assert (H1 : 0 < 1) by lra.
  split; [split; assumption|].
  exact (proj1 (proj2
    (decoded_centre_range 4 4 1 1 (Fin 10)
       ((constant 3, constant (-3)), (constant 0, constant 0))
       (constant 1, constant 1) (constant 0.25, constant 0.5)
       3 (-3) 0.25 0.5 eq_refl eq_refl H4 H4 H1))).
Defined.

(** X8.  For finite raw sizes and strictly positive finite anchor priors,
    both decoders return a strictly positive finite width and height: the
    legacy one [exp(raw) * anchor], the new-coordinates one
    [4 * sigmoid(raw)^2 * anchor]. *)
Theorem decoded_size_positive (w h : tv) (grid anchor : vec2) (s n : R)
    (d : xfloat) (raw : box) (rw rh aw ah : R) :
  vals2 (snd raw) = (Fin rw, Fin rh) ->
  vals2 anchor = (Fin aw, Fin ah) ->
  0 < aw -> 0 < ah ->
  vals2 (snd (snd (get_predicted_box w h raw anchor grid s n d))) =
    (Fin (exp rw * aw), Fin (exp rh * ah)) /\
  0 < exp rw * aw /\ 0 < exp rh * ah /\
  vals2 (snd (snd (get_predicted_box_newcords w h raw anchor grid s n d))) =
    (Fin (4 * (sigmoid rw * sigmoid rw) * aw),
     Fin (4 * (sigmoid rh * sigmoid rh) * ah)) /\
  0 < 4 * (sigmoid rw * sigmoid rw) * aw /\
  0 < 4 * (sigmoid rh * sigmoid rh) * ah.
Proof.
  intros Hr Ha Haw Hah.
  destruct (vals2_inv _ _ _ Hr) as [Hr1 Hr2].
  destruct (vals2_inv _ _ _ Ha) as [Ha1 Ha2].
  pose proof (exp_pos rw). pose proof (exp_pos rh).
  pose proof (sigmoid_pos rw). pose proof (sigmoid_pos rh).
  split; [|split; [|split; [|split; [|split]]]].
  - unfold get_predicted_box, box_gradient_trap, vals2.
    cbn [fst snd val op1 op2 texp]. rewrite Hr1, Hr2, Ha1, Ha2. reflexivity.
  - nra.
  - nra.
  - apply newcords_wh_vals; assumption.
  - assert (0 < sigmoid rw * sigmoid rw) by nra. nra.
  - assert (0 < sigmoid rh * sigmoid rh) by nra. nra.
Qed.

Lemma decoded_size_positive_witness :
  0 < 2 /\
  vals2 (snd (snd (get_predicted_box (constant 13) (constant 13)
                     ((constant 0, constant 0), (constant 1, constant (-1)))
                     (constant 2, constant 2) (constant 0, constant 0)
                     1 1 (Fin 10)))) =
  (Fin (exp 1 * 2), Fin (exp (-1) * 2)).
Proof.
  assert (H : 0 < 2) by lra. split; [exact H|].
  exact (proj1
    (decoded_size_positive (constant 13) (constant 13)
       (constant 0, constant 0) (constant 2, constant 2) 1 1 (Fin 10)
       ((constant 0, constant 0), (constant 1, constant (-1)))
       1 (-1) 2 2 eq_refl eq_refl H H)).
Defined.

(** ** Sanitized targets of the encoder *)

Lemma rm_nan_inf_finite (x : xfloat) :
  is_finite (math_ops.rm_nan_inf x (Fin 0)) = true.
Proof. destruct x; reflexivity. Qed.

Lemma encode_wh_degenerate (v a : R) :
  a = 0 \/ v / a <= 0 ->
  math_ops.rm_nan_inf (xlog (xdiv (Fin v) (Fin a))) (Fin 0) = Fin 0.
Proof.
  intros H. unfold math_ops.rm_nan_inf. simpl.
  destruct (Req_dec_T a 0) as [->|Ha].
  - unfold inf_times, inf_of. rdec; reflexivity.
  - destruct H as [H|H]; [contradiction|]. simpl. rdec; try lra; reflexivity.
Qed.

(** X9.  The size targets of the legacy encoder are finite for every
    input, also for NaN, infinite, zero or negative sizes and anchors; for
    a finite size and anchor they are exactly 0 when the anchor is 0 or the
    ratio is not positive.  For a finite centre and grid point on a grid of
    positive resolution the offset targets are finite and never negative,
    and 0 when the centre is not after the grid point. *)
Theorem encoder_targets_sanitized (b : box) (width height : tv)
    (anchor grid : vec2) :
  let '(true_xy, true_wh) :=
    _scale_ground_truth_box b width height anchor grid in
  (is_finite (val (fst true_wh)) = true /\
   is_finite (val (snd true_wh)) = true) /\
  (forall bw aw,
     val (fst (snd b)) = Fin bw -> val (fst anchor) = Fin aw ->
     aw = 0 \/ bw / aw <= 0 -> val (fst true_wh) = Fin 0) /\
  (forall bh ah,
     val (snd (snd b)) = Fin bh -> val (snd anchor) = Fin ah ->
     ah = 0 \/ bh / ah <= 0 -> val (snd true_wh) = Fin 0) /\
  (forall bx gx w,
     val (fst (fst b)) = Fin bx -> val (fst grid) = Fin gx ->
     val width = Fin w -> 0 < w ->
     exists t, val (fst true_xy) = Fin t /\ 0 <= t /\
               (bx <= gx -> t = 0) /\ (gx <= bx -> t = (bx - gx) * w)) /\
  (forall by_ gy h,
     val (snd (fst b)) = Fin by_ -> val (snd grid) = Fin gy ->
     val height = Fin h -> 0 < h ->
     exists t, val (snd true_xy) = Fin t /\ 0 <= t /\
               (by_ <= gy -> t = 0) /\ (gy <= by_ -> t = (by_ - gy) * h)).
Proof.
  unfold _scale_ground_truth_box. cbv zeta.
  cbn [fst snd val op1 op2 stop_gradient tlog trelu].
  assert (Hxy : forall v g w, 0 < w ->
    exists t, xmul (relu (xsub (Fin v) (Fin g))) (Fin w) = Fin t /\ 0 <= t /\
              (v <= g -> t = 0) /\ (g <= v -> t = (v - g) * w)).
  { intros v g w Hw. destruct (Rle_dec g v) as [Hle|Hgt].
    - exists ((v - g) * w). rewrite encode_xy_val by assumption.
      split; [reflexivity|]. split; [nra|]. split; [|reflexivity].
      intros Hvg. assert (v = g) by lra. subst. lra.
    - exists 0. rewrite encode_xy_val_clamped by lra.
      split; [reflexivity|]. split; [lra|]. split; [reflexivity|].
      intros Hvg. lra. }
  split; [split; apply rm_nan_inf_finite|].
  split; [|split; [|split]].
  - intros bw aw -> -> H. apply encode_wh_degenerate, H.
  - intros bh ah -> -> H. apply encode_wh_degenerate, H.
  - intros bx gx w -> -> -> Hw. apply Hxy, Hw.
  - intros by_ gy h -> -> -> Hh. apply Hxy, Hh.
Qed.

(** ** The cross-entropy helper *)

Lemma ln_nonpos (x : R) : 0 < x -> x <= 1 -> ln x <= 0.
Proof.
  intros H0 H1. rewrite <- ln_1.
  destruct (Req_dec_T x 1) as [->|Hne]; [lra|].
  left. apply ln_increasing; lra.
Qed.

Lemma ln_lower (x lo : R) : 0 < lo -> lo <= x -> ln lo <= ln x.
Proof.
  intros H0 H1. destruct (Req_dec_T lo x) as [->|Hne]; [lra|].
  left. apply ln_increasing; lra.
Qed.

Lemma K_epsilon_small : 0 < K_epsilon < / 4.
Proof. unfold K_epsilon. lra. Qed.

(** The clipped output plus the fuzz, for a finite output. *)
Lemma ce_clipped (o : R) :
  exists c,
    xadd (clip_by_value (Fin o) (Fin K_epsilon) (Fin (1 - K_epsilon)))
         (Fin K_epsilon) = Fin c /\
    2 * K_epsilon <= c <= 1.
Proof.
  pose proof K_epsilon_small as He.
  unfold clip_by_value, xmin, xmax. simpl.
  rdec; simpl; rdec; simpl; eexists; (split; [reflexivity|]); lra.
Qed.

(** X10.  With the label smoothing 0 that [__init__] stores, [ce] is 0
    wherever the target is 0, whatever the output, also NaN.  For a finite
    target [t >= 0] and a finite output it is finite, never negative and at
    most [t * -ln(2 * epsilon)]: the clip of the output keeps the
    logarithm bounded. *)
Theorem ce_bounded {loss_utils : LossUtils} (self : Yolo_Loss)
    (target output : tv) :
  _label_smoothing self = 0 ->
  (val target = Fin 0 -> val (ce self target output) = Fin 0) /\
  (forall t o, val target = Fin t -> val output = Fin o -> 0 <= t ->
     exists v, val (ce self target output) = Fin v /\
               0 <= v <= t * - ln (2 * K_epsilon)) /\
  live (ce self target output) = live output.
Proof.
  intros Hls. unfold ce, tmul_no_nan, tlog, op1, op2, stop_gradient, constant.
  cbn [val live]. rewrite Hls.
  split; [|split].
  - intros ->. unfold math_ops.mul_no_nan. simpl. rdec; [reflexivity | lra].
  - intros t o -> -> Ht.
    destruct (ce_clipped o) as (c & -> & Hc).
    pose proof K_epsilon_small as He.
    assert (Hln : ln (2 * K_epsilon) <= ln c <= 0).
    { split; [apply ln_lower; lra | apply ln_nonpos; lra]. }
    unfold math_ops.mul_no_nan. simpl.
    destruct (Req_dec_T (- (t * (1.0 - 0) + 0.5 * 0)) 0) as [Hz|Hz].
    + exists 0. split; [reflexivity|]. split; [lra|].
      assert (t = 0) by lra. subst. lra.
    + destruct (Rlt_dec 0 c) as [_|Hn]; [|lra]. simpl.
      eexists. split; [reflexivity|]. nra.
  - simpl. apply orb_false_r.
Qed.

Lemma ce_bounded_witness :
  _label_smoothing example_self = 0 /\
  val (ce example_self (constant 0) (Tv NaN true)) = Fin 0.
Proof.
  split; [reflexivity|].
  exact (proj1 (ce_bounded example_self (constant 0) (Tv NaN true) eq_refl)
               eq_refl).
Defined.

(** ** The metrics of a batch without objects *)

Lemma reduce_mean_zeros (l : list xfloat) :
  l <> [] -> Forall (fun v => v = Fin 0) l -> reduce_mean l = Fin 0.
Proof.
  intros Hne Hz. unfold reduce_mean. rewrite (reduce_sum_zeros l Hz).
  assert (0 < INR (List.length l)).
  { apply lt_0_INR. destruct l; [congruence | simpl; lia]. }
  simpl. rdec; [lra|]. f_equal. unfold Rdiv. lra.
Qed.

Lemma batch_mean_zero (batch_size : nat) (f : nat -> tv) :
  (0 < batch_size)%nat ->
  (forall b, (b < batch_size)%nat -> val (f b) = Fin 0) ->
  val (treduce_mean (map f (seq 0 batch_size))) = Fin 0.
Proof.
  intros Hb Hz. unfold treduce_mean. cbn [val].
  apply reduce_mean_zeros.
  - destruct batch_size; [lia | discriminate].
  - rewrite Forall_map, Forall_map, Forall_forall.
    intros b Hin. apply in_seq in Hin. apply Hz. lia.
Qed.

Lemma in_entries (shape : nat * nat * nat * nat)
    (t : nat -> nat -> nat -> nat -> tv) (e : tv) :
  In e (entries shape t) ->
  exists b i j a,
    (b < fst (fst (fst shape)))%nat /\ (i < snd (fst (fst shape)))%nat /\
    (j < snd (fst shape))%nat /\ (a < snd shape)%nat /\ e = t b i j a.
Proof.
  destruct shape as [[[batch_size width] height] num]. unfold entries.
  rewrite in_flat_map. intros (b & Hb & Hin).
  apply in_map_iff in Hin. destruct Hin as ([[i j] a] & <- & Hc).
  apply in_cells in Hc. apply in_seq in Hb.
  exists b, i, j, a. cbn [fst snd]. repeat split; lia.
Qed.

Lemma count_nonzero_zeros (l : list xfloat) :
  Forall (fun v => v = Fin 0) l -> count_nonzero l = O.
Proof.
  induction 1 as [|v l Hv _ IH]; [reflexivity|].
  unfold count_nonzero in *. simpl. rewrite Hv. simpl.
  destruct (Req_dec_T 0 0); [exact IH | lra].
Qed.

Lemma divide_no_nan_zero_den (x : xfloat) :
  math_ops.divide_no_nan x (Fin 0) = Fin 0.
Proof.
  unfold math_ops.divide_no_nan. simpl.
  destruct (Req_dec_T 0 0); [reflexivity | lra].
Qed.

Lemma avgiou_no_object (shape : nat * nat * nat * nat)
    (iou true_conf : nat -> nat -> nat -> nat -> tv) :
  (forall b i j a,
     (b < fst (fst (fst shape)))%nat -> (i < snd (fst (fst shape)))%nat ->
     (j < snd (fst shape))%nat -> (a < snd shape)%nat ->
     val (true_conf b i j a) = Fin 0) ->
  val (avgiou shape iou true_conf) = Fin 0.
Proof.
  intros Hz. unfold avgiou, tdivide_no_nan, op2, stop_gradient, constant.
  cbn [val]. rewrite count_nonzero_zeros.
  - simpl. apply divide_no_nan_zero_den.
  - rewrite Forall_map, Forall_forall. intros e Hin.
    apply in_entries in Hin.
    destruct Hin as (b & i & j & a & Hb & Hi & Hj & Ha & ->). auto.
Qed.

Lemma recall_no_object (batch_size width height num : nat)
    (pred_conf true_conf : nat -> nat -> nat -> nat -> tv) (pct : R) :
  (0 < batch_size)%nat ->
  (forall b i j a, (b < batch_size)%nat -> (i < width)%nat ->
     (j < height)%nat -> (a < num)%nat -> val (true_conf b i j a) = Fin 0) ->
  val (recall (batch_size, width, height, num) pred_conf true_conf pct) =
  Fin 0.
Proof.
  intros Hb Hz. unfold recall. cbn [val stop_gradient].
  apply batch_mean_zero; [exact Hb|].
  intros b Hlt. unfold tdivide_no_nan, op2. cbn [val].
  rewrite (reduce_sum_123_zero width height num (true_conf b)).
  - apply divide_no_nan_zero_den.
  - intros i j a Hi Hj Ha. apply Hz; assumption.
Qed.

Lemma xadd_zero_l (x : xfloat) : xadd (Fin 0) x = x.
Proof. destruct x; simpl; try reflexivity. f_equal. lra. Qed.

Lemma xadd_zero_r (x : xfloat) : xadd x (Fin 0) = x.
Proof. destruct x; simpl; try reflexivity. f_equal. lra. Qed.

Section ObjectFreeBatch.

Context {box_ops : BoxOps} {keras : KerasLosses} {loss_utils : LossUtils}.

(** X11.  For a non-empty batch with no object on this level, the legacy
    call returns box_loss, class_loss, avg_iou, avg_objectness and recall50
    all exactly 0 (no division by zero leaks out), and with the mean
    reduction the total loss is the objectness loss. *)
Theorem object_free_batch_metrics (self : Yolo_Loss)
    (y_true : y_true_tensor) (y_pred : y_pred_tensor)
    (boxes : nat -> list box) (classes : nat -> list tv)
    (batch_size width height num : nat) :
  _new_cords self = false ->
  y_shape y_true = (S batch_size, width, height, num) ->
  (forall b i j a, (b < S batch_size)%nat -> (i < width)%nat ->
     (j < height)%nat -> (a < num)%nat ->
     val (true_conf_of (y_at y_true b i j a)) = Fin 0) ->
  exists loss loss_box conf_loss class_loss avg_iou avg_obj recall50,
    __call__ self y_true y_pred boxes classes =
    Return (loss, loss_box, conf_loss, class_loss, avg_iou, avg_obj,
            recall50) /\
    val loss_box = Fin 0 /\ val class_loss = Fin 0 /\
    val avg_iou = Fin 0 /\ val avg_obj = Fin 0 /\ val recall50 = Fin 0 /\
    (_use_reduction_sum self = false -> val loss = val conf_loss).
Proof.
  intros Hnew Hshape Hzero.
  set (c := call_cells self y_true y_pred boxes classes).
  assert (Hconf : forall b i j a,
            (b < S batch_size)%nat -> (i < width)%nat -> (j < height)%nat ->
            (a < num)%nat -> val (c_true_conf c b i j a) = Fin 0).
  { intros b i j a Hb Hi Hj Ha. subst c. rewrite call_cells_true_conf.
    cbn [val stop_gradient]. apply Hzero; assumption. }
  assert (Hbox : forall b, (b < S batch_size)%nat ->
            val (reduce_sum_123 width height num (c_loss_box c b)) = Fin 0).
  { intros b Hb. apply reduce_sum_123_zero. intros i j a Hi Hj Ha.
    destruct (call_cells_masked self y_true y_pred boxes classes b i j a)
      as [[x Hx] _].
    fold c in Hx. rewrite Hx. apply tmul_no_nan_zero, Hconf; assumption. }
  assert (Hcls : forall b, (b < S batch_size)%nat ->
            val (reduce_sum_123 width height num (c_class_loss c b)) = Fin 0).
  { intros b Hb. apply reduce_sum_123_zero. intros i j a Hi Hj Ha.
    destruct (call_cells_masked self y_true y_pred boxes classes b i j a)
      as [_ [x Hx]].
    fold c in Hx. rewrite Hx. apply tmul_no_nan_zero, Hconf; assumption. }
  unfold __call__. rewrite Hshape, Hnew. fold c. cbv zeta.
  do 7 eexists. split; [reflexivity|].
  split; [apply batch_mean_zero; [lia | exact Hbox]|].
  split; [apply batch_mean_zero; [lia | exact Hcls]|].
  split; [apply avgiou_no_object; cbn [fst snd]; exact Hconf|].
  split; [apply avgiou_no_object; cbn [fst snd]; exact Hconf|].
  split; [apply recall_no_object; [lia | exact Hconf]|].
  intros ->. unfold treduce_mean. cbn [val]. f_equal.
  rewrite !map_map. apply map_ext_in. intros b Hin. apply in_seq in Hin.
  cbn [val op2]. rewrite Hbox, Hcls by lia.
  rewrite xadd_zero_l, xadd_zero_r. reflexivity.
Qed.

End ObjectFreeBatch.

Lemma object_free_batch_metrics_witness :
  _new_cords example_self = false /\
  exists r,
    @__call__ model_box_ops model_keras model_loss_utils example_self
      example_y_true example_y_pred no_boxes no_classes = Return r /\
    val (snd (fst (fst r))) = Fin 0.
Proof.
  split; [reflexivity|].
  destruct (@object_free_batch_metrics model_box_ops model_keras
              model_loss_utils example_self example_y_true example_y_pred
              no_boxes no_classes 0 1 1 1 eq_refl eq_refl
              (fun _ _ _ _ _ _ _ _ => eq_refl))
    as (l & lb & lc & lcl & ai & ao & r & Hcall & _ & _ & Hai & _).
  eexists. split; [exact Hcall|]. exact Hai.
Defined.

(** ** The total loss and its three parts *)

Lemma is_finite_fin_val (x : xfloat) :
  is_finite x = true -> x = Fin (fin_val x).
Proof. destruct x; simpl; intros H; try discriminate; reflexivity. Qed.

Lemma reduce_sum_fin (f : nat -> R) (l : list nat) :
  reduce_sum (map (fun b => Fin (f b)) l) = Fin (fold_right Rplus 0 (map f l)).
Proof.
  induction l as [|b l IH]; [reflexivity|].
  simpl. fold (reduce_sum (map (fun b => Fin (f b)) l)). rewrite IH.
  reflexivity.
Qed.

Lemma sum_plus (f g : nat -> R) (l : list nat) :
  fold_right Rplus 0 (map (fun b => f b + g b) l) =
  fold_right Rplus 0 (map f l) + fold_right Rplus 0 (map g l).
Proof. induction l as [|b l IH]; simpl; [lra | rewrite IH; lra]. Qed.

Lemma batch_values (t : nat -> tv) (batch_size : nat) :
  (forall b, (b < batch_size)%nat -> is_finite (val (t b)) = true) ->
  map val (map t (seq 0 batch_size)) =
  map (fun b => Fin (fin_val (val (t b)))) (seq 0 batch_size).
Proof.
  intros H. rewrite map_map. apply map_ext_in. intros b Hin.
  apply in_seq in Hin. apply is_finite_fin_val, H. lia.
Qed.

Lemma mean_of_sum (a b c n : R) :
  n <> 0 ->
  xdiv (Fin (a + b + c)) (Fin n) =
  xadd (xadd (xdiv (Fin a) (Fin n)) (xdiv (Fin b) (Fin n)))
       (xdiv (Fin c) (Fin n)).
Proof.
  intros Hn. simpl. destruct (Req_dec_T n 0); [contradiction|].
  simpl. f_equal. field. exact Hn.
Qed.

Lemma sum_of_means (a b c n : R) :
  n <> 0 ->
  Fin (a + b + c) =
  xmul (Fin n)
       (xadd (xadd (xdiv (Fin a) (Fin n)) (xdiv (Fin b) (Fin n)))
             (xdiv (Fin c) (Fin n))).
Proof.
  intros Hn. simpl. destruct (Req_dec_T n 0); [contradiction|].
  simpl. f_equal. field. exact Hn.
Qed.

Section TotalLoss.

Context {box_ops : BoxOps} {keras : KerasLosses} {loss_utils : LossUtils}.

(** X12.  On the legacy path, when the three per-sample sums are finite,
    the returned total loss is tied to the three returned parts: with the
    mean reduction it is class_loss + conf_loss + box_loss, and with the
    sum reduction on a non-empty batch it is the batch size times that
    sum (the parts are batch means in both modes). *)
Theorem total_is_sum_of_parts (self : Yolo_Loss) (y_true : y_true_tensor)
    (y_pred : y_pred_tensor) (boxes : nat -> list box)
    (classes : nat -> list tv) (batch_size width height num : nat) :
  _new_cords self = false ->
  y_shape y_true = (batch_size, width, height, num) ->
  (forall b, (b < batch_size)%nat ->
     let c := call_cells self y_true y_pred boxes classes in
     is_finite (val (reduce_sum_123 width height num (c_loss_box c b)))
       = true /\
     is_finite (val (reduce_sum_123 width height num (legacy_conf_loss c b)))
       = true /\
     is_finite (val (reduce_sum_123 width height num (c_class_loss c b)))
       = true) ->
  exists loss loss_box conf_loss class_loss avg_iou avg_obj recall50,
    __call__ self y_true y_pred boxes classes =
    Return (loss, loss_box, conf_loss, class_loss, avg_iou, avg_obj,
            recall50) /\
    (_use_reduction_sum self = false ->
     val loss = xadd (xadd (val class_loss) (val conf_loss)) (val loss_box)) /\
    (_use_reduction_sum self = true -> (0 < batch_size)%nat ->
     val loss =
     xmul (Fin (INR batch_size))
          (xadd (xadd (val class_loss) (val conf_loss)) (val loss_box))).
Proof.
  intros Hnew Hshape Hfin. cbv zeta in Hfin.
  set (c := call_cells self y_true y_pred boxes classes) in *.
  unfold __call__. rewrite Hshape, Hnew. fold c. cbv zeta.
  set (bx := fun b => reduce_sum_123 width height num (c_loss_box c b)).
  set (cf := fun b => reduce_sum_123 width height num (legacy_conf_loss c b)).
  set (cl := fun b => reduce_sum_123 width height num (c_class_loss c b)).
  set (tot := fun b => (cl b + cf b + bx b)%tv).
  assert (Hbx : forall b, (b < batch_size)%nat -> is_finite (val (bx b)) = true)
    by (intros b Hb; apply (Hfin b Hb)).
  assert (Hcf : forall b, (b < batch_size)%nat -> is_finite (val (cf b)) = true)
    by (intros b Hb; apply (Hfin b Hb)).
  assert (Hcl : forall b, (b < batch_size)%nat -> is_finite (val (cl b)) = true)
    by (intros b Hb; apply (Hfin b Hb)).
  assert (Htot : map val (map tot (seq 0 batch_size)) =
                 map (fun b => Fin (fin_val (val (cl b))
                                    + fin_val (val (cf b))
                                    + fin_val (val (bx b))))
                     (seq 0 batch_size)).
  { rewrite map_map. apply map_ext_in. intros b Hin. apply in_seq in Hin.
    subst tot. cbn [val op2].
    rewrite (is_finite_fin_val _ (Hbx b ltac:(lia))),
            (is_finite_fin_val _ (Hcf b ltac:(lia))),
            (is_finite_fin_val _ (Hcl b ltac:(lia))).
    reflexivity. }
  do 7 eexists. split; [reflexivity|].
  unfold treduce_mean, treduce_sum, reduce_mean. cbn [val].
  rewrite (batch_values bx batch_size Hbx), (batch_values cf batch_size Hcf),
          (batch_values cl batch_size Hcl).
  rewrite !length_map, length_seq.
  rewrite !(reduce_sum_fin (fun b => fin_val (val (_ b)))).
  split.
  - intros ->. cbn [val].
    match goal with
    | |- xdiv (reduce_sum ?l) _ = _ =>
        change l with (map val (map tot (seq 0 batch_size)))
    end.
    rewrite Htot.
    rewrite (reduce_sum_fin
               (fun b => fin_val (val (cl b)) + fin_val (val (cf b))
                         + fin_val (val (bx b)))).
    rewrite !sum_plus.
    destruct batch_size as [|n];
      [simpl; unfold inf_times; rdec; try lra; reflexivity|].
    apply mean_of_sum. apply not_0_INR. lia.
  - intros -> Hpos. cbn [val].
    match goal with
    | |- reduce_sum ?l = _ =>
        change l with (map val (map tot (seq 0 batch_size)))
    end.
    rewrite Htot.
    rewrite (reduce_sum_fin
               (fun b => fin_val (val (cl b)) + fin_val (val (cf b))
                         + fin_val (val (bx b)))).
    rewrite !sum_plus.
    apply sum_of_means. apply not_0_INR. lia.
Qed.

End TotalLoss.

Lemma example_sums_finite (b : nat) :
  (b < 1)%nat ->
  let c := @call_cells model_box_ops model_keras model_loss_utils
             example_self example_y_true example_y_pred no_boxes
             no_classes in
  is_finite (val (reduce_sum_123 1 1 1 (c_loss_box c b))) = true /\
  is_finite (val (reduce_sum_123 1 1 1 (@legacy_conf_loss model_keras c b)))
    = true /\
  is_finite (val (reduce_sum_123 1 1 1 (c_class_loss c b))) = true.
Proof.
  intros Hb c.
  assert (Hconf : forall i j a, val (c_true_conf c b i j a) = Fin 0).
  { intros i j a. subst c. rewrite call_cells_true_conf. reflexivity. }
  pose proof (@call_cells_masked model_box_ops model_keras model_loss_utils
                example_self example_y_true example_y_pred no_boxes
                no_classes b) as Hm.
  cbv zeta in Hm. fold c in Hm.
  split; [|split].
  - rewrite reduce_sum_123_zero; [reflexivity|].
    intros i j a _ _ _. destruct (Hm i j a) as [[x ->] _].
    apply tmul_no_nan_zero, Hconf.
  - pose proof (@call_cells_mask model_box_ops model_keras model_loss_utils
                  example_self example_y_true example_y_pred no_boxes
                  no_classes) as Hk.
    cbv zeta in Hk. fold c in Hk. cbn [example_y_true y_shape fst snd] in Hk.
    destruct (@ignore_mask_cases model_box_ops model_loss_utils example_self
                (c_pred_box c) (c_pred_class c) no_boxes no_classes
                1%nat 1%nat b O O O) as [_ H1].
    cbv zeta in H1. rewrite <- Hk in H1.
    assert (Hmask : val (c_mask_loss c b O O O) = Fin 1).
    { apply H1. intros (n & bx & cl & Hn & _). unfold no_boxes in Hn.
      destruct n; discriminate. }
    pose proof (@legacy_conf_loss_no_object model_keras c b O O O
                  (Hconf O O O) (or_intror Hmask)) as Hl.
    rewrite Hmask, mul_no_nan_one in Hl.
    destruct (@call_cells_pred model_box_ops model_keras model_loss_utils
                example_self example_y_true example_y_pred no_boxes
                no_classes b O O O) as (_ & _ & Hp).
    fold c in Hp. rewrite Hp in Hl.
    change (val (snd (fst (example_y_pred b O O O)))) with (Fin 0) in Hl.
    rewrite keras_true_negative_at_zero in Hl.
    unfold reduce_sum_123, treduce_sum. cbn [cells seq flat_map map app val].
    unfold reduce_sum. cbn [fold_right]. rewrite Hl. reflexivity.
  - rewrite reduce_sum_123_zero; [reflexivity|].
    intros i j a _ _ _. destruct (Hm i j a) as [_ [x ->]].
    apply tmul_no_nan_zero, Hconf.
Qed.

Lemma total_is_sum_of_parts_witness :
  exists loss loss_box conf_loss class_loss avg_iou avg_obj recall50,
    @__call__ model_box_ops model_keras model_loss_utils example_self
      example_y_true example_y_pred no_boxes no_classes =
    Return (loss, loss_box, conf_loss, class_loss, avg_iou, avg_obj,
            recall50) /\
    val loss = xadd (xadd (val class_loss) (val conf_loss)) (val loss_box).
Proof.
  destruct (@total_is_sum_of_parts model_box_ops model_keras
              model_loss_utils example_self example_y_true example_y_pred
              no_boxes no_classes 1 1 1 1 eq_refl eq_refl
              example_sums_finite)
    as (l & lb & lc & lcl & ai & ao & r & Hcall & Hmean & _).
  exists l, lb, lc, lcl, ai, ao, r. split; [exact Hcall|].
  apply Hmean. reflexivity.
Defined.

(** ** The objectness term of a positive cell *)

Section PositiveCells.

Context {box_ops : BoxOps} {keras : KerasLosses} {loss_utils : LossUtils}.

Lemma ignore_mask_binary (self : Yolo_Loss)
    (pred_boxes : nat -> nat -> nat -> nat -> box)
    (pred_classes : nat -> nat -> nat -> nat -> list tv)
    (boxes : nat -> list box) (classes : nat -> list tv)
    (width height : nat) (b i j a : nat) :
  exists m : bool,
    val (fst (build_masks self pred_boxes pred_classes boxes classes
                          width height) b i j a) =
    Fin (if m then 1 else 0).
Proof.
  unfold build_masks. cbn [fst]. rewrite cast_bool_val.
  eexists. reflexivity.
Qed.

(** X13.  A positive cell is never ignored: where the objectness
    indicator of the ground truth is 1, the objectness term of the legacy
    path is the full cross-entropy of the objectness logit against the
    target 1, whatever the ignore mask says about that prediction (the
    mask only weighs the cells whose indicator is 0). *)
Theorem positive_cell_not_ignored (self : Yolo_Loss)
    (y_true : y_true_tensor) (y_pred : y_pred_tensor)
    (boxes : nat -> list box) (classes : nat -> list tv) (b i j a : nat) :
  val (true_conf_of (y_at y_true b i j a)) = Fin 1 ->
  let c := call_cells self y_true y_pred boxes classes in
  val (legacy_conf_loss c b i j a) =
  binary_crossentropy true 0 (Fin 1) (val (snd (fst (y_pred b i j a)))).
Proof.
  intros Hone c.
  assert (Hconf : val (c_true_conf c b i j a) = Fin 1).
  { subst c. rewrite call_cells_true_conf. exact Hone. }
  pose proof (call_cells_mask self y_true y_pred boxes classes) as Hk.
  cbv zeta in Hk. fold c in Hk.
  destruct (ignore_mask_binary self (c_pred_box c) (c_pred_class c) boxes
              classes (snd (fst (fst (y_shape y_true))))
              (snd (fst (y_shape y_true))) b i j a) as [m Hm].
  rewrite <- Hk in Hm.
  destruct (call_cells_pred self y_true y_pred boxes classes b i j a)
    as (_ & _ & Hp).
  fold c in Hp.
  unfold legacy_conf_loss, tmul_no_nan, op2, stop_gradient.
  cbn [val]. rewrite Hconf, Hm, Hp. cbn [val constant xsub xopp xadd xmul].
  replace (1 + (1 + - (1)) * (if m then 1 else 0)) with 1
    by (destruct m; lra).
  apply mul_no_nan_one.
Qed.

End PositiveCells.

Lemma positive_cell_not_ignored_witness :
  let c := @call_cells model_box_ops model_keras model_loss_utils
             example_self example_y_true_object example_y_pred
             example_boxes example_classes in
  val (true_conf_of (y_at example_y_true_object O O O O)) = Fin 1 /\
  val (@legacy_conf_loss model_keras c O O O O) =
  @binary_crossentropy model_keras true 0 (Fin 1) (Fin 0).
Proof.
  split; [reflexivity|].
  apply (@positive_cell_not_ignored model_box_ops model_keras
           model_loss_utils example_self example_y_true_object
           example_y_pred example_boxes example_classes O O O O).
  reflexivity.
Defined.

(** ** The mask of [get_mask] *)

(** X14.  [get_mask], for at least one class and class scores and true
    classes without NaN.  The mask is detached and its value is 0 or 1,
    never NaN.  A box is matched exactly when its IoU is above
    [ignore_thresh] and the argmax of the sigmoid of its class scores
    (the sigmoid over the reals, which keeps the scores apart) is the
    argmax of the true classes; the truth flag is set exactly when the
    IoU is above [truth_thresh]; the mask is 0 exactly for a matched box
    whose IoU is not above [truth_thresh].  A NaN IoU gives the mask 1,
    matches nothing and alters nothing. *)
Theorem get_mask_binary {loss_utils : LossUtils} (self : Yolo_Loss)
    (iou : tv) (classes true_classes : list tv) :
  classes <> [] -> true_classes <> [] ->
  Forall (fun c => is_nan (val c) = false) classes ->
  Forall (fun c => is_nan (val c) = false) true_classes ->
  let '(mask, matched_boxes, truth_alter) :=
    get_mask self iou classes true_classes in
  let box_match := xgt (val iou) (Fin (_ignore_thresh self)) = true in
  let class_match :=
    argmax (map val (map tsigmoid classes)) = argmax (map val true_classes) in
  let above_truth := xgt (val iou) (Fin (_truth_thresh self)) = true in
  live mask = false /\
  (val mask = Fin 0 \/ val mask = Fin 1) /\
  (matched_boxes = true <-> box_match /\ class_match) /\
  (truth_alter = true <-> above_truth) /\
  (val mask = Fin 0 <-> box_match /\ class_match /\ ~ above_truth) /\
  (val iou = NaN ->
   val mask = Fin 1 /\ matched_boxes = false /\ truth_alter = false).
Proof.
  intros _ _ _ _.
  unfold get_mask. cbv zeta.
  set (box_match := xgt (val iou) (Fin (_ignore_thresh self))).
  set (truth_alter := xgt (val iou) (Fin (_truth_thresh self))).
  assert (Hcm : forall m n : nat, Nat.eqb m n = true <-> m = n)
    by (intros m n; apply Nat.eqb_eq).
  specialize (Hcm (argmax (map val (map tsigmoid classes)))
                  (argmax (map val true_classes))).
  set (class_match := Nat.eqb _ _) in *.
  assert (Hnan : val iou = NaN -> box_match = false /\ truth_alter = false).
  { intros H. subst box_match truth_alter. rewrite H. split; reflexivity. }
  assert (Hval : forall m : bool,
            val (stop_gradient
                   (op1 (fun e => math_ops.rm_nan_inf e (Fin 0))
                        (cast_bool m))) = Fin (if m then 1 else 0)).
  { intros m. reflexivity. }
  rewrite Hval.
  split; [reflexivity|].
  split; [destruct (negb (box_match && class_match) || truth_alter); auto|].
  split; [|split; [|split]].
  - rewrite andb_true_iff, Hcm. tauto.
  - tauto.
  - rewrite <- Hcm. clear Hcm Hnan Hval.
    destruct box_match, class_match, truth_alter; simpl; split;
      try (intros [= H]; lra);
      try (intros (H1 & H2 & H3); try discriminate; exfalso; auto; fail).
    + intros _. split; [reflexivity|]. split; [reflexivity|discriminate].
    + intros _. reflexivity.
  - intros H. destruct (Hnan H) as [-> ->]. simpl. auto.
Qed.

Lemma get_mask_binary_witness :
  let '(mask, matched_boxes, truth_alter) :=
    get_mask example_self (constant 0.9) [constant 2; constant 0]
             [constant 1; constant 0] in
  live mask = false /\ (val mask = Fin 0 \/ val mask = Fin 1).
Proof.
  pose proof (get_mask_binary (loss_utils := model_loss_utils) example_self
                (constant 0.9) [constant 2; constant 0]
                [constant 1; constant 0]
                ltac:(discriminate) ltac:(discriminate)
                ltac:(repeat constructor) ltac:(repeat constructor)) as H.
  destruct (get_mask example_self (constant 0.9) [constant 2; constant 0]
              [constant 1; constant 0]) as [[mask matched] alter].
  cbv zeta in H. destruct H as (H1 & H2 & _). split; assumption.
Defined.

(** ** More on [sort_drop] *)

Lemma strongly_sorted_app {X : Type} (R : X -> X -> Prop) (l1 l2 : list X) :
  StronglySorted R (l1 ++ l2) ->
  forall x y, In x l1 -> In y l2 -> R x y.
Proof.
  induction l1 as [|a l1 IH]; simpl; intros H x y Hx Hy; [contradiction|].
  apply StronglySorted_inv in H. destruct H as [Hs Hall].
  destruct Hx as [<- | Hx].
  - rewrite Forall_forall in Hall. apply Hall, in_or_app. right. exact Hy.
  - apply (IH Hs); assumption.
Qed.

Lemma sort_desc_sorted_id (l : list (xfloat * nat)) :
  Sorted not_below l -> sort_desc l = l.
Proof.
  induction 1 as [|x t Hs IH Hhd]; [reflexivity|].
  simpl. rewrite IH. destruct Hhd as [|y t' Hxy]; [reflexivity|].
  simpl. unfold not_below in Hxy. rewrite Hxy. reflexivity.
Qed.

Lemma sorted_combine_seq (l : list xfloat) (s : nat) :
  Sorted (fun a b => xlt a b = false) l ->
  Sorted not_below (combine l (seq s (List.length l))).
Proof.
  intros H. revert s. induction H as [|x t Hs IH Hhd]; intros s; simpl;
    constructor; [apply IH|].
  destruct Hhd as [|y t' Hxy]; simpl; constructor. exact Hxy.
Qed.

Lemma rows_split {A B : Type} (o : list xfloat) (b : list A) (c : list B) :
  List.length b = List.length o -> List.length c = List.length o ->
  map fst (combine o (combine b c)) = o /\
  map (fun r => fst (snd r)) (combine o (combine b c)) = b /\
  map (fun r => snd (snd r)) (combine o (combine b c)) = c.
Proof.
  revert b c. induction o as [|v o IH]; intros [|x b] [|y c] Hb Hc;
    try discriminate; simpl; [auto|].
  destruct (IH b c) as (H1 & H2 & H3); [simpl in *; lia..|].
  rewrite H1, H2, H3. auto.
Qed.

Lemma gather_nd_length {X : Type} (params : list X) (ind : list nat)
    (out : list X) :
  gather_nd params ind = Return out -> List.length out = List.length ind.
Proof.
  revert out. induction ind as [|i rest IH]; simpl; intros out H.
  - injection H as <-. reflexivity.
  - destruct (nth_error params i) as [a|]; [|discriminate].
    destruct (gather_nd params rest) as [t|e]; [|discriminate].
    simpl in H. injection H as <-. simpl. f_equal. apply IH. reflexivity.
Qed.

Lemma no_nan_perm (l l' : list xfloat) :
  Permutation l l' ->
  forallb (fun x => negb (is_nan x)) l = true ->
  forallb (fun x => negb (is_nan x)) l' = true.
Proof.
  intros Hp H. rewrite forallb_forall in H |- *. intros x Hx.
  apply H. apply (Permutation_in _ (Permutation_sym Hp)). exact Hx.
Qed.

Section SortDropMore.

Variables A B : Type.
Variables (da : A) (db : B).

Lemma ranked_rows_map (box : list A) (cls : list B)
    (ranked : list (xfloat * nat)) :
  combine (map fst ranked)
    (combine (map (fun p => nth (snd p) box da) ranked)
             (map (fun p => nth (snd p) cls db) ranked)) =
  map (ranked_row da db box cls) ranked.
Proof.
  induction ranked as [|p t IH]; simpl; [reflexivity|].
  rewrite IH. reflexivity.
Qed.

(** X16.  On aligned rows without a NaN confidence, [sort_drop] keeps
    the [k] best rows: the rows it returns together with the rows it
    drops are a permutation of the input rows (each confidence stays with
    its box and its classes), and no dropped row has a confidence above
    that of a returned row. *)
Theorem sort_drop_keeps_the_best (objectness : list xfloat) (box : list A)
    (cls : list B) (k : nat) :
  List.length box = List.length objectness ->
  List.length cls = List.length objectness ->
  (k <= List.length objectness)%nat ->
  forallb (fun x => negb (is_nan x)) objectness = true ->
  exists s b c dropped,
    nms_ops.sort_drop objectness box cls k = Return (s, b, c) /\
    List.length s = k /\
    Permutation (combine s (combine b c) ++ dropped)
                (combine objectness (combine box cls)) /\
    forall x y, In x s -> In y (map fst dropped) -> xle y x = true.
Proof.
  intros Hb Hc Hk Hnan.
  pose proof (sort_drop_ok A B da db objectness box cls k Hb Hc Hk) as Hsd.
  cbv zeta in Hsd.
  set (full := sort_desc (combine objectness
                            (seq 0 (List.length objectness)))) in *.
  assert (Hperm : Permutation full
                    (combine objectness (seq 0 (List.length objectness))))
    by apply sort_desc_perm.
  exists (map fst (firstn k full)),
         (map (fun p => nth (snd p) box da) (firstn k full)),
         (map (fun p => nth (snd p) cls db) (firstn k full)),
         (map (ranked_row da db box cls) (skipn k full)).
  split; [exact Hsd|]. split; [|split].
  - rewrite length_map, length_firstn. subst full.
    rewrite sort_desc_length, length_combine, length_seq. lia.
  - rewrite ranked_rows_map, <- map_app, firstn_skipn.
    rewrite <- (ranked_rows_combine A B da db objectness box cls [] []
                  Hb Hc eq_refl).
    apply Permutation_map. exact Hperm.
  - intros x y Hx Hy. rewrite map_map in Hy. cbn [ranked_row fst] in Hy.
    assert (Hfst : map fst (combine objectness
                                    (seq 0 (List.length objectness))) =
                   objectness).
    { clear. generalize 0%nat.
      induction objectness as [|v t IH]; intros s; simpl; [reflexivity|].
      rewrite IH. reflexivity. }
    assert (Hss : StronglySorted (fun a b => xle b a = true)
                    (map fst (firstn k full) ++ map fst (skipn k full))).
    { rewrite <- map_app, firstn_skipn. apply sorted_descending.
      - apply sorted_map_fst. subst full. apply sort_desc_sorted.
      - apply (no_nan_perm objectness); [|exact Hnan].
        rewrite <- Hfst at 1. apply Permutation_map, Permutation_sym, Hperm. }
    exact (strongly_sorted_app _ _ _ Hss x y Hx Hy).
Qed.

Lemma sort_drop_sorted (objectness : list xfloat) (box : list A)
    (cls : list B) (k : nat) :
  Sorted (fun a b => xlt a b = false) objectness ->
  List.length box = List.length objectness ->
  List.length cls = List.length objectness ->
  (k <= List.length objectness)%nat ->
  nms_ops.sort_drop objectness box cls k =
  Return (firstn k objectness, firstn k box, firstn k cls).
Proof.
  intros Hs Hb Hc Hk.
  rewrite (sort_drop_ok A B da db objectness box cls k Hb Hc Hk).
  rewrite (sort_desc_sorted_id _ (sorted_combine_seq objectness 0 Hs)).
  pose proof (ranked_rows_combine A B da db objectness box cls [] []
                Hb Hc eq_refl) as Hrows.
  simpl in Hrows.
  set (ranked := firstn k (combine objectness
                             (seq 0 (List.length objectness)))).
  assert (Hr : map (ranked_row da db box cls) ranked =
               combine (firstn k objectness)
                       (combine (firstn k box) (firstn k cls))).
  { subst ranked. rewrite <- firstn_map, Hrows, !combine_firstn.
    reflexivity. }
  destruct (rows_split (firstn k objectness) (firstn k box) (firstn k cls))
    as (H1 & H2 & H3).
  { rewrite !length_firstn. lia. }
  { rewrite !length_firstn. lia. }
  rewrite <- Hr, !map_map in H1, H2, H3.
  f_equal. f_equal; [f_equal|]; [exact H1 | exact H2 | exact H3].
Qed.

(** X17.  Rows without a NaN confidence that already come in descending
    order (no confidence below its successor) are left in place:
    [sort_drop] returns the first [k] confidences, boxes and classes as
    they are, and all the rows unchanged when [k] is their number. *)
Theorem sort_drop_sorted_input (objectness : list xfloat) (box : list A)
    (cls : list B) :
  forallb (fun x => negb (is_nan x)) objectness = true ->
  Sorted (fun a b => xlt a b = false) objectness ->
  List.length box = List.length objectness ->
  List.length cls = List.length objectness ->
  (forall k, (k <= List.length objectness)%nat ->
     nms_ops.sort_drop objectness box cls k =
     Return (firstn k objectness, firstn k box, firstn k cls)) /\
  nms_ops.sort_drop objectness box cls (List.length objectness) =
  Return (objectness, box, cls).
Proof.
  intros _ Hs Hb Hc. split.
  - intros k Hk. apply sort_drop_sorted; assumption.
  - rewrite sort_drop_sorted by auto.
    rewrite firstn_all. rewrite <- Hb at 1. rewrite firstn_all.
    rewrite <- Hc at 1. rewrite firstn_all. reflexivity.
Qed.

(** X18.  On confidences without NaN, [sort_drop] is idempotent:
    whenever it returns, with aligned rows or not, its result has [k]
    confidences, boxes and classes, none of them NaN, and ranking that
    result again with the same [k] returns it unchanged. *)
Theorem sort_drop_idempotent (objectness : list xfloat) (box : list A)
    (cls : list B) (k : nat) (s : list xfloat) (b : list A) (c : list B) :
  forallb (fun x => negb (is_nan x)) objectness = true ->
  nms_ops.sort_drop objectness box cls k = Return (s, b, c) ->
  List.length s = k /\ List.length b = k /\ List.length c = k /\
  forallb (fun x => negb (is_nan x)) s = true /\
  nms_ops.sort_drop s b c k = Return (s, b, c).
Proof.
  intros Hnan.
  unfold nms_ops.sort_drop at 1. unfold top_k.
  destruct (Nat.leb k (List.length objectness)) eqn:Hk; [|discriminate].
  apply Nat.leb_le in Hk. cbn [bind].
  set (ranked := firstn k (sort_desc (combine objectness
                             (seq 0 (List.length objectness))))).
  destruct (gather_nd box (map snd ranked)) as [b'|e] eqn:Hgb;
    [|discriminate].
  cbn [bind].
  destruct (gather_nd cls (map snd ranked)) as [c'|e] eqn:Hgc;
    [|discriminate].
  cbn [bind]. intros [= <- <- <-].
  assert (Hlen : List.length ranked = k).
  { subst ranked. rewrite length_firstn, sort_desc_length, length_combine,
      length_seq. lia. }
  apply gather_nd_length in Hgb, Hgc. rewrite length_map in Hgb, Hgc.
  assert (Hs : List.length (map fst ranked) = k)
    by (rewrite length_map; exact Hlen).
  split; [exact Hs|]. split; [lia|]. split; [lia|]. split.
  - rewrite forallb_forall in Hnan |- *. intros x Hx.
    apply in_map_iff in Hx. destruct Hx as ([v i] & <- & Hin).
    apply Hnan. subst ranked. apply in_firstn in Hin.
    apply (Permutation_in _ (sort_desc_perm _)) in Hin.
    apply in_combine_l in Hin. exact Hin.
  - rewrite sort_drop_sorted.
    + rewrite <- Hs at 1. rewrite firstn_all.
      rewrite <- Hlen, <- Hgb at 1. rewrite firstn_all.
      rewrite <- Hlen, <- Hgc at 1. rewrite firstn_all. reflexivity.
    + apply sorted_map_fst. subst ranked.
      apply sorted_firstn, sort_desc_sorted.
    + lia.
    + lia.
    + lia.
Qed.

End SortDropMore.

Lemma sort_drop_keeps_the_best_witness :
  exists s b c dropped,
    nms_ops.sort_drop [Fin 0; Fin 1] [zero_box; ((Fin 0, Fin 0), (Fin 1, Fin 1))]
      [[Fin 0]; [Fin 1]] 1 = Return (s, b, c) /\
    List.length s = 1%nat /\
    Permutation (combine s (combine b c) ++ dropped)
      (combine [Fin 0; Fin 1]
         (combine [zero_box; ((Fin 0, Fin 0), (Fin 1, Fin 1))]
                  [[Fin 0]; [Fin 1]])).
Proof.
  destruct (sort_drop_keeps_the_best boxv (list xfloat) zero_box []
              [Fin 0; Fin 1] [zero_box; ((Fin 0, Fin 0), (Fin 1, Fin 1))]
              [[Fin 0]; [Fin 1]] 1 eq_refl eq_refl
              ltac:(simpl; lia) eq_refl)
    as (s & b & c & dropped & H1 & H2 & H3 & _).
  exists s, b, c, dropped. auto.
Defined.

Lemma example_descending :
  Sorted (fun a b => xlt a b = false) [Fin 1; Fin 0].
Proof.
  repeat constructor. simpl. destruct (Rlt_dec 1 0); [lra | reflexivity].
Qed.

Lemma sort_drop_sorted_input_witness :
  nms_ops.sort_drop [Fin 1; Fin 0]
    [((Fin 0, Fin 0), (Fin 1, Fin 1)); zero_box] [[Fin 1]; [Fin 0]] 2 =
  Return ([Fin 1; Fin 0], [((Fin 0, Fin 0), (Fin 1, Fin 1)); zero_box],
          [[Fin 1]; [Fin 0]]).
Proof.
  exact (proj2 (sort_drop_sorted_input boxv (list xfloat) zero_box []
                  [Fin 1; Fin 0]
                  [((Fin 0, Fin 0), (Fin 1, Fin 1)); zero_box]
                  [[Fin 1]; [Fin 0]] eq_refl example_descending eq_refl
                  eq_refl)).
Defined.

Lemma sort_drop_idempotent_witness :
  nms_ops.sort_drop [Fin 1; Fin 0]
    [((Fin 0, Fin 0), (Fin 1, Fin 1)); zero_box] [[Fin 1]; [Fin 0]] 1 =
  Return ([Fin 1], [((Fin 0, Fin 0), (Fin 1, Fin 1))], [[Fin 1]]) /\
  nms_ops.sort_drop [Fin 1] [((Fin 0, Fin 0), (Fin 1, Fin 1))] [[Fin 1]] 1 =
  Return ([Fin 1], [((Fin 0, Fin 0), (Fin 1, Fin 1))], [[Fin 1]]).
Proof.
  assert (H : nms_ops.sort_drop [Fin 1; Fin 0]
                [((Fin 0, Fin 0), (Fin 1, Fin 1)); zero_box]
                [[Fin 1]; [Fin 0]] 1 =
              Return ([Fin 1], [((Fin 0, Fin 0), (Fin 1, Fin 1))],
                      [[Fin 1]])).
  { apply (sort_drop_sorted boxv (list xfloat) zero_box []);
      [exact example_descending | reflexivity | reflexivity | simpl; lia]. }
  split; [exact H|].
  exact (proj2 (proj2 (proj2 (proj2
           (sort_drop_idempotent boxv (list xfloat) zero_box []
              [Fin 1; Fin 0] _ _ _ _ _ _ eq_refl H))))).
Defined.

(** ** More on [segment_nms] and [nms] *)

Lemma map2_const {X Y Z : Type} (f : X -> Y -> Z) (l : list X) (c : Y)
    (s k : nat) :
  List.length l = k ->
  map2 f l (map (fun _ => c) (seq s k)) = map (fun x => f x c) l.
Proof.
  intros <-. unfold map2. revert s.
  induction l as [|x l IH]; intros s; simpl; [reflexivity|].
  rewrite IH. reflexivity.
Qed.


Lemma forall_nth_error {X : Type} (P : X -> Prop) (l : list X) :
  (forall n x, nth_error l n = Some x -> P x) -> Forall P l.
Proof.
  intros H. apply Forall_forall. intros x Hx.
  apply In_nth_error in Hx. destruct Hx as [n Hn]. exact (H n x Hn).
Qed.





Section SortDropForall.

Variables A B : Type.
Variables (da : A) (db : B).

Lemma sort_drop_forall (objectness : list xfloat) (box : list A)
    (cls : list B) (k : nat) :
  List.length box = List.length objectness ->
  List.length cls = List.length objectness ->
  (k <= List.length objectness)%nat ->
  exists s b c,
    nms_ops.sort_drop objectness box cls k = Return (s, b, c) /\
    List.length s = k /\ List.length b = k /\ List.length c = k /\
    (forall P, Forall P objectness -> Forall P s) /\
    (forall P, Forall P box -> Forall P b) /\
    (forall P, Forall P cls -> Forall P c).
Proof.
  intros Hb Hc Hk.
  pose proof (sort_drop_ok A B da db objectness box cls k Hb Hc Hk) as Hsd.
  destruct (top_k_ok objectness k Hk) as (_ & Hlen & _ & Hin).
  cbv zeta in Hsd, Hlen, Hin.
  set (ranked := firstn k (sort_desc (combine objectness
                             (seq 0 (List.length objectness))))) in *.
  do 3 eexists. split; [exact Hsd|]. rewrite !length_map.
  repeat split; try exact Hlen.
  - intros P HP. rewrite Forall_map, Forall_forall. intros [v i] Hp.
    subst ranked. apply in_firstn in Hp.
    apply (Permutation_in _ (sort_desc_perm _)) in Hp.
    apply in_combine_l in Hp. rewrite Forall_forall in HP. apply HP, Hp.
  - intros P HP. rewrite Forall_map, Forall_forall. intros p Hp.
    rewrite Forall_forall in Hin, HP. apply HP, nth_In.
    rewrite Hb. apply Hin, Hp.
  - intros P HP. rewrite Forall_map, Forall_forall. intros p Hp.
    rewrite Forall_forall in Hin, HP. apply HP, nth_In.
    rewrite Hc. apply Hin, Hp.
Qed.

End SortDropForall.

Section NmsMore.

Variable compute_diou : boxv -> boxv -> xfloat * xfloat.

(** X19.  Without overlap nothing is suppressed: when no pair of rows
    has a DIoU of at least the threshold (a NaN DIoU does not count),
    [segment_nms] returns its [k] boxes, classes and confidences
    unchanged. *)
Theorem segment_nms_without_overlap (boxes : list boxv)
    (classes confidence : list xfloat) (k : nat) (iou_thresh : R) :
  List.length boxes = k -> List.length classes = k ->
  List.length confidence = k ->
  (forall i j bi bj, (i < j)%nat ->
     nth_error boxes i = Some bi -> nth_error boxes j = Some bj ->
     xge (snd (compute_diou bi bj)) (Fin iou_thresh) = false) ->
  nms_ops.segment_nms compute_diou boxes classes confidence k iou_thresh =
  (boxes, classes, confidence).
Proof.
  intros Hb Hc Hs Hno. unfold nms_ops.segment_nms.
  assert (Hsup : forall j,
            nms_ops.suppressed compute_diou boxes iou_thresh j = false).
  { intros j.
    destruct (nms_ops.suppressed compute_diou boxes iou_thresh j) eqn:E;
      [|reflexivity].
    apply suppressed_iff in E. destruct E as (i & bi & bj & Hlt & Hi & Hj & H).
    rewrite (Hno i j bi bj Hlt Hi Hj) in H. discriminate. }
  assert (Hraw : map (fun j =>
                   Fin (1 - (if nms_ops.suppressed compute_diou boxes
                                  iou_thresh j then 1 else 0)))
                   (seq 0 k) =
                 map (fun _ => Fin (1 - 0)) (seq 0 k)).
  { apply map_ext. intros j. rewrite Hsup. reflexivity. }
  rewrite Hraw. cbv zeta.
  rewrite !map2_const by assumption.
  rewrite (map_ext _ (fun x => x) scale_box_keep), map_id.
  rewrite !(map_ext _ (fun x => x) xmul_keep), !map_id. reflexivity.
Qed.

(** X20.  The first row is never suppressed, whatever the boxes and the
    threshold, and raising the threshold never suppresses more: a row
    suppressed at a threshold is suppressed at every lower threshold. *)
Theorem suppression_threshold_monotone (boxes : list boxv) :
  (forall t, nms_ops.suppressed compute_diou boxes t 0 = false) /\
  (forall t1 t2 j, t1 <= t2 ->
     nms_ops.suppressed compute_diou boxes t2 j = true ->
     nms_ops.suppressed compute_diou boxes t1 j = true).
Proof.
  split.
  - intros t.
    destruct (nms_ops.suppressed compute_diou boxes t 0) eqn:E;
      [|reflexivity].
    apply suppressed_iff in E. destruct E as (i & _ & _ & Hlt & _). lia.
  - intros t1 t2 j Hle H. apply suppressed_iff in H.
    destruct H as (i & bi & bj & Hlt & Hi & Hj & H).
    apply suppressed_iff. exists i, bi, bj. repeat split; auto.
    unfold xge in *. apply (xle_trans _ (Fin t2)); [|exact H].
    simpl. destruct (Rle_dec t1 t2); [reflexivity | contradiction].
Qed.




End NmsMore.

Lemma segment_nms_without_overlap_witness :
  nms_ops.segment_nms (fun _ _ => (Fin 0, Fin 0))
    [zero_box; ((Fin 0, Fin 0), (Fin 1, Fin 1))] [Fin 0; Fin 1]
    [Fin 0.9; Fin 0.8] 2 0.5 =
  ([zero_box; ((Fin 0, Fin 0), (Fin 1, Fin 1))], [Fin 0; Fin 1],
   [Fin 0.9; Fin 0.8]).
Proof.
  apply (segment_nms_without_overlap (fun _ _ => (Fin 0, Fin 0)));
    try reflexivity.
  intros i j bi bj _ _ _. simpl.
  destruct (Rle_dec 0.5 0); [lra | reflexivity].
Defined.


(** ** The accumulation of [build_losses] *)

Lemma dict_get_filter (d : list (string * tv)) (k k' : string) :
  String.eqb k k' = false ->
  dict_get (filter (fun e => negb (String.eqb (fst e) k)) d) k' =
  dict_get d k'.
Proof.
  intros Hne. induction d as [|[k0 v] d IH]; simpl; [reflexivity|].
  destruct (String.eqb k0 k) eqn:E0; simpl.
  - apply String.eqb_eq in E0. subst k0. rewrite Hne. exact IH.
  - rewrite IH. reflexivity.
Qed.

Lemma dict_get_set (d : list (string * tv)) (k k' : string) (v : tv) :
  dict_get (dict_set d k v) k' =
  if String.eqb k k' then Some v else dict_get d k'.
Proof.
  unfold dict_set. simpl. destruct (String.eqb k k') eqn:E; [reflexivity|].
  apply dict_get_filter, E.
Qed.

Lemma dict_get_in (d : list (string * tv)) (k : string) (v : tv) :
  dict_get d k = Some v -> In (k, v) d.
Proof.
  induction d as [|[k0 v0] d IH]; simpl; [discriminate|].
  destruct (String.eqb k0 k) eqn:E.
  - apply String.eqb_eq in E. intros [= <-]. left. congruence.
  - intros H. right. apply IH, H.
Qed.

Lemma dict_set_detached (d : list (string * tv)) (k : string) (v : tv) :
  Forall (fun e => live (snd e) = false) d -> live v = false ->
  Forall (fun e => live (snd e) = false) (dict_set d k v).
Proof.
  intros Hd Hv. unfold dict_set. constructor; [exact Hv|].
  rewrite Forall_forall in Hd |- *. intros e He.
  apply filter_In in He. apply Hd, He.
Qed.

Lemma build_losses_loop_ok (_loss_dict : string -> option callable)
    (labels : pyobj) (outputs : list (string * pyobj))
    (results : list (tv * tv * tv * tv * tv * tv)) (st : losses_state) :
  Forall2 (level_ok _loss_dict labels) outputs results ->
  Forall (fun e => live (snd e) = false) (st_metric_dict st) ->
  exists st',
    build_losses_loop _loss_dict labels outputs st = Return st' /\
    st_loss st' = accumulate item_loss results (st_loss st) /\
    st_loss_box st' = accumulate item_loss_box results (st_loss_box st) /\
    st_loss_conf st' = accumulate item_loss_conf results (st_loss_conf st) /\
    st_loss_class st' =
      accumulate item_loss_class results (st_loss_class st) /\
    Forall (fun e => live (snd e) = false) (st_metric_dict st') /\
    (forall k, (dict_get (st_metric_dict st) k <> None \/
                exists key, In key (map fst outputs) /\
                  (k = "recall50_" ++ key \/ k = "avg_iou_" ++ key))%string ->
               dict_get (st_metric_dict st') k <> None).
Proof.
  intros H. revert st.
  induction H as [|[key output] r outputs results Hl _ IH]; intros st Hd.
  - exists st. simpl. repeat split; auto.
    intros k [Hk | (key & [] & _)]. exact Hk.
  - destruct Hl as (f & Hf & Hr). cbn [fst snd] in Hf, Hr.
    destruct r as [[[[[l lb] lc] lcl] ai] rc]. simpl in Hr.
    cbn [build_losses_loop]. rewrite Hf. cbn [bind]. rewrite Hr. cbn [bind].
    match goal with
    | |- context [build_losses_loop _ _ _ ?s] => set (st1 := s)
    end.
    destruct (IH st1) as (st' & Hloop & H1 & H2 & H3 & H4 & H5 & H6).
    { subst st1. cbn [st_metric_dict].
      apply dict_set_detached; [apply dict_set_detached|]; auto. }
    exists st'. split; [exact Hloop|].
    unfold accumulate. cbn [fold_left item_loss item_loss_box item_loss_conf
                            item_loss_class].
    repeat split; auto.
    intros k Hk. apply H6. subst st1. cbn [st_metric_dict].
    rewrite !dict_get_set.
    destruct (String.eqb ("avg_iou_" ++ key) k) eqn:E1;
      [left; discriminate|].
    destruct (String.eqb ("recall50_" ++ key) k) eqn:E2;
      [left; discriminate|].
    destruct Hk as [Hk | (key' & [<- | Hin] & Hk')].
    + left. exact Hk.
    + cbn [fst] in Hk'. destruct Hk' as [-> | ->].
      * rewrite String.eqb_refl in E2. discriminate.
      * rewrite String.eqb_refl in E1. discriminate.
    + right. exists key'. auto.
Qed.

(** X22.  When the loss registered for every level returns a
    six-component tuple on the two arguments it is given, [build_losses]
    returns; the total loss and the metrics box_loss, conf_loss and
    class_loss are the sums over the levels, in the order of the keys and
    starting from 0.0, of the first four components, and for every level
    the metrics recall50_<key> and avg_iou_<key> are present and detached
    from the gradient. *)
Theorem build_losses_accumulates (_loss_dict : string -> option callable)
    (outputs : list (string * pyobj)) (labels : pyobj)
    (results : list (tv * tv * tv * tv * tv * tv)) :
  Forall2 (level_ok _loss_dict labels) outputs results ->
  exists loss metric_dict,
    build_losses _loss_dict outputs labels = Return (loss, metric_dict) /\
    loss = accumulate item_loss results (constant 0) /\
    dict_get metric_dict "box_loss" =
      Some (accumulate item_loss_box results (constant 0)) /\
    dict_get metric_dict "conf_loss" =
      Some (accumulate item_loss_conf results (constant 0)) /\
    dict_get metric_dict "class_loss" =
      Some (accumulate item_loss_class results (constant 0)) /\
    forall key, In key (map fst outputs) ->
      exists r a,
        dict_get metric_dict ("recall50_" ++ key) = Some r /\
        live r = false /\
        dict_get metric_dict ("avg_iou_" ++ key) = Some a /\
        live a = false.
Proof.
  intros H. unfold build_losses.
  destruct (build_losses_loop_ok _loss_dict labels outputs results
              {| st_loss := constant 0; st_loss_box := constant 0;
                 st_loss_conf := constant 0; st_loss_class := constant 0;
                 st_metric_dict := [] |} H (Forall_nil _))
    as (st' & Hloop & H1 & H2 & H3 & H4 & H5 & H6).
  rewrite Hloop. cbn [bind]. do 2 eexists. split; [reflexivity|].
  cbn [st_loss st_loss_box st_loss_conf st_loss_class] in H1, H2, H3, H4.
  rewrite !dict_get_set. cbn [String.eqb Ascii.eqb Bool.eqb].
  rewrite H1, H2, H3, H4.
  repeat split.
  intros key Hkey.
  assert (Hr : dict_get (st_metric_dict st') ("recall50_" ++ key) <> None)
    by (apply H6; right; exists key; auto).
  assert (Ha : dict_get (st_metric_dict st') ("avg_iou_" ++ key) <> None)
    by (apply H6; right; exists key; auto).
  destruct (dict_get (st_metric_dict st') ("recall50_" ++ key)) as [r|] eqn:Er;
    [|congruence].
  destruct (dict_get (st_metric_dict st') ("avg_iou_" ++ key)) as [a|] eqn:Ea;
    [|congruence].
  exists r, a. rewrite !dict_get_set.
  change (String.eqb "class_loss" ("recall50_" ++ key)) with false.
  change (String.eqb "conf_loss" ("recall50_" ++ key)) with false.
  change (String.eqb "box_loss" ("recall50_" ++ key)) with false.
  change (String.eqb "class_loss" ("avg_iou_" ++ key)) with false.
  change (String.eqb "conf_loss" ("avg_iou_" ++ key)) with false.
  change (String.eqb "box_loss" ("avg_iou_" ++ key)) with false.
  cbv iota. rewrite Er, Ea.
  rewrite Forall_forall in H5.
  repeat split.
  - exact (H5 _ (dict_get_in _ _ _ Er)).
  - exact (H5 _ (dict_get_in _ _ _ Ea)).
Qed.

Lemma build_losses_accumulates_witness :
  exists loss metric_dict,
    build_losses
      (fun _ => Some (fun _ =>
         Return [Tv (Fin 1) true; Tv (Fin 2) true; Tv (Fin 3) true;
                 Tv (Fin 4) true; Tv (Fin 5) true; Tv (Fin 6) true]))
      [("3"%string, PyPred example_y_pred)] (PyLabels ["bbox"%string]) =
    Return (loss, metric_dict) /\
    dict_get metric_dict "box_loss" =
      Some (constant 0 + Tv (Fin 2) true)%tv.
Proof.
  destruct (build_losses_accumulates
              (fun _ => Some (fun _ =>
                 Return [Tv (Fin 1) true; Tv (Fin 2) true; Tv (Fin 3) true;
                         Tv (Fin 4) true; Tv (Fin 5) true; Tv (Fin 6) true]))
              [("3"%string, PyPred example_y_pred)] (PyLabels ["bbox"%string])
              [(Tv (Fin 1) true, Tv (Fin 2) true, Tv (Fin 3) true,
                Tv (Fin 4) true, Tv (Fin 5) true, Tv (Fin 6) true)])
    as (loss & md & Hb & _ & Hbox & _).
  { constructor; [|constructor]. eexists. split; reflexivity. }
  exists loss, md. split; [exact Hb | exact Hbox].
Defined.

Lemma build_losses_loop_app (_loss_dict : string -> option callable)
    (labels : pyobj) (pre rest : list (string * pyobj)) (st : losses_state) :
  build_losses_loop _loss_dict labels (pre ++ rest) st =
  (st' <- build_losses_loop _loss_dict labels pre st ;;
   build_losses_loop _loss_dict labels rest st').
Proof.
  revert st. induction pre as [|[key output] pre IH]; intros st;
    [reflexivity|].
  cbn [app build_losses_loop].
  destruct (_loss_dict key) as [f|]; cbn [bind]; [|reflexivity].
  destruct (f [labels; output]) as [r|e]; cbn [bind]; [|reflexivity].
  destruct r as [|a [|b [|c [|d [|e [|g [|h r]]]]]]]; try reflexivity.
  apply IH.
Qed.

(** X23.  [build_losses] stops at the first level that fails, whatever
    the levels before it returned: a key without a registered loss raises
    KeyError for that key, an error raised by the loss of the level is
    passed on, and a result that does not have exactly six components
    raises ValueError at the unpacking. *)
Theorem build_losses_first_failure (_loss_dict : string -> option callable)
    (pre rest : list (string * pyobj)) (key : string) (output : pyobj)
    (labels : pyobj) (results : list (tv * tv * tv * tv * tv * tv)) :
  Forall2 (level_ok _loss_dict labels) pre results ->
  let outputs := pre ++ (key, output) :: rest in
  (_loss_dict key = None ->
   build_losses _loss_dict outputs labels = Raise (KeyError key)) /\
  (forall f e, _loss_dict key = Some f ->
     f [labels; output] = Raise e ->
     build_losses _loss_dict outputs labels = Raise e) /\
  (forall f items, _loss_dict key = Some f ->
     f [labels; output] = Return items ->
     List.length items <> 6%nat ->
     build_losses _loss_dict outputs labels =
     Raise (ValueError "values to unpack (expected 6)")).
Proof.
  intros H outputs. subst outputs. unfold build_losses.
  rewrite build_losses_loop_app.
  destruct (build_losses_loop_ok _loss_dict labels pre results
              {| st_loss := constant 0; st_loss_box := constant 0;
                 st_loss_conf := constant 0; st_loss_class := constant 0;
                 st_metric_dict := [] |} H (Forall_nil _))
    as (st' & Hloop & _).
  rewrite Hloop. cbn [bind build_losses_loop].
  split; [|split].
  - intros ->. reflexivity.
  - intros f e -> Hf. cbn [bind]. rewrite Hf. reflexivity.
  - intros f items -> Hf Hlen. cbn [bind]. rewrite Hf. cbn [bind].
    destruct items as [|a [|b [|c [|d [|e [|g [|h r]]]]]]]; try reflexivity.
    simpl in Hlen. congruence.
Qed.

Lemma build_losses_first_failure_witness :
  build_losses
    (fun _ => Some (@Yolo_Loss_callable model_box_ops model_keras
                      model_loss_utils example_self))
    [("3"%string, PyPred example_y_pred)] (PyLabels ["bbox"%string]) =
  Raise (TypeError "__call__() positional arguments").
Proof.
  refine (proj1 (proj2
    (build_losses_first_failure
       (fun _ => Some (@Yolo_Loss_callable model_box_ops model_keras
                         model_loss_utils example_self))
       [] [] "3" (PyPred example_y_pred) (PyLabels ["bbox"%string]) []
       (Forall2_nil _))) _ _ eq_refl eq_refl).
Defined.

(** ** The filtering attributes of the head *)

Lemma range_nil (a b : Z) : (b <= a)%Z -> yolo_head.range a b = [].
Proof.
  intros H. unfold yolo_head.range.
  replace (Z.to_nat (b - a)) with O by lia. reflexivity.
Qed.

Lemma range_cons (a b : Z) :
  (a < b)%Z -> yolo_head.range a b = a :: yolo_head.range (a + 1) b.
Proof.
  intros H. unfold yolo_head.range.
  replace (Z.to_nat (b - a)) with (S (Z.to_nat (b - (a + 1)))) by lia.
  cbn [seq map]. f_equal; [lia|].
  rewrite <- seq_shift, map_map. apply map_ext. intros k. lia.
Qed.

Lemma range_length (a b : Z) :
  List.length (yolo_head.range a b) = Z.to_nat (b - a).
Proof. unfold yolo_head.range. rewrite length_map, length_seq. reflexivity. Qed.

Lemma range_in (a b i : Z) :
  In i (yolo_head.range a b) <-> (a <= i < b)%Z.
Proof.
  unfold yolo_head.range. rewrite in_map_iff. split.
  - intros (k & <- & Hk). apply in_seq in Hk. lia.
  - intros H. exists (Z.to_nat (i - a)). split; [lia|]. apply in_seq. lia.
Qed.

Lemma range_app (a b c : Z) :
  (a <= b)%Z -> (b <= c)%Z ->
  yolo_head.range a b ++ yolo_head.range b c = yolo_head.range a c.
Proof.
  intros Hab Hbc. remember (Z.to_nat (b - a)) as n eqn:Hn.
  revert a Hab Hn. induction n as [|n IH]; intros a Hab Hn.
  - assert (a = b) by lia. subst a. rewrite (range_nil b b) by lia.
    reflexivity.
  - rewrite (range_cons a b), (range_cons a c) by lia. cbn. f_equal.
    apply IH; lia.
Qed.

Lemma assign_fresh {V : Type} (d : list (Z * V)) (k : Z) (v : V) :
  ~ In k (map fst d) -> yolo_head.assign d k v = d ++ [(k, v)].
Proof.
  intros H. unfold yolo_head.assign.
  destruct (existsb (fun e => Z.eqb (fst e) k) d) eqn:E; [|reflexivity].
  exfalso. apply H. apply existsb_exists in E.
  destruct E as (e & He & Hk). apply Z.eqb_eq in Hk. subst k.
  apply in_map, He.
Qed.

(** The loop in closed form, for fresh and distinct levels on which the
    xy scale is defined. *)
Lemma filtering_loop_ok (self : yolo_head.YoloHead) (xy_exponential : bool)
    (exp_base : R) (xy_scale_base : yolo_head.scale_base) (sc : Z -> R)
    (levels : list Z) (st : yolo_head.loop_state) :
  (forall i, In i levels ->
     (if xy_exponential
      then yolo_head.exponential_scale exp_base xy_scale_base i
      else yolo_head.Ok 1.0) = yolo_head.Ok (sc i)) ->
  NoDup levels ->
  (forall i, In i levels ->
     ~ In i (map fst (yolo_head.boxes st)) /\
     ~ In i (map fst (yolo_head.path_scales_ st)) /\
     ~ In i (map fst (yolo_head.scale_x_y st))) ->
  exists st' ms,
    yolo_head.filtering_loop self xy_exponential exp_base xy_scale_base
      levels st = yolo_head.Ok st' /\
    yolo_head.boxes st' = yolo_head.boxes st ++ ms /\
    map fst ms = levels /\
    Forall (fun e => exists s, snd e =
              yolo_head.range s (yolo_head._boxes_per_level self + s)) ms /\
    ((0 <= yolo_head._boxes_per_level self)%Z ->
     List.concat (map snd ms) =
     yolo_head.range (yolo_head.start st)
       (yolo_head.start st +
        yolo_head._boxes_per_level self * Z.of_nat (List.length levels))) /\
    yolo_head.path_scales_ st' =
      yolo_head.path_scales_ st ++ map (fun i => (i, powerRZ 2 i)) levels /\
    yolo_head.scale_x_y st' =
      yolo_head.scale_x_y st ++ map (fun i => (i, sc i)) levels.
Proof.
  revert st. induction levels as [|i rest IH]; intros st Hsc Hnd Hfresh.
  - exists st, []. cbn. rewrite !app_nil_r.
    repeat split; auto. intros _. rewrite range_nil by lia. reflexivity.
  - cbn [yolo_head.filtering_loop]. rewrite (Hsc i (or_introl eq_refl)).
    destruct (Hfresh i (or_introl eq_refl)) as (F1 & F2 & F3).
    rewrite !assign_fresh by assumption.
    inversion Hnd as [|? ? Hni Hnd']; subst.
    match goal with
    | |- context [yolo_head.filtering_loop _ _ _ _ _ ?s] => set (st1 := s)
    end.
    destruct (IH st1) as (st' & ms & Hloop & Hb & Hk & Hr & Hc & Hp & Hs).
    { intros j Hj. apply Hsc. right. exact Hj. }
    { exact Hnd'. }
    { intros j Hj. subst st1. cbn.
      destruct (Hfresh j (or_intror Hj)) as (G1 & G2 & G3).
      rewrite !map_app, !in_app_iff. cbn.
      assert (i <> j) by (intros ->; contradiction).
      tauto. }
    exists st', ((i, yolo_head.range (yolo_head.start st)
                       (yolo_head._boxes_per_level self
                        + yolo_head.start st)) :: ms).
    split; [exact Hloop|]. subst st1. cbn in Hb, Hp, Hs, Hc.
    rewrite Hb, Hp, Hs, <- !app_assoc. cbn.
    repeat split; auto.
    + rewrite Hk. reflexivity.
    + constructor; [eexists; reflexivity | exact Hr].
    + intros Hn. rewrite (Hc Hn).
      replace (yolo_head._boxes_per_level self + yolo_head.start st)%Z
        with (yolo_head.start st + yolo_head._boxes_per_level self)%Z by lia.
      rewrite range_app by nia. f_equal. lia.
Qed.

Lemma range_nodup (a b : Z) : NoDup (yolo_head.range a b).
Proof.
  remember (Z.to_nat (b - a)) as n eqn:Hn. revert a Hn.
  induction n as [|n IH]; intros a Hn.
  - rewrite range_nil by lia. constructor.
  - rewrite range_cons by lia. constructor; [|apply IH; lia].
    rewrite range_in. lia.
Qed.

Lemma filtering_start (self : yolo_head.YoloHead) (xy_exponential : bool)
    (exp_base : R) (xy_scale_base : yolo_head.scale_base) (sc : Z -> R) :
  let levels :=
    yolo_head.range (yolo_head._min_level self)
                    (yolo_head._max_level self + 1) in
  (forall i, In i levels ->
     (if xy_exponential
      then yolo_head.exponential_scale exp_base xy_scale_base i
      else yolo_head.Ok 1.0) = yolo_head.Ok (sc i)) ->
  exists st' ms,
    yolo_head.filtering_loop self xy_exponential exp_base xy_scale_base
      levels {| yolo_head.start := 0; yolo_head.boxes := [];
                yolo_head.path_scales_ := []; yolo_head.scale_x_y := [] |} =
      yolo_head.Ok st' /\
    yolo_head.boxes st' = ms /\
    map fst ms = levels /\
    Forall (fun e => exists s, snd e =
              yolo_head.range s (yolo_head._boxes_per_level self + s)) ms /\
    ((0 <= yolo_head._boxes_per_level self)%Z ->
     List.concat (map snd ms) =
     yolo_head.range 0
       (yolo_head._boxes_per_level self * Z.of_nat (List.length levels))) /\
    yolo_head.path_scales_ st' = map (fun i => (i, powerRZ 2 i)) levels /\
    yolo_head.scale_x_y st' = map (fun i => (i, sc i)) levels.
Proof.
  intros levels Hsc.
  destruct (filtering_loop_ok self xy_exponential exp_base xy_scale_base sc
              levels
              {| yolo_head.start := 0; yolo_head.boxes := [];
                 yolo_head.path_scales_ := []; yolo_head.scale_x_y := [] |}
              Hsc (range_nodup _ _))
    as (st' & ms & H1 & H2 & H3 & H4 & H5 & H6 & H7).
  { intros i _. cbn. tauto. }
  exists st', ms. cbn in H2, H5, H6, H7. repeat split; auto.
Qed.

Lemma filtering_loop_scales (self : yolo_head.YoloHead)
    (xy_exponential : bool) (exp_base : R)
    (xy_scale_base : yolo_head.scale_base) (levels : list Z)
    (st st' : yolo_head.loop_state) :
  yolo_head.filtering_loop self xy_exponential exp_base xy_scale_base
    levels st = yolo_head.Ok st' ->
  forall i, In i levels ->
    (if xy_exponential
     then yolo_head.exponential_scale exp_base xy_scale_base i
     else yolo_head.Ok 1.0) =
    yolo_head.Ok
      (match (if xy_exponential
              then yolo_head.exponential_scale exp_base xy_scale_base i
              else yolo_head.Ok 1.0) with
       | yolo_head.Ok s => s
       | yolo_head.Err _ => 0
       end).
Proof.
  revert st. induction levels as [|j rest IH]; intros st H i Hi;
    [contradiction|].
  cbn [yolo_head.filtering_loop] in H.
  destruct (if xy_exponential
            then yolo_head.exponential_scale exp_base xy_scale_base j
            else yolo_head.Ok 1.0) as [s|e] eqn:E; [|discriminate].
  destruct Hi as [<- | Hi].
  - rewrite E. reflexivity.
  - exact (IH _ H i Hi).
Qed.

Lemma fold_min_max (k : Z) (rest : list Z) :
  forall x, In x (k :: rest) ->
    (fold_right Z.min k rest <= x <= fold_right Z.max k rest)%Z.
Proof.
  induction rest as [|y rest IH]; intros x Hx.
  - destruct Hx as [<- | []]. simpl. lia.
  - simpl. pose proof (IH k (or_introl eq_refl)) as Hk.
    destruct Hx as [Hx | [Hx | Hx]].
    + subst x. lia.
    + subst x. lia.
    + specialize (IH x (or_intror Hx)). lia.
Qed.

(** What a successful [_get_filtering_attributes] stores. *)
Lemma filtering_stored (self self' : yolo_head.YoloHead)
    (xy_exponential : bool) (exp_base : R)
    (xy_scale_base : yolo_head.scale_base) :
  yolo_head._get_filtering_attributes self xy_exponential exp_base
    xy_scale_base = (self', yolo_head.Ok tt) ->
  let levels :=
    yolo_head.range (yolo_head._min_level self)
                    (yolo_head._max_level self + 1) in
  exists base sc ms,
    yolo_head.resolve_base self xy_scale_base = yolo_head.Ok base /\
    (forall i, In i levels ->
       (if xy_exponential
        then yolo_head.exponential_scale exp_base base i
        else yolo_head.Ok 1.0) = yolo_head.Ok (sc i)) /\
    yolo_head._masks self' = Some ms /\
    yolo_head._path_scales self' =
      Some (map (fun i => (i, powerRZ 2 i)) levels) /\
    yolo_head._x_y_scales self' = Some (map (fun i => (i, sc i)) levels) /\
    yolo_head._min_level self' = yolo_head._min_level self /\
    yolo_head._max_level self' = yolo_head._max_level self /\
    yolo_head._boxes_per_level self' = yolo_head._boxes_per_level self /\
    map fst ms = levels /\
    Forall (fun e => exists s, snd e =
              yolo_head.range s (yolo_head._boxes_per_level self + s)) ms /\
    ((0 <= yolo_head._boxes_per_level self)%Z ->
     List.concat (map snd ms) =
     yolo_head.range 0
       (yolo_head._boxes_per_level self * Z.of_nat (List.length levels))).
Proof.
  intros H levels. unfold yolo_head._get_filtering_attributes in H.
  destruct (yolo_head.resolve_base self xy_scale_base) as [base|e] eqn:Eb;
    [|discriminate].
  fold levels in H.
  destruct (yolo_head.filtering_loop self xy_exponential exp_base base levels
              _) as [st|e] eqn:El; [|discriminate].
  pose proof (filtering_loop_scales _ _ _ _ _ _ _ El) as Hsc.
  destruct (filtering_start self xy_exponential exp_base base _ Hsc)
    as (st' & ms & H1 & H2 & H3 & H4 & H5 & H6 & H7).
  fold levels in H1, H3, H5, H6, H7. rewrite El in H1.
  injection H1 as <-. injection H as <-. cbn.
  exists base. eexists. exists ms. split; [reflexivity|].
  split; [exact Hsc|]. rewrite H2, H6, H7. repeat split; auto.
Qed.

(** X24.  After a successful [build] the masks cover every level from
    the least to the greatest key, so every input key and every level in
    between, whether it is a key or not; each mask holds
    [boxes_per_level] consecutive indices, and for a non-negative
    [boxes_per_level] the masks, taken level by level, are exactly the
    indices 0 .. num_boxes - 1, each once and in order. *)
Theorem head_build_masks_partition (self self' : yolo_head.YoloHead)
    (keys : list Z) :
  yolo_head.build self keys = (self', yolo_head.Ok tt) ->
  exists m,
    yolo_head.masks self' = yolo_head.Ok m /\
    map fst m = yolo_head.range (yolo_head._min_level self')
                                (yolo_head._max_level self' + 1) /\
    (forall k, In k keys -> In k (map fst m)) /\
    Forall (fun e => List.length (snd e) =
                     Z.to_nat (yolo_head._boxes_per_level self')) m /\
    ((0 <= yolo_head._boxes_per_level self')%Z ->
     List.concat (map snd m) =
     yolo_head.range 0 (yolo_head.num_boxes self')).
Proof.
  unfold yolo_head.build. destruct keys as [|k rest]; [discriminate|].
  intros H. apply filtering_stored in H. cbv zeta in H. cbn in H.
  destruct H as (base & sc & ms & _ & _ & Hm & _ & _ & Hmin & Hmax & Hb &
                 Hk & Hr & Hc).
  exists ms. unfold yolo_head.masks, yolo_head.num_boxes.
  rewrite Hm, Hmin, Hmax, Hb.
  pose proof (fold_min_max k rest) as Hmm.
  split; [reflexivity|]. split; [exact Hk|]. split; [|split].
  - intros x Hx. rewrite Hk. apply range_in.
    specialize (Hmm x Hx). lia.
  - apply (Forall_impl _ (P := fun e => exists s, snd e =
             yolo_head.range s (yolo_head._boxes_per_level self + s)));
      [|exact Hr].
    intros e (s & ->). rewrite range_length. f_equal. lia.
  - intros Hn. rewrite (Hc Hn), range_length.
    specialize (Hmm k (or_introl eq_refl)).
    f_equal. lia.
Qed.

Lemma head_build_masks_partition_witness :
  exists self' m,
    yolo_head.build example_head [3; 5]%Z = (self', yolo_head.Ok tt) /\
    yolo_head.masks self' = yolo_head.Ok m /\
    map fst m = [3; 4; 5]%Z /\
    List.concat (map snd m) = [0; 1; 2; 3; 4; 5; 6; 7; 8]%Z.
Proof.
  eexists.
  assert (H : yolo_head.build example_head [3; 5]%Z =
              (_, yolo_head.Ok tt)) by reflexivity.
  destruct (head_build_masks_partition _ _ _ H) as (m & H1 & H2 & _ & _ & H5).
  exists m. split; [exact H|]. split; [exact H1|].
  split; [exact H2|]. apply H5. cbn. lia.
Defined.

Lemma powerRZ_increasing (b : R) (i j : Z) :
  1 < b -> (i < j)%Z -> 0 < powerRZ b i < powerRZ b j.
Proof.
  intros Hb Hij.
  assert (Hpos : 0 < powerRZ b i) by (apply powerRZ_lt; lra).
  split; [exact Hpos|].
  replace j with (i + (j - i))%Z by lia.
  rewrite powerRZ_add by lra.
  assert (1 < powerRZ b (j - i)).
  { replace (j - i)%Z with (Z.of_nat (Z.to_nat (j - i))) by lia.
    rewrite <- pow_powerRZ. apply Rlt_pow_R1; [exact Hb | lia]. }
  nra.
Qed.

(** X25.  What a successful [_get_filtering_attributes] stores as
    scales: the path scale of level [i] is [2**i]; without
    [xy_exponential] every xy scale is 1.0; with it and the base
    "default_value" the xy scale of level [i] is
    [1 + 0.00625 * exp_base**i], which for [exp_base > 1] is above 1 and
    grows strictly with the level; and the base "default_base" gives the
    very same result as "default_value" when the head has nine boxes in
    all. *)
Theorem filtering_scales (self self' : yolo_head.YoloHead)
    (xy_exponential : bool) (exp_base : R)
    (xy_scale_base : yolo_head.scale_base) :
  yolo_head._get_filtering_attributes self xy_exponential exp_base
    xy_scale_base = (self', yolo_head.Ok tt) ->
  let levels :=
    yolo_head.range (yolo_head._min_level self)
                    (yolo_head._max_level self + 1) in
  yolo_head.path_scales self' =
    yolo_head.Ok (map (fun i => (i, powerRZ 2 i)) levels) /\
  (xy_exponential = false ->
   yolo_head.scale_xy self' = yolo_head.Ok (map (fun i => (i, 1)) levels)) /\
  (xy_exponential = true ->
   xy_scale_base = yolo_head.BaseName "default_value" ->
   yolo_head.scale_xy self' =
     yolo_head.Ok
       (map (fun i => (i, 1 + 0.00625 * powerRZ exp_base i)) levels) /\
   (1 < exp_base ->
    forall i j, (i < j)%Z ->
      1 < 1 + 0.00625 * powerRZ exp_base i
        < 1 + 0.00625 * powerRZ exp_base j)) /\
  (xy_scale_base = yolo_head.BaseName "default_base" ->
   (yolo_head._boxes_per_level self *
    (yolo_head._max_level self - yolo_head._min_level self + 1) = 9)%Z ->
   yolo_head._get_filtering_attributes self xy_exponential exp_base
     (yolo_head.BaseName "default_value") = (self', yolo_head.Ok tt)).
Proof.
  intros H levels.
  pose proof (filtering_stored _ _ _ _ _ H) as Hst. cbv zeta in Hst.
  fold levels in Hst.
  destruct Hst as (base & sc & ms & Hbase & Hsc & Hm & Hp & Hs & _).
  unfold yolo_head.path_scales, yolo_head.scale_xy. rewrite Hp, Hs.
  split; [reflexivity|]. split; [|split].
  - intros ->. f_equal. apply map_ext_in. intros i Hi.
    specialize (Hsc i Hi). cbn in Hsc. injection Hsc as <-.
    f_equal. lra.
  - intros -> ->. cbn in Hbase. injection Hbase as <-. split.
    + f_equal. apply map_ext_in. intros i Hi.
      specialize (Hsc i Hi). cbn in Hsc.
      unfold yolo_head.exponential_scale in Hsc.
      assert (Hpow : forall p, yolo_head.pow exp_base i = yolo_head.Ok p ->
                               p = powerRZ exp_base i).
      { unfold yolo_head.pow. intros p.
        destruct (Req_dec_T exp_base 0); [destruct (i <? 0)%Z|];
          congruence. }
      destruct (yolo_head.pow exp_base i) as [p|e] eqn:Ep; [|discriminate].
      injection Hsc as <-. rewrite (Hpow p eq_refl). f_equal. lra.
    + intros Hb i j Hij.
      destruct (powerRZ_increasing exp_base i j Hb Hij). lra.
  - intros -> H9. rewrite <- H.
    unfold yolo_head._get_filtering_attributes, yolo_head.resolve_base.
    cbn [String.eqb Ascii.eqb Bool.eqb]. cbv iota. rewrite H9. cbn [Z.sub Z.eqb].
    replace (0.05 / IZR (9 - 1)) with 0.00625; [reflexivity|].
    change (9 - 1)%Z with 8%Z. lra.
Qed.

Lemma filtering_scales_witness :
  exists self',
    yolo_head._get_filtering_attributes example_head false 2
      (yolo_head.BaseName "default_value") = (self', yolo_head.Ok tt) /\
    yolo_head.scale_xy self' = yolo_head.Ok [(0%Z, 1)].
Proof.
  eexists.
  assert (H : yolo_head._get_filtering_attributes example_head false 2
                (yolo_head.BaseName "default_value") =
              (_, yolo_head.Ok tt)) by reflexivity.
  split; [exact H|].
  exact (proj1 (proj2 (filtering_scales _ _ _ _ _ H)) eq_refl).
Defined.

(** X26.  When [_get_filtering_attributes] raises, and that it then
    leaves the head as it was.  The base "default_base" raises
    ZeroDivisionError when [boxes_per_level] times the number of levels is
    1, even without [xy_exponential], where the base is never used.  With
    [xy_exponential] and at least one level, a zero [exp_base] with a
    negative least level raises ZeroDivisionError, and otherwise a base
    that is a string other than the two names raises TypeError.  In every
    other case the call returns: without [xy_exponential] or without
    levels nothing but the division can fail. *)
Theorem filtering_failures (self : yolo_head.YoloHead)
    (xy_exponential : bool) (exp_base : R)
    (xy_scale_base : yolo_head.scale_base) :
  let d := (yolo_head._boxes_per_level self *
            (yolo_head._max_level self - yolo_head._min_level self + 1)
            - 1)%Z in
  let result :=
    yolo_head._get_filtering_attributes self xy_exponential exp_base
      xy_scale_base in
  let divides :=
    xy_scale_base = yolo_head.BaseName "default_base" -> d <> 0%Z in
  let has_levels := (yolo_head._min_level self <= yolo_head._max_level self)%Z in
  let power_defined := exp_base <> 0 \/ (0 <= yolo_head._min_level self)%Z in
  let numeric :=
    forall s, xy_scale_base = yolo_head.BaseName s ->
              s = "default_base"%string \/ s = "default_value"%string in
  (xy_scale_base = yolo_head.BaseName "default_base" -> d = 0%Z ->
   result = (self, yolo_head.Err yolo_head.ZeroDivisionError)) /\
  (divides -> xy_exponential = true -> has_levels -> ~ power_defined ->
   result = (self, yolo_head.Err yolo_head.ZeroDivisionError)) /\
  (divides -> xy_exponential = true -> has_levels -> power_defined ->
   ~ numeric -> result = (self, yolo_head.Err yolo_head.TypeError)) /\
  (divides -> xy_exponential = true -> power_defined -> numeric ->
   snd result = yolo_head.Ok tt) /\
  (divides -> xy_exponential = false \/ ~ has_levels ->
   snd result = yolo_head.Ok tt).
Proof.
  intros d result divides has_levels power_defined numeric.
  subst result. unfold yolo_head._get_filtering_attributes.
  set (levels := yolo_head.range (yolo_head._min_level self)
                                 (yolo_head._max_level self + 1)).
  assert (Hres : divides ->
            exists base,
              yolo_head.resolve_base self xy_scale_base = yolo_head.Ok base /\
              ((exists v, base = yolo_head.BaseValue v) <-> numeric)).
  { intros Hd. unfold yolo_head.resolve_base. subst numeric.
    destruct xy_scale_base as [s|v].
    - destruct (String.eqb s "default_base") eqn:E1.
      + apply String.eqb_eq in E1. subst s. fold d.
        destruct (Z.eqb_spec d 0) as [E|E]; [exfalso; exact (Hd eq_refl E)|].
        eexists. split; [reflexivity|]. split; [|eauto].
        intros _ s [= <-]. auto.
      + destruct (String.eqb s "default_value") eqn:E2.
        * apply String.eqb_eq in E2. subst s.
          eexists. split; [reflexivity|]. split; [|eauto].
          intros _ s [= <-]. auto.
        * eexists. split; [reflexivity|]. split.
          -- intros [v Hv]. discriminate.
          -- intros Hn. destruct (Hn s eq_refl) as [-> | ->];
               [rewrite String.eqb_refl in E1 | rewrite String.eqb_refl in E2];
               discriminate.
    - eexists. split; [reflexivity|]. split; [|eauto].
      intros _ s Hs. discriminate. }
  assert (Hok : forall base sc,
            (forall i, In i levels ->
               (if xy_exponential
                then yolo_head.exponential_scale exp_base base i
                else yolo_head.Ok 1.0) = yolo_head.Ok (sc i)) ->
            exists st,
              yolo_head.filtering_loop self xy_exponential exp_base base
                levels {| yolo_head.start := 0; yolo_head.boxes := [];
                          yolo_head.path_scales_ := [];
                          yolo_head.scale_x_y := [] |} = yolo_head.Ok st).
  { intros base sc Hsc.
    destruct (filtering_start self xy_exponential exp_base base sc Hsc)
      as (st & _ & H1 & _). exists st. exact H1. }
  split; [|split; [|split; [|split]]].
  - intros -> Hd. unfold yolo_head.resolve_base.
    cbn [String.eqb Ascii.eqb Bool.eqb]. cbv iota. fold d. rewrite Hd.
    reflexivity.
  - intros Hd -> Hl Hp. destruct (Hres Hd) as (base & -> & _).
    subst power_defined has_levels.
    assert (E0 : exp_base = 0) by (destruct (Req_dec_T exp_base 0); tauto).
    subst levels. rewrite range_cons by lia.
    cbn [yolo_head.filtering_loop].
    unfold yolo_head.exponential_scale, yolo_head.pow.
    destruct (Req_dec_T exp_base 0); [|contradiction].
    destruct (Z.ltb_spec (yolo_head._min_level self) 0); [reflexivity|].
    exfalso. apply Hp. right. assumption.
  - intros Hd -> Hl Hp Hn. destruct (Hres Hd) as (base & -> & Hb).
    subst has_levels.
    subst levels. rewrite range_cons by lia.
    cbn [yolo_head.filtering_loop].
    unfold yolo_head.exponential_scale, yolo_head.pow.
    assert (Hname : exists s, base = yolo_head.BaseName s).
    { destruct base as [s|v]; [eauto|]. exfalso. apply Hn, Hb. eauto. }
    destruct Hname as [s ->].
    destruct (Req_dec_T exp_base 0) as [E|E]; [|reflexivity].
    destruct (Z.ltb_spec (yolo_head._min_level self) 0); [|reflexivity].
    exfalso. destruct Hp as [Hp | Hp]; [contradiction | lia].
  - intros Hd -> Hp Hn. destruct (Hres Hd) as (base & -> & Hb).
    apply Hb in Hn. destruct Hn as [v ->].
    destruct (Hok (yolo_head.BaseValue v)
                (fun i => 1.0 + v * powerRZ exp_base i)) as [st ->];
      [|reflexivity].
    intros i Hi. subst levels. apply range_in in Hi.
    unfold yolo_head.exponential_scale, yolo_head.pow.
    destruct (Req_dec_T exp_base 0) as [E|E]; [|reflexivity].
    destruct (Z.ltb_spec i 0); [|reflexivity].
    exfalso. destruct Hp as [Hp | Hp]; [contradiction | lia].
  - intros Hd Hcase. destruct (Hres Hd) as (base & -> & _).
    destruct Hcase as [-> | Hl].
    + destruct (Hok base (fun _ => 1.0)) as [st ->]; reflexivity.
    + subst levels has_levels. rewrite range_nil by lia. reflexivity.
Qed.

(** ** The sign of the mse box term *)

Lemma nonneg_square (x : xfloat) : xlt (xsquare x) (Fin 0) = false.
Proof.
  destruct x; unfold xsquare; simpl; try reflexivity.
  destruct (Rlt_dec (r * r) 0); [nra | reflexivity].
Qed.

Lemma nonneg_add (x y : xfloat) :
  xlt x (Fin 0) = false -> xlt y (Fin 0) = false ->
  xlt (xadd x y) (Fin 0) = false.
Proof.
  destruct x, y; simpl; try reflexivity; try discriminate.
  destruct (Rlt_dec r 0), (Rlt_dec r0 0); try discriminate. intros _ _.
  destruct (Rlt_dec (r + r0) 0); [lra | reflexivity].
Qed.

Lemma nonneg_mul (x : xfloat) (s : R) :
  xlt x (Fin 0) = false -> 0 <= s -> xlt (xmul x (Fin s)) (Fin 0) = false.
Proof.
  destruct x; simpl; try reflexivity; try discriminate.
  - destruct (Rlt_dec r 0); [discriminate|]. intros _ Hs.
    destruct (Rlt_dec (r * s) 0); [nra | reflexivity].
  - intros _ Hs. unfold inf_times, inf_of.
    destruct (Rlt_dec 0 s); [reflexivity|].
    destruct (Rlt_dec s 0); [lra | reflexivity].
Qed.

Lemma nonneg_mul_no_nan (t : R) (x : xfloat) :
  0 <= t -> xlt x (Fin 0) = false ->
  xlt (math_ops.mul_no_nan (Fin t) x) (Fin 0) = false.
Proof.
  intros Ht Hx. unfold math_ops.mul_no_nan. simpl.
  destruct (Req_dec_T t 0).
  - simpl. destruct (Rlt_dec 0 0); [lra | reflexivity].
  - destruct x; simpl in *; try reflexivity; try discriminate.
    + destruct (Rlt_dec r 0); [discriminate|].
      destruct (Rlt_dec (t * r) 0); [nra | reflexivity].
    + unfold inf_times, inf_of.
      destruct (Rlt_dec 0 t); [reflexivity|].
      destruct (Rlt_dec t 0); [lra | reflexivity].
Qed.

Section MseBoxTerm.

Context {box_ops : BoxOps} {keras : KerasLosses} {loss_utils : LossUtils}.

(** X27.  With the mse box loss (loss type neither giou nor ciou) and a
    non-negative [iou_normalizer], the box term of a cell is never
    negative (it is a non-negative number, +Inf or NaN, whatever the
    prediction is) when the ground-truth width and height have a product
    of at most 2, as normalized boxes have, and the objectness indicator
    is not negative: the weight [2 - w * h] of darknet stays
    non-negative. *)
Theorem mse_box_term_nonnegative (self : Yolo_Loss) (y_true : y_true_tensor)
    (y_pred : y_pred_tensor) (boxes : nat -> list box)
    (classes : nat -> list tv) (b i j a : nat) (w h t : R) :
  _loss_type self <> 1%nat -> _loss_type self <> 2%nat ->
  0 <= _iou_normalizer self ->
  val (fst (snd (fst (fst (fst (y_at y_true b i j a)))))) = Fin w ->
  val (snd (snd (fst (fst (fst (y_at y_true b i j a)))))) = Fin h ->
  w * h <= 2 ->
  val (true_conf_of (y_at y_true b i j a)) = Fin t -> 0 <= t ->
  xlt (val (c_loss_box (call_cells self y_true y_pred boxes classes) b i j a))
      (Fin 0) = false.
Proof.
  intros H1 H2 Hn Hw Hh Hwh Ht Htpos.
  unfold call_cells, _get_label_attributes.
  destruct (y_shape y_true) as [[[batch_size width] height] num].
  destruct (GridGenerator_call _ _ _ _) as [grid_points anchor_grid].
  cbv zeta.
  destruct (build_masks _ _ _ _ _ _ _) as [mask_loss true_mask].
  apply Nat.eqb_neq in H1, H2. rewrite H1, H2.
  cbn [c_loss_box y_at]. unfold true_conf_of in Ht.
  destruct (y_at y_true b i j a) as [[[[txy [tw th]] conf] cls] best].
  cbn [fst snd] in Hw, Hh, Ht.
  unfold stop_gradient_entry, stop_gradient_box, stop_gradient2.
  cbn [fst snd].
  unfold tmul_no_nan, op2, stop_gradient, treduce_sum, tsquare, op1, constant.
  cbn [val map]. rewrite Ht, Hw, Hh.
  apply nonneg_mul_no_nan; [exact Htpos|].
  cbn [xsub xopp xmul xadd].
  apply nonneg_mul.
  - unfold reduce_sum. cbn [fold_right].
    repeat apply nonneg_add; try apply nonneg_square.
    all: simpl; destruct (Rlt_dec 0 0); [lra | reflexivity].
  - nra.
Qed.

End MseBoxTerm.

Lemma mse_box_term_nonnegative_witness :
  xlt (val (c_loss_box
              (@call_cells model_box_ops model_keras model_loss_utils
                 example_self example_y_true_object example_y_pred
                 example_boxes example_classes) O O O O))
      (Fin 0) = false.
Proof.
  apply (@mse_box_term_nonnegative model_box_ops model_keras
           model_loss_utils example_self example_y_true_object
           example_y_pred example_boxes example_classes O O O O 1 1 1);
    try reflexivity; try discriminate; simpl; lra.
Defined.

(** ** Non-max suppression on finite candidates *)

Lemma Rceil_unit (x : R) : 0 < x -> x <= 1 -> Rceil x = 1.
Proof.
  intros H0 H1. unfold Rceil.
  rewrite <- (Int_part_spec (- x) (-1)%Z); [lra | lra].
Qed.

(** The mask of a candidate above the threshold by at most one. *)
Lemma pre_nms_mask_above (c pre : R) :
  pre < c -> c <= pre + 1 -> xceil (relu (xsub (Fin c) (Fin pre))) = Fin 1.
Proof.
  intros H0 H1. unfold relu, xmax, xsub. simpl. rdec; simpl; try lra.
  f_equal. apply Rceil_unit; lra.
Qed.

Lemma scale_box_one (b : boxv) : scale_box b (Fin 1) = b.
Proof.
  destruct b as [[x y] [w h]]. unfold scale_box. cbn [fst snd].
  rewrite !xmul_one_r. reflexivity.
Qed.

Lemma scores_one (cl : list xfloat) : map (fun s => xmul s (Fin 1)) cl = cl.
Proof.
  induction cl as [|s cl IH]; simpl; [reflexivity|].
  rewrite xmul_one_r, IH. reflexivity.
Qed.

Lemma reduce_max_finite (cl : list xfloat) :
  cl <> [] -> forallb is_finite cl = true ->
  is_finite (reduce_max cl) = true.
Proof.
  induction cl as [|s cl IH]; [congruence|]. intros _ H.
  simpl in H. apply andb_true_iff in H. destruct H as [Hs Hcl].
  destruct s as [s| | |]; try discriminate.
  destruct cl as [|s' cl].
  - reflexivity.
  - change (reduce_max (Fin s :: s' :: cl))
      with (xmax (Fin s) (reduce_max (s' :: cl))).
    specialize (IH ltac:(discriminate) Hcl).
    destruct (reduce_max (s' :: cl)) as [m| | |]; try discriminate.
    unfold xmax. simpl. rdec; reflexivity.
Qed.

Lemma forallb_zeros (cl : list xfloat) :
  forallb is_finite (map (fun _ => Fin 0) cl) = true.
Proof. induction cl; simpl; auto. Qed.

(** A candidate above the threshold by at most one leaves the
    thresholding as it came, its confidence replaced by its largest class
    score with [use_classes]. *)
Lemma thresholded_above (boxes : list boxv) (classes : list (list xfloat))
    (confidence : list xfloat) (pre : R) (use_classes : bool)
    (n : nat) (c : R) (bx : boxv) (cl : list xfloat) :
  nth_error confidence n = Some (Fin c) ->
  nth_error boxes n = Some bx ->
  nth_error classes n = Some cl ->
  pre < c -> c <= pre + 1 ->
  let '(confidence', boxes', classes') :=
    nms_ops.thresholded boxes classes confidence pre use_classes in
  nth_error confidence' n =
    Some (if use_classes then reduce_max cl else Fin c) /\
  nth_error boxes' n = Some bx /\
  nth_error classes' n = Some cl.
Proof.
  intros Hc Hb Hcl H0 H1.
  unfold nms_ops.thresholded.
  assert (Hmask : nth_error (nms_ops.pre_nms_mask confidence pre) n =
                  Some (Fin 1)).
  { unfold nms_ops.pre_nms_mask. rewrite nth_error_map, Hc.
    cbn [option_map].
    rewrite pre_nms_mask_above by assumption. reflexivity. }
  assert (Hclasses :
    nth_error (map2 (fun row m => map (fun s => xmul s m) row) classes
                 (nms_ops.pre_nms_mask confidence pre)) n = Some cl).
  { rewrite nth_error_map2, Hcl, Hmask, scores_one. reflexivity. }
  split; [|split].
  - destruct use_classes.
    + rewrite nth_error_map, Hclasses. reflexivity.
    + rewrite nth_error_map2, Hc, Hmask, xmul_one_r. reflexivity.
  - rewrite nth_error_map2, Hb, Hmask, scale_box_one. reflexivity.
  - exact Hclasses.
Qed.

(** The thresholding of finite candidates: a row is zeroed or kept, and
    every row stays finite. *)
Lemma thresholded_rows (boxes : list boxv) (classes : list (list xfloat))
    (confidence : list xfloat) (pre : R) (use_classes : bool) :
  List.length boxes = List.length confidence ->
  List.length classes = List.length confidence ->
  Forall (fun c => exists r, c = Fin r /\ r <= pre + 1) confidence ->
  Forall (fun b => finite_box b = true) boxes ->
  Forall (fun row => row <> [] /\ forallb is_finite row = true) classes ->
  let '(t_confidence, t_boxes, t_classes) :=
    nms_ops.thresholded boxes classes confidence pre use_classes in
  (forall n c bx cl,
     nth_error confidence n = Some (Fin c) ->
     nth_error boxes n = Some bx ->
     nth_error classes n = Some cl ->
     (c <= pre ->
      nth_error t_confidence n = Some (Fin 0) /\
      nth_error t_boxes n = Some zero_box /\
      nth_error t_classes n = Some (map (fun _ => Fin 0) cl)) /\
     (pre < c ->
      nth_error t_confidence n =
        Some (if use_classes then reduce_max cl else Fin c) /\
      nth_error t_boxes n = Some bx /\
      nth_error t_classes n = Some cl)) /\
  Forall (fun c => is_finite c = true) t_confidence /\
  Forall (fun b => finite_box b = true) t_boxes /\
  Forall (fun row => row <> [] /\ forallb is_finite row = true) t_classes.
Proof.
  intros Hb Hc Hconf Hbox Hcls.
  pose proof (thresholded_lengths boxes classes confidence pre use_classes
                Hb Hc) as Hlen.
  pose proof (fun n c bx cl =>
                thresholded_below boxes classes confidence pre use_classes
                  n c bx cl) as Hlow.
  pose proof (fun n c bx cl =>
                thresholded_above boxes classes confidence pre use_classes
                  n c bx cl) as Hhigh.
  destruct (nms_ops.thresholded boxes classes confidence pre use_classes)
    as [[tc tb] tcl].
  destruct Hlen as (L1 & L2 & L3).
  rewrite Forall_forall in Hconf, Hbox, Hcls.
  assert (Hcases : forall n c bx cl,
     nth_error confidence n = Some (Fin c) ->
     nth_error boxes n = Some bx ->
     nth_error classes n = Some cl ->
     (c <= pre ->
      nth_error tc n = Some (Fin 0) /\
      nth_error tb n = Some zero_box /\
      nth_error tcl n = Some (map (fun _ => Fin 0) cl)) /\
     (pre < c ->
      nth_error tc n =
        Some (if use_classes then reduce_max cl else Fin c) /\
      nth_error tb n = Some bx /\
      nth_error tcl n = Some cl)).
  { intros n c bx cl Ec Eb El.
    destruct (Hconf _ (nth_error_In _ _ Ec)) as (r & [= <-] & Hr).
    destruct (Hcls _ (nth_error_In _ _ El)) as [Hne Hf].
    split.
    - intros Hle. apply (Hlow n c bx cl); auto.
      apply Hbox, (nth_error_In _ _ Eb).
    - intros Hlt. apply (Hhigh n c bx cl); auto. }
  assert (Hall : forall n, (n < List.length confidence)%nat ->
     exists c bx cl x y z,
       nth_error confidence n = Some (Fin c) /\
       nth_error boxes n = Some bx /\ nth_error classes n = Some cl /\
       nth_error tc n = Some x /\ nth_error tb n = Some y /\
       nth_error tcl n = Some z /\
       is_finite x = true /\ finite_box y = true /\
       z <> [] /\ forallb is_finite z = true).
  { intros n Hn.
    destruct (nth_error confidence n) as [c|] eqn:Ec;
      [|apply nth_error_None in Ec; lia].
    destruct (nth_error boxes n) as [bx|] eqn:Eb;
      [|apply nth_error_None in Eb; lia].
    destruct (nth_error classes n) as [cl|] eqn:El;
      [|apply nth_error_None in El; lia].
    destruct (Hconf _ (nth_error_In _ _ Ec)) as (r & -> & Hr).
    destruct (Hcls _ (nth_error_In _ _ El)) as [Hne Hf].
    pose proof (Hbox _ (nth_error_In _ _ Eb)) as Hfb.
    destruct (Hcases n r bx cl Ec Eb El) as [Hl Hh].
    destruct (Rle_dec r pre) as [Hle|Hgt].
    - destruct (Hl Hle) as (R1 & R2 & R3).
      exists r, bx, cl, (Fin 0), zero_box, (map (fun _ => Fin 0) cl).
      repeat split; auto.
      + destruct cl; [congruence | discriminate].
      + apply forallb_zeros.
    - destruct (Hh ltac:(lra)) as (R1 & R2 & R3).
      exists r, bx, cl, (if use_classes then reduce_max cl else Fin r),
             bx, cl.
      repeat split; auto.
      destruct use_classes; [apply reduce_max_finite; auto | reflexivity]. }
  split; [exact Hcases|].
  split; [|split]; apply forall_nth_error; intros n x Hx.
  - assert (Hn : (n < List.length confidence)%nat)
      by (rewrite <- L1; apply nth_error_Some; congruence).
    destruct (Hall n Hn)
      as (c & bx & cl & x' & y & z & _ & _ & _ & E & _ & _ & F & _).
    congruence.
  - assert (Hn : (n < List.length confidence)%nat)
      by (rewrite <- L2; apply nth_error_Some; congruence).
    destruct (Hall n Hn)
      as (c & bx & cl & x' & y & z & _ & _ & _ & _ & E & _ & _ & F & _).
    congruence.
  - assert (Hn : (n < List.length confidence)%nat)
      by (rewrite <- L3; apply nth_error_Some; congruence).
    destruct (Hall n Hn)
      as (c & bx & cl & x' & y & z & _ & _ & _ & _ & _ & E & _ & _ & F).
    rewrite E in Hx. injection Hx as <-. exact F.
Qed.

Lemma finite_no_nan (l : list xfloat) :
  Forall (fun c => is_finite c = true) l ->
  forallb (fun x => negb (is_nan x)) l = true.
Proof.
  intros H. apply forallb_forall. intros x Hx.
  rewrite Forall_forall in H. specialize (H x Hx).
  destruct x; try discriminate. reflexivity.
Qed.

Section NmsRows.

Variable compute_diou : boxv -> boxv -> xfloat * xfloat.

(** C10 (as amended).  On an image with at least [k] candidates whose
    confidences are finite and exceed [pre_nms_thresh] by at most one (as
    probabilities do for a threshold in [0, 1]), whose box coordinates
    are finite and whose class rows are finite with at least one class,
    [nms] returns [k] boxes, [k] class labels and [k] confidences, the
    confidences finite and in descending order.  With [limit_pre_thresh]
    the candidates are first cut to the [k] most confident.  The
    thresholding zeroes the row of a candidate whose confidence does not
    exceed [pre_nms_thresh] and keeps every other row, the confidence
    replaced by the largest class score with [use_classes].  The [k] best
    rows are ranked; a ranked row is suppressed exactly when an earlier
    ranked row has a DIoU of at least [nms_thresh] with it; a suppressed
    row becomes all zero, any other row stays as it is; and the output is
    a rearrangement of these rows by descending confidence. *)
Theorem nms_returns_k_rows (boxes : list boxv)
    (classes : list (list xfloat)) (confidence : list xfloat) (k : nat)
    (pre_nms_thresh nms_thresh : R) (limit_pre_thresh use_classes : bool) :
  List.length boxes = List.length confidence ->
  List.length classes = List.length confidence ->
  (k <= List.length confidence)%nat ->
  Forall (fun c => exists r, c = Fin r /\ r <= pre_nms_thresh + 1)
         confidence ->
  Forall (fun b => finite_box b = true) boxes ->
  Forall (fun row => row <> [] /\ forallb is_finite row = true) classes ->
  exists confidence0 boxes0 classes0,
  (if limit_pre_thresh
   then nms_ops.sort_drop confidence boxes classes k
   else Return (confidence, boxes, classes)) =
    Return (confidence0, boxes0, classes0) /\
  let '(t_confidence, t_boxes, t_classes) :=
    nms_ops.thresholded boxes0 classes0 confidence0 pre_nms_thresh
                        use_classes in
  (forall n c bx cl,
     nth_error confidence0 n = Some (Fin c) ->
     nth_error boxes0 n = Some bx ->
     nth_error classes0 n = Some cl ->
     (c <= pre_nms_thresh ->
      nth_error t_confidence n = Some (Fin 0) /\
      nth_error t_boxes n = Some zero_box /\
      nth_error t_classes n = Some (map (fun _ => Fin 0) cl)) /\
     (pre_nms_thresh < c ->
      nth_error t_confidence n =
        Some (if use_classes then reduce_max cl else Fin c) /\
      nth_error t_boxes n = Some bx /\
      nth_error t_classes n = Some cl)) /\
  exists r_confidence r_boxes r_scores s_boxes s_classes s_confidence
         out_boxes out_classes out_confidence,
    nms_ops.sort_drop t_confidence t_boxes t_classes k =
      Return (r_confidence, r_boxes, r_scores) /\
    let r_classes := map (fun row => Fin (INR (argmax row))) r_scores in
    nms_ops.segment_nms compute_diou r_boxes r_classes r_confidence k
                        nms_thresh =
      (s_boxes, s_classes, s_confidence) /\
    nms_ops.nms compute_diou boxes classes confidence k pre_nms_thresh
                nms_thresh limit_pre_thresh use_classes =
      Return (out_boxes, out_classes, out_confidence) /\
    List.length out_boxes = k /\ List.length out_classes = k /\
    List.length out_confidence = k /\
    Forall (fun c => is_finite c = true) out_confidence /\
    StronglySorted (fun x y => xle y x = true) out_confidence /\
    Permutation (nms_ops.rows out_confidence out_boxes out_classes)
                (nms_ops.rows s_confidence s_boxes s_classes) /\
    (forall j,
       nms_ops.suppressed compute_diou r_boxes nms_thresh j = true <->
       exists i bi bj,
         (i < j)%nat /\ nth_error r_boxes i = Some bi /\
         nth_error r_boxes j = Some bj /\
         xge (snd (compute_diou bi bj)) (Fin nms_thresh) = true) /\
    (forall j, (j < k)%nat ->
       exists c b l,
         nth_error (nms_ops.rows r_confidence r_boxes r_classes) j =
           Some (c, (b, l)) /\
         nth_error (nms_ops.rows s_confidence s_boxes s_classes) j =
           Some (if nms_ops.suppressed compute_diou r_boxes nms_thresh j
                 then (Fin 0, (zero_box, Fin 0)) else (c, (b, l)))).
Proof.
  intros Hb Hc Hk Hconf Hbox Hcls.
  assert (Hpre : exists confidence0 boxes0 classes0,
    (if limit_pre_thresh
     then nms_ops.sort_drop confidence boxes classes k
     else Return (confidence, boxes, classes)) =
      Return (confidence0, boxes0, classes0) /\
    List.length boxes0 = List.length confidence0 /\
    List.length classes0 = List.length confidence0 /\
    (k <= List.length confidence0)%nat /\
    Forall (fun c => exists r, c = Fin r /\ r <= pre_nms_thresh + 1)
           confidence0 /\
    Forall (fun b => finite_box b = true) boxes0 /\
    Forall (fun row => row <> [] /\ forallb is_finite row = true) classes0).
  { destruct limit_pre_thresh.
    - destruct (sort_drop_forall boxv (list xfloat) zero_box [] confidence
                  boxes classes k Hb Hc Hk)
        as (s & b & c & Hsd & L1 & L2 & L3 & F1 & F2 & F3).
      exists s, b, c. repeat split; auto; lia.
    - exists confidence, boxes, classes. repeat split; auto. }
  destruct Hpre as (confidence0 & boxes0 & classes0 & Hfirst & Hb0 & Hc0 &
                    Hk0 & Hconf0 & Hbox0 & Hcls0).
  exists confidence0, boxes0, classes0. split; [exact Hfirst|].
  assert (Hnms :
    nms_ops.nms compute_diou boxes classes confidence k pre_nms_thresh
      nms_thresh limit_pre_thresh use_classes =
    nms_ops.nms compute_diou boxes0 classes0 confidence0 k pre_nms_thresh
      nms_thresh false use_classes).
  { unfold nms_ops.nms. rewrite Hfirst. reflexivity. }
  rewrite Hnms. clear Hnms Hfirst.
  pose proof (nms_no_limit compute_diou boxes0 classes0 confidence0 k
                pre_nms_thresh nms_thresh use_classes Hb0 Hc0 Hk0) as Hno.
  pose proof (thresholded_rows boxes0 classes0 confidence0 pre_nms_thresh
                use_classes Hb0 Hc0 Hconf0 Hbox0 Hcls0) as Hrows.
  pose proof (thresholded_lengths boxes0 classes0 confidence0
                pre_nms_thresh use_classes Hb0 Hc0) as Hlen.
  destruct (nms_ops.thresholded boxes0 classes0 confidence0 pre_nms_thresh
              use_classes) as [[tc tb] tcl].
  destruct Hlen as (T1 & T2 & T3).
  destruct Hrows as (Hcases & Ftc & Ftb & Ftcl).
  split; [exact Hcases|].
  destruct Hno as (_ & rc & rb & rsc & sb & sl & ss & ob & ol & oc & Hsd &
                   Hseg & Hout & L1 & L2 & L3 & Hsorted & _ & Hperm & Hsup &
                   Hrow).
  cbv zeta in Hseg, Hperm, Hrow.
  destruct (sort_drop_forall boxv (list xfloat) zero_box [] tc tb tcl k
              ltac:(lia) ltac:(lia) ltac:(lia))
    as (rc' & rb' & rsc' & Hsd' & R1 & R2 & R3 & F1 & F2 & F3).
  rewrite Hsd in Hsd'. injection Hsd' as <- <- <-.
  pose proof (F1 _ Ftc) as Frc. pose proof (F2 _ Ftb) as Frb.
  set (rl := map (fun row => Fin (INR (argmax row))) rsc) in *.
  assert (R3' : List.length rl = k)
    by (subst rl; rewrite length_map; exact R3).
  pose proof (segment_nms_rows compute_diou rb rl rc k nms_thresh R2 R3' R1)
    as Hsegl.
  rewrite Hseg in Hsegl. destruct Hsegl as (S1 & S2 & S3 & _).
  assert (Hrowj : forall j, (j < k)%nat ->
    exists c b l,
      nth_error (nms_ops.rows rc rb rl) j = Some (c, (b, l)) /\
      is_finite c = true /\
      nth_error (nms_ops.rows ss sb sl) j =
        Some (if nms_ops.suppressed compute_diou rb nms_thresh j
              then (Fin 0, (zero_box, Fin 0)) else (c, (b, l)))).
  { intros j Hj.
    destruct (nth_error rc j) as [c|] eqn:Ec;
      [|apply nth_error_None in Ec; lia].
    destruct (nth_error rb j) as [b|] eqn:Eb;
      [|apply nth_error_None in Eb; lia].
    destruct (nth_error rl j) as [l|] eqn:El;
      [|apply nth_error_None in El; lia].
    assert (Er : nth_error (nms_ops.rows rc rb rl) j = Some (c, (b, l)))
      by (rewrite nth_error_rows, Ec, Eb, El; reflexivity).
    rewrite Forall_forall in Frc, Frb.
    pose proof (Frc _ (nth_error_In _ _ Ec)) as Hfc.
    pose proof (Frb _ (nth_error_In _ _ Eb)) as Hfb.
    exists c, b, l. split; [exact Er|]. split; [exact Hfc|].
    destruct (Hrow j c b l Er) as [Hkeep Hdrop].
    destruct (nms_ops.suppressed compute_diou rb nms_thresh j); auto. }
  assert (Fss : Forall (fun c => is_finite c = true) ss).
  { apply forall_nth_error. intros j x Hx.
    assert (Hj : (j < k)%nat)
      by (rewrite <- S3; apply nth_error_Some; congruence).
    destruct (Hrowj j Hj) as (c & b & l & _ & Hfc & Hs).
    rewrite nth_error_rows, Hx in Hs.
    destruct (nth_error sb j); [|discriminate].
    destruct (nth_error sl j); [|discriminate].
    destruct (nms_ops.suppressed compute_diou rb nms_thresh j);
      injection Hs as -> _ _; auto. }
  assert (Foc : Forall (fun c => is_finite c = true) oc).
  { destruct (rows_split oc ob ol ltac:(lia) ltac:(lia)) as (E1 & _ & _).
    destruct (rows_split ss sb sl ltac:(lia) ltac:(lia)) as (E2 & _ & _).
    rewrite <- E1.
    apply (Permutation_Forall
             (Permutation_sym (Permutation_map fst Hperm))).
    unfold nms_ops.rows. rewrite E2. exact Fss. }
  exists rc, rb, rsc, sb, sl, ss, ob, ol, oc.
  split; [exact Hsd|]. cbv zeta. fold rl.
  split; [exact Hseg|].
  split; [exact Hout|].
  split; [exact L1|]. split; [exact L2|]. split; [exact L3|].
  split; [exact Foc|].
  split; [apply sorted_descending; [exact Hsorted | apply finite_no_nan, Foc]|].
  split; [exact Hperm|].
  split; [exact Hsup|].
  intros j Hj. destruct (Hrowj j Hj) as (c & b & l & Er & _ & Hs).
  exists c, b, l. split; assumption.
Qed.

End NmsRows.

Ltac rdecide :=
  repeat match goal with
  | |- context [Rlt_dec ?a ?b] =>
      destruct (Rlt_dec a b); [try (exfalso; lra) | try (exfalso; lra)]
  | |- context [Rle_dec ?a ?b] =>
      destruct (Rle_dec a b); [try (exfalso; lra) | try (exfalso; lra)]
  | |- context [Req_dec_T ?a ?b] =>
      destruct (Req_dec_T a b); [try (exfalso; lra) | try (exfalso; lra)]
  end.

Ltac xeval :=
  repeat (progress
    (unfold math_ops.divide_no_nan, xsquare, relu, xmax, xmin, xsub, xge;
     cbv zeta;
     cbn [fst snd xadd xopp xmul xdiv xlt xle xeq is_nan orb];
     rdecide));
  repeat f_equal; try lra; try (field; lra); try (field_simplify; lra).

Lemma unit_box_centre : box_ops_model.yxyx_to_xcycwh unit_box = unit_centre.
Proof.
  unfold box_ops_model.yxyx_to_xcycwh, unit_box, unit_centre. xeval.
Qed.

Lemma zero_box_centre : box_ops_model.yxyx_to_xcycwh zero_box = zero_box.
Proof. unfold box_ops_model.yxyx_to_xcycwh, zero_box. xeval. Qed.

Lemma unit_low : box_ops_model.low (Fin 0.5) (Fin 1) = Fin 0.
Proof. unfold box_ops_model.low. xeval. Qed.

Lemma unit_high : box_ops_model.high (Fin 0.5) (Fin 1) = Fin 1.
Proof. unfold box_ops_model.high. xeval. Qed.

Lemma zero_low : box_ops_model.low (Fin 0) (Fin 0) = Fin 0.
Proof. unfold box_ops_model.low. xeval. Qed.

Lemma zero_high : box_ops_model.high (Fin 0) (Fin 0) = Fin 0.
Proof. unfold box_ops_model.high. xeval. Qed.

Lemma unit_self_intersection :
  box_ops_model.intersection unit_centre unit_centre = Fin 1.
Proof.
  unfold box_ops_model.intersection, unit_centre.
  rewrite unit_low, unit_high. xeval.
Qed.

Lemma unit_zero_intersection :
  box_ops_model.intersection unit_centre zero_box = Fin 0.
Proof.
  unfold box_ops_model.intersection, unit_centre, zero_box.
  rewrite unit_low, unit_high, zero_low, zero_high. xeval.
Qed.

Lemma unit_self_iou : box_ops_model.compute_iou unit_centre unit_centre = Fin 1.
Proof.
  unfold box_ops_model.compute_iou, box_ops_model.union.
  rewrite unit_self_intersection. unfold unit_centre. xeval.
Qed.

Lemma unit_zero_iou : box_ops_model.compute_iou unit_centre zero_box = Fin 0.
Proof.
  unfold box_ops_model.compute_iou, box_ops_model.union.
  rewrite unit_zero_intersection. unfold unit_centre, zero_box. xeval.
Qed.

Lemma unit_self_diou :
  snd (box_ops_model.compute_diou_yxyx unit_box unit_box) = Fin 1.
Proof.
  unfold box_ops_model.compute_diou_yxyx. cbv zeta.
  rewrite unit_box_centre, unit_self_iou.
  unfold box_ops_model.hull_w, box_ops_model.hull_h, unit_centre.
  cbn [fst snd]. rewrite unit_low, unit_high. xeval.
Qed.

Lemma unit_zero_diou :
  snd (box_ops_model.compute_diou_yxyx unit_box zero_box) = Fin (- 0.25).
Proof.
  unfold box_ops_model.compute_diou_yxyx. cbv zeta.
  rewrite unit_box_centre, zero_box_centre, unit_zero_iou.
  unfold box_ops_model.hull_w, box_ops_model.hull_h, unit_centre, zero_box.
  cbn [fst snd]. rewrite unit_low, unit_high, zero_low, zero_high. xeval.
Qed.

(** The stages of [nms] on the example. *)

Lemma example_thresholded :
  nms_ops.thresholded example_nms_boxes example_nms_classes
    example_nms_confidence 0.5 false =
  ([Fin 0.9; Fin 0.8; Fin 0], [unit_box; unit_box; zero_box],
   [[Fin 0.2; Fin 0.7]; [Fin 0.6; Fin 0.3]; [Fin 0; Fin 0]]).
Proof.
  unfold nms_ops.thresholded, nms_ops.pre_nms_mask, example_nms_boxes,
    example_nms_classes, example_nms_confidence, map2.
  cbn [map combine].
  rewrite (pre_nms_mask_above 0.9 0.5), (pre_nms_mask_above 0.8 0.5),
    (pre_nms_mask_below 0.1 0.5) by lra.
  rewrite !xmul_one_r, !scale_box_one.
  rewrite !xmul_zero by reflexivity.
  rewrite scale_box_zero by reflexivity.
  reflexivity.
Qed.

Lemma example_first_ranking :
  nms_ops.sort_drop [Fin 0.9; Fin 0.8; Fin 0]
    [unit_box; unit_box; zero_box]
    [[Fin 0.2; Fin 0.7]; [Fin 0.6; Fin 0.3]; [Fin 0; Fin 0]] 3 =
  Return ([Fin 0.9; Fin 0.8; Fin 0], [unit_box; unit_box; zero_box],
          [[Fin 0.2; Fin 0.7]; [Fin 0.6; Fin 0.3]; [Fin 0; Fin 0]]).
Proof.
  apply (sort_drop_sorted boxv (list xfloat) zero_box []);
    [|reflexivity | reflexivity | simpl; lia].
  repeat constructor; cbn [xlt]; rdecide; reflexivity.
Qed.

Lemma example_labels :
  map (fun row => Fin (INR (argmax row)))
      [[Fin 0.2; Fin 0.7]; [Fin 0.6; Fin 0.3]; [Fin 0; Fin 0]] =
  [Fin 1; Fin 0; Fin 0].
Proof.
  unfold argmax. cbn [map argmax_from xlt]. rdecide. reflexivity.
Qed.

Lemma example_suppressed_0 :
  nms_ops.suppressed box_ops_model.compute_diou_yxyx
    [unit_box; unit_box; zero_box] 0.5 0 = false.
Proof.
  destruct (nms_ops.suppressed _ _ _ _) eqn:E; [|reflexivity].
  apply suppressed_iff in E. destruct E as (i & _ & _ & Hi & _). lia.
Qed.

Lemma example_suppressed_1 :
  nms_ops.suppressed box_ops_model.compute_diou_yxyx
    [unit_box; unit_box; zero_box] 0.5 1 = true.
Proof.
  apply suppressed_iff. exists 0%nat, unit_box, unit_box.
  split; [lia|]. split; [reflexivity|]. split; [reflexivity|].
  rewrite unit_self_diou. unfold xge. cbn [xle]. rdecide. reflexivity.
Qed.

Lemma example_suppressed_2 :
  nms_ops.suppressed box_ops_model.compute_diou_yxyx
    [unit_box; unit_box; zero_box] 0.5 2 = false.
Proof.
  destruct (nms_ops.suppressed _ _ _ _) eqn:E; [|reflexivity].
  apply suppressed_iff in E. destruct E as (i & bi & bj & Hi & Ei & Ej & H).
  injection Ej as <-.
  assert (Hbi : bi = unit_box).
  { destruct i as [|[|i]]; [injection Ei as <-; reflexivity
                           |injection Ei as <-; reflexivity | lia]. }
  subst bi. rewrite unit_zero_diou in H. unfold xge in H. cbn [xle] in H.
  rdec_in H; [lra | discriminate].
Qed.

Lemma example_segment_nms :
  nms_ops.segment_nms box_ops_model.compute_diou_yxyx
    [unit_box; unit_box; zero_box] [Fin 1; Fin 0; Fin 0]
    [Fin 0.9; Fin 0.8; Fin 0] 3 0.5 =
  ([unit_box; zero_box; zero_box], [Fin 1; Fin 0; Fin 0],
   [Fin 0.9; Fin 0; Fin 0]).
Proof.
  unfold nms_ops.segment_nms. cbv zeta. cbn [seq map].
  rewrite example_suppressed_0, example_suppressed_1, example_suppressed_2.
  unfold map2. cbn [combine map].
  rewrite !xmul_keep, !scale_box_keep.
  rewrite !xmul_drop by reflexivity.
  rewrite scale_box_drop by reflexivity.
  reflexivity.
Qed.

Lemma example_final_ranking :
  nms_ops.sort_drop [Fin 0.9; Fin 0; Fin 0]
    [unit_box; zero_box; zero_box] [Fin 1; Fin 0; Fin 0] 3 =
  Return ([Fin 0.9; Fin 0; Fin 0], [unit_box; zero_box; zero_box],
          [Fin 1; Fin 0; Fin 0]).
Proof.
  apply (sort_drop_sorted boxv xfloat zero_box NaN);
    [|reflexivity | reflexivity | simpl; lia].
  repeat constructor; cbn [xlt]; rdecide; reflexivity.
Qed.

Lemma example_nms_output :
  nms_ops.nms box_ops_model.compute_diou_yxyx example_nms_boxes
    example_nms_classes example_nms_confidence 3 0.5 0.5 false false =
  Return ([unit_box; zero_box; zero_box], [Fin 1; Fin 0; Fin 0],
          [Fin 0.9; Fin 0; Fin 0]).
Proof.
  unfold nms_ops.nms. cbn [bind].
  rewrite example_thresholded, example_first_ranking. cbn [bind].
  rewrite example_labels, example_segment_nms, example_final_ranking.
  reflexivity.
Qed.

Lemma example_nms_premises :
  Forall (fun c => exists r, c = Fin r /\ r <= 0.5 + 1)
         example_nms_confidence /\
  Forall (fun b => finite_box b = true) example_nms_boxes /\
  Forall (fun row => row <> [] /\ forallb is_finite row = true)
         example_nms_classes.
Proof.
  split; [|split].
  - repeat constructor; eexists; (split; [reflexivity | lra]).
  - repeat constructor.
  - repeat constructor; discriminate.
Qed.

Lemma nms_returns_k_rows_witness :
  (3 <= List.length example_nms_confidence)%nat /\
  (let '(t_confidence, t_boxes, t_classes) :=
     nms_ops.thresholded example_nms_boxes example_nms_classes
       example_nms_confidence 0.5 false in
   nth_error t_confidence 2 = Some (Fin 0) /\
   nth_error t_boxes 2 = Some zero_box) /\
  nms_ops.suppressed box_ops_model.compute_diou_yxyx
    [unit_box; unit_box; zero_box] 0.5 1 = true /\
  nms_ops.nms box_ops_model.compute_diou_yxyx example_nms_boxes
    example_nms_classes example_nms_confidence 3 0.5 0.5 false false =
  Return ([unit_box; zero_box; zero_box], [Fin 1; Fin 0; Fin 0],
          [Fin 0.9; Fin 0; Fin 0]) /\
  StronglySorted (fun x y => xle y x = true) [Fin 0.9; Fin 0; Fin 0].
Proof.
  assert (Hk : (3 <= List.length example_nms_confidence)%nat)
    by (simpl; lia).
  destruct example_nms_premises as (Hconf & Hbox & Hcls).
  destruct (nms_returns_k_rows box_ops_model.compute_diou_yxyx
              example_nms_boxes example_nms_classes example_nms_confidence
              3 0.5 0.5 false false eq_refl eq_refl Hk Hconf Hbox Hcls)
    as (c0 & b0 & cl0 & Hfirst & H).
  injection Hfirst as <- <- <-.
  split; [exact Hk|].
  destruct (nms_ops.thresholded example_nms_boxes example_nms_classes
              example_nms_confidence 0.5 false)
    as [[tc tb] tcl] eqn:Et.
  rewrite example_thresholded in Et. injection Et as <- <- <-.
  destruct H as (Hcases & rc & rb & rsc & sb & sl & ss & ob & ol & oc &
                 Hsd & Hseg & Hout & L1 & L2 & L3 & Ffin & Hsorted & Hperm &
                 Hsup & Hrow).
  rewrite example_first_ranking in Hsd. injection Hsd as <- <- <-.
  rewrite example_nms_output in Hout. injection Hout as <- <- <-.
  split.
  { destruct (Hcases 2%nat 0.1 ((Fin 2, Fin 2), (Fin 3, Fin 3))
                [Fin 0.5; Fin 0.5] eq_refl eq_refl eq_refl) as [Hlow _].
    destruct (Hlow ltac:(lra)) as (Z1 & Z2 & _). split; assumption. }
  split.
  { apply Hsup. exists 0%nat, unit_box, unit_box.
    split; [lia|]. split; [reflexivity|]. split; [reflexivity|].
    rewrite unit_self_diou. unfold xge. cbn [xle]. rdecide. reflexivity. }
  split; [exact example_nms_output | exact Hsorted].
Defined.
